(** * SPI-slave to UDP bridge (ESP32-C3): the forwarding loop

    Shallow embedding of [spi_udp_forward_loop] of [main/app_main.c].  The
    earlier revision of the firmware inlines the very same loop at the end of
    its [app_main]; statement for statement the two bodies coincide, so one
    model serves both.

    The loop talks to three collaborators that are not part of the
    repository: the GPIO driver ([gpio_set_level]), the SPI slave driver
    ([spi_slave_transmit]) and the socket layer ([sendto]).  Calls to them are
    recorded as events; what they answer comes from two oracles carried by the
    machine state ([bus] and [net]).

    The second half of the definitions embeds the rest of [main/app_main.c]
    (the event handlers, [wifi_init_base], [ble_provisioning_if_needed],
    [udp_init], [spi_slave_init_bus], [app_main]) and the bring-up of the
    earlier revision ([wifi_init_sta_simple] and its [app_main]), over a
    second state, the [board], which holds the machine of the loop. *)

From Stdlib Require Import ZArith Lia.
From Stdlib Require Import Strings.Byte Strings.String.
From stdpp Require Import base list.

Local Open Scope Z_scope.

(** ** C data *)

Abbreviation byte := Byte.byte.

(** Value of a [uint8_t]. *)
Definition u8 (b : byte) : Z := Z.of_N (Byte.to_N b).

(** The cast [(uint16_t) x]. *)
Definition uint16_t (x : Z) : Z := x mod 65536.

Definition HDR_LEN : Z := 10.
Definition PAYLOAD_MAX : Z := 2048.
Definition PIN_RDY : Z := 10.
Definition ESP_OK : Z := 0.

(** The three arrays of the loop: [hdr], [payload] and [out]. *)
Inductive object := obj_hdr | obj_payload | obj_out.

(** [sizeof] of each array, from its declaration. *)
Definition sizeof (o : object) : Z :=
  match o with
  | obj_hdr => HDR_LEN
  | obj_payload => PAYLOAD_MAX
  | obj_out => HDR_LEN + PAYLOAD_MAX
  end.

(** [spi_slave_transaction_t]: [length] and [trans_len] count bits, the two
    buffers are pointers to one of the arrays or NULL. *)
Record spi_slave_transaction_t := {
  t_length : Z;
  t_trans_len : Z;
  t_tx_buffer : option object;
  t_rx_buffer : option object
}.

Definition t_zero : spi_slave_transaction_t :=
  {| t_length := 0; t_trans_len := 0; t_tx_buffer := None; t_rx_buffer := None |}.

(** One answer of the SPI driver to a blocking [spi_slave_transmit]: the master
    ran a transaction and clocked [rx] towards the slave, or the driver gave
    up with one of its error codes (the [ESP_ERR_*] constants, all positive;
    [ESP_OK] is 0). *)
Inductive spi_result :=
| SpiOk (rx : list byte)
| SpiErr (err : positive).

(** ** Machine state

    [hdr], [payload] and [t] live across iterations.  [out] is declared inside
    the loop body and never initialised: it is kept in the state so that it
    enters every iteration with whatever the previous one (or anything
    before) left in that stack slot.  [bus] lists the driver answers still to
    come, one per call; [net] gives the return values of the coming [sendto]
    calls. *)
Record machine := {
  hdr : list byte;
  payload : list byte;
  out : list byte;
  t : spi_slave_transaction_t;
  bus : list spi_result;
  net : nat -> Z
}.

Definition load (o : object) (m : machine) : list byte :=
  match o with
  | obj_hdr => hdr m
  | obj_payload => payload m
  | obj_out => out m
  end.

Definition store (o : object) (l : list byte) (m : machine) : machine :=
  match o with
  | obj_hdr => {| hdr := l; payload := payload m; out := out m; t := t m; bus := bus m; net := net m |}
  | obj_payload => {| hdr := hdr m; payload := l; out := out m; t := t m; bus := bus m; net := net m |}
  | obj_out => {| hdr := hdr m; payload := payload m; out := l; t := t m; bus := bus m; net := net m |}
  end.

Definition set_t (x : spi_slave_transaction_t) (m : machine) : machine :=
  {| hdr := hdr m; payload := payload m; out := out m; t := x; bus := bus m; net := net m |}.

Definition set_bus (b : list spi_result) (m : machine) : machine :=
  {| hdr := hdr m; payload := payload m; out := out m; t := t m; bus := b; net := net m |}.

Definition set_net (f : nat -> Z) (m : machine) : machine :=
  {| hdr := hdr m; payload := payload m; out := out m; t := t m; bus := bus m; net := f |}.

(** The arrays have their declared sizes. *)
Definition wf (m : machine) : Prop :=
  ∀ o, Z.of_nat (length (load o m)) = sizeof o.

(** ** Observable calls and ways to stop *)

Inductive event :=
| ev_gpio_set_level (pin level : Z)
| ev_spi_slave_transmit (bits : Z) (rx_buffer : option object)
| ev_sendto (len : Z) (dgram : list byte)
| ev_abort.

Inductive halt :=
| Aborted (rc : Z)      (* [abort()] after a failed [ESP_ERROR_CHECK] *)
| Blocked               (* waiting in [spi_slave_transmit]: no master transaction left *)
| OutOfBounds.          (* an access outside an array *)

Inductive result (A : Type) :=
| Ret (a : A) (m : machine)
| Halt (h : halt).
Arguments Ret {A} a m.
Arguments Halt {A} h.

(** ** The monad: state, event log, early stop *)

Definition M (A : Type) : Type := machine → list event * result A.

Definition ret {A} (a : A) : M A := λ m, ([], Ret a m).

Definition bind {A B} (x : M A) (f : A → M B) : M B := λ m,
  match x m with
  | (e1, Ret a m1) => let '(e2, r) := f a m1 in (e1 ++ e2, r)
  | (e1, Halt h) => (e1, Halt h)
  end.

Notation "x ← a ; b" := (bind a (λ x, b))
  (at level 20, a at level 100, b at level 200, right associativity,
   format "x  ←  a ;  '/' b").
Notation "a ;; b" := (bind a (λ _, b))
  (at level 100, b at level 200, right associativity,
   format "a ;;  '/' b").

Definition emit (e : event) : M unit := λ m, ([e], Ret tt m).
Definition stop {A} (h : halt) : M A := λ _, ([], Halt h).
Definition get {A} (f : machine → A) : M A := λ m, ([], Ret (f m) m).
Definition modify (f : machine → machine) : M unit := λ m, ([], Ret tt (f m)).

(** Bounds-checked array accesses: leaving an array is [OutOfBounds]. *)
Definition index (o : object) (i : nat) : M byte :=
  l ← get (load o);
  match l !! i with
  | Some b => ret b
  | None => stop OutOfBounds
  end.

Definition read (o : object) (n : Z) : M (list byte) :=
  l ← get (load o);
  if (0 <=? n) && (n <=? Z.of_nat (length l)) then ret (take (Z.to_nat n) l)
  else stop OutOfBounds.

Definition write (o : object) (off : Z) (data : list byte) : M unit :=
  l ← get (load o);
  if (0 <=? off) && (off + Z.of_nat (length data) <=? Z.of_nat (length l))
  then modify (store o (take (Z.to_nat off) l ++ data
                        ++ drop (Z.to_nat off + length data) l))
  else stop OutOfBounds.

(** ** libc and drivers *)

Definition memset (o : object) (c : byte) (n : Z) : M unit :=
  if 0 <=? n then write o 0 (replicate (Z.to_nat n) c) else stop OutOfBounds.

Definition memcpy (dst : object) (off : Z) (src : object) (n : Z) : M unit :=
  data ← read src n;
  write dst off data.

(** [set_rdy(v)] is [gpio_set_level(PIN_RDY, v)]. *)
Definition set_rdy (v : Z) : M unit := emit (ev_gpio_set_level PIN_RDY v).

(** Modelled from the spec: [spi_slave_transmit] belongs to the SDK, not to
    the sources.  The spec gives its contract as a receive that "blocks the
    calling thread until exactly [length] bytes have been exchanged over the
    peripheral bus, writing them into [buffer]", where a failure is a
    transport-level error reported to the caller; what a request for zero
    bytes does it leaves to "how the underlying bus primitive treats a
    zero-byte transfer request".  So the model decides nothing by itself: the
    call is logged with the bit length and receive buffer it finds in [t],
    and its outcome is the next answer of [bus].  With no answer left the call
    never returns (the loop passes [portMAX_DELAY]).  On [SpiOk rx] the driver
    stores at most [t.length] bits of [rx] at the start of the receive
    buffer, sets [t.trans_len] and returns [ESP_OK]; it is entitled to the
    whole [t.length], so a request larger than the buffer is an
    out-of-bounds access.  On [SpiErr rc] it returns [rc] and touches no
    array. *)
Definition spi_slave_transmit : M Z :=
  tr ← get t;
  emit (ev_spi_slave_transmit (t_length tr) (t_rx_buffer tr));;
  pending ← get bus;
  match pending with
  | [] => stop Blocked
  | SpiErr rc :: rest => modify (set_bus rest);; ret (Z.pos rc)
  | SpiOk rx :: rest =>
      modify (set_bus rest);;
      let cap := (t_length tr + 7) / 8 in
      let got := take (Z.to_nat cap) rx in
      match t_rx_buffer tr with
      | Some o =>
          cur ← get (load o);
          if cap <=? Z.of_nat (length cur) then write o 0 got else stop OutOfBounds
      | None => ret tt
      end;;
      modify (set_t {| t_length := t_length tr;
                       t_trans_len := Z.min (t_length tr) (8 * Z.of_nat (length rx));
                       t_tx_buffer := t_tx_buffer tr;
                       t_rx_buffer := t_rx_buffer tr |});;
      ret ESP_OK
  end.

(** Modelled from the spec: the macro [ESP_ERROR_CHECK] comes from the SDK
    header [esp_err.h], which is not among the sources.  The spec gives its
    policy: a failure of the receive primitive "is treated as fatal and
    aborts the process" with no recovery and no retry; a success lets the
    caller go on. *)
Definition ESP_ERROR_CHECK (x : M Z) : M unit :=
  rc ← x;
  if rc =? ESP_OK then ret tt else emit ev_abort;; stop (Aborted rc).

(** Modelled from the spec: [sendto] belongs to the socket layer, not to the
    sources.  The spec: it "sends [buffer[0:length]] as one unreliable
    datagram to the fixed destination configured at startup".  The call
    [sendto(udp_sock, buf, len, 0, &udp_dst, sizeof udp_dst)] is logged with
    [len] and the first [len] bytes of [buf]; its return value is the next
    one of [net]. *)
Definition sendto (buf : object) (len : Z) : M Z :=
  dgram ← read buf len;
  emit (ev_sendto len dgram);;
  f ← get net;
  modify (set_net (λ i, f (S i)));;
  ret (f 0%nat).

(** ** The loop *)

(** [(uint16_t)(hdr[8] | ((uint16_t)hdr[9] << 8))] *)
Definition le16 (lo hi : byte) : Z :=
  uint16_t (Z.lor (u8 lo) (Z.shiftl (uint16_t (u8 hi)) 8)).

(** [if (payload_len > PAYLOAD_MAX) payload_len = PAYLOAD_MAX;] *)
Definition clamp (payload_len : Z) : Z :=
  if PAYLOAD_MAX <? payload_len then PAYLOAD_MAX else payload_len.

Definition set_t_length (n : Z) : M unit :=
  modify (λ m, set_t {| t_length := n; t_trans_len := t_trans_len (t m);
                        t_tx_buffer := t_tx_buffer (t m);
                        t_rx_buffer := t_rx_buffer (t m) |} m).

Definition set_t_rx_buffer (o : object) : M unit :=
  modify (λ m, set_t {| t_length := t_length (t m); t_trans_len := t_trans_len (t m);
                        t_tx_buffer := t_tx_buffer (t m);
                        t_rx_buffer := Some o |} m).

(** One pass through the body of [while (1)]. *)
Definition loop_body : M unit :=
  set_rdy 1;;
  (* Receive header (10 bytes) *)
  modify (set_t t_zero);;
  memset obj_hdr x00 (sizeof obj_hdr);;
  set_t_length (HDR_LEN * 8);;
  set_t_rx_buffer obj_hdr;;
  ESP_ERROR_CHECK spi_slave_transmit;;
  (* payload_len is last 2 bytes (little-endian) *)
  h8 ← index obj_hdr 8;
  h9 ← index obj_hdr 9;
  let payload_len := clamp (le16 h8 h9) in
  set_rdy 1;;
  (* Receive payload *)
  modify (set_t t_zero);;
  memset obj_payload x00 (sizeof obj_payload);;
  set_t_length (payload_len * 8);;
  set_t_rx_buffer obj_payload;;
  ESP_ERROR_CHECK spi_slave_transmit;;
  (* Forward via UDP: [hdr + payload] *)
  memcpy obj_out 0 obj_hdr HDR_LEN;;
  memcpy obj_out HDR_LEN obj_payload payload_len;;
  sendto obj_out (HDR_LEN + payload_len);;
  ret tt.

(** [while (1) { ... }], observed for [fuel] passes. *)
Fixpoint spi_udp_forward_loop (fuel : nat) : M unit :=
  match fuel with
  | O => ret tt
  | S k => loop_body;; spi_udp_forward_loop k
  end.

(** ** Sample inputs *)

Definition stale (n : Z) : list byte := replicate (Z.to_nat n) xff.

(** A machine whose arrays hold leftovers ([0xff] everywhere). *)
Definition power_on (b : list spi_result) (f : nat → Z) : machine :=
  {| hdr := stale HDR_LEN; payload := stale PAYLOAD_MAX;
     out := stale (HDR_LEN + PAYLOAD_MAX); t := t_zero; bus := b; net := f |}.

(** frame 1, chunk 2, 5 payload bytes *)
Definition hdr_5 : list byte := [x01; x00; x00; x00; x02; x00; x00; x00; x05; x00].
Definition payload_5 : list byte := [xaa; xbb; xcc; xdd; xee].
(** same length field, other frame and chunk *)
Definition hdr_5' : list byte := [x63; x00; x00; x00; x07; x00; x80; x00; x05; x00].
(** declares 65535 payload bytes *)
Definition hdr_big : list byte := [x09; x00; x00; x00; x01; x00; x00; x00; xff; xff].
Definition payload_long : list byte := replicate 3000 xab.
(** declares no payload *)
Definition hdr_0 : list byte := [x07; x00; x00; x00; x03; x00; x00; x00; x00; x00].
(** declares 2 payload bytes *)
Definition hdr_2 : list byte := [x02; x00; x00; x00; x00; x00; x01; x00; x02; x00].
Definition payload_2 : list byte := [x11; x22].

Definition demo_exact : machine := power_on [SpiOk hdr_5; SpiOk payload_5] (λ _, 15).
Definition demo_big : machine := power_on [SpiOk hdr_big; SpiOk payload_long] (λ _, 2058).
Definition demo_zero : machine := power_on [SpiOk hdr_0; SpiOk payload_5] (λ _, 10).
Definition demo_zero_idle : machine := power_on [SpiOk hdr_0] (λ _, 10).
Definition demo_two : machine :=
  power_on [SpiOk hdr_5; SpiOk payload_5; SpiOk hdr_2; SpiOk payload_2] (λ _, 0).
Definition demo_two' : machine :=
  power_on [SpiOk hdr_big; SpiOk payload_long; SpiOk hdr_2; SpiOk payload_2] (λ _, 0).
Definition demo_failing : machine :=
  power_on [SpiOk hdr_5; SpiErr 258; SpiOk hdr_2] (λ _, 0).
(** The driver fails the header receive; the master never starts a
    transaction. *)
Definition demo_header_fails : machine :=
  power_on [SpiErr 263; SpiOk hdr_5; SpiOk payload_5] (λ _, 0).
Definition demo_idle : machine := power_on [] (λ _, 0).

(** ** What an iteration leaves behind, in closed form

    These definitions are not part of the program: they name the values the
    theorems below talk about. *)

(** [rx] cut or zero-padded to [n] bytes: what a zeroed array shows in its
    first [n] bytes after the driver stored at most [n] bytes of [rx]. *)
Definition exactly (n : Z) (rx : list byte) : list byte :=
  take (Z.to_nat n) rx ++ replicate (Z.to_nat n - length rx) x00.

Definition byte_at (l : list byte) (i : nat) : byte := default x00 (l !! i).

(** The length field a header carries in its bytes 8 and 9. *)
Definition declared_len (h : list byte) : Z := le16 (byte_at h 8) (byte_at h 9).

(** The byte count the engine uses for a header as it sits in [hdr]. *)
Definition used_len (h : list byte) : Z := clamp (declared_len (exactly HDR_LEN h)).

Definition datagram (h p : list byte) : list byte :=
  exactly HDR_LEN h ++ exactly (used_len h) p.

Definition header_events : list event :=
  [ev_gpio_set_level PIN_RDY 1; ev_spi_slave_transmit (HDR_LEN * 8) (Some obj_hdr)].

Definition payload_events (h : list byte) : list event :=
  [ev_gpio_set_level PIN_RDY 1;
   ev_spi_slave_transmit (used_len h * 8) (Some obj_payload)].

Definition forward_events (h p : list byte) : list event :=
  [ev_sendto (HDR_LEN + used_len h) (datagram h p)].

(** The state after a complete pass that received [h] then [p]. *)
Definition after_body (m : machine) (h p : list byte) (rest : list spi_result) : machine :=
  {| hdr := exactly HDR_LEN h;
     payload := exactly (used_len h) p
                ++ replicate (Z.to_nat PAYLOAD_MAX - Z.to_nat (used_len h)) x00;
     out := datagram h p ++ drop (Z.to_nat (HDR_LEN + used_len h)) (out m);
     t := {| t_length := used_len h * 8;
             t_trans_len := Z.min (used_len h * 8) (8 * Z.of_nat (length p));
             t_tx_buffer := None;
             t_rx_buffer := Some obj_payload |};
     bus := rest;
     net := λ i, net m (S i) |}.

(** The whole pass, by cases on what the bus still holds. *)
Definition body_summary (m : machine) : list event * result unit :=
  match bus m with
  | [] => (header_events, Halt Blocked)
  | SpiErr rc :: _ => (header_events ++ [ev_abort], Halt (Aborted (Z.pos rc)))
  | SpiOk h :: [] => (header_events ++ payload_events h, Halt Blocked)
  | SpiOk h :: SpiErr rc :: _ =>
      (header_events ++ payload_events h ++ [ev_abort], Halt (Aborted (Z.pos rc)))
  | SpiOk h :: SpiOk p :: rest =>
      (header_events ++ payload_events h ++ forward_events h p,
       Ret tt (after_body m h p rest))
  end.

(** The states between the three phases of a pass. *)
Definition after_header (m : machine) (h : list byte) (rest : list spi_result) : machine :=
  {| hdr := exactly HDR_LEN h; payload := payload m; out := out m;
     t := {| t_length := HDR_LEN * 8;
             t_trans_len := Z.min (HDR_LEN * 8) (8 * Z.of_nat (length h));
             t_tx_buffer := None; t_rx_buffer := Some obj_hdr |};
     bus := rest; net := net m |}.

Definition after_payload (m : machine) (n : Z) (p : list byte) (rest : list spi_result) : machine :=
  {| hdr := hdr m;
     payload := exactly n p ++ replicate (Z.to_nat PAYLOAD_MAX - Z.to_nat n) x00;
     out := out m;
     t := {| t_length := n * 8;
             t_trans_len := Z.min (n * 8) (8 * Z.of_nat (length p));
             t_tx_buffer := None; t_rx_buffer := Some obj_payload |};
     bus := rest; net := net m |}.

Definition prepend {A} (e : list event) (p : list event * result A) :
  list event * result A := (e ++ p.1, p.2).

(** ** Shapes of event logs *)

(** The log of the loop: whole passes, each made of ready, header receive,
    ready, payload receive, send, in that order; then nothing more (the
    observation ends at the loop head) or one pass cut short, in a receive
    that does not return or by the abort after a failed receive. *)
Inductive loop_trace : list event → Prop :=
| trace_cut : loop_trace []
| trace_pass n d tl :
    loop_trace tl →
    loop_trace (ev_gpio_set_level PIN_RDY 1
                :: ev_spi_slave_transmit (HDR_LEN * 8) (Some obj_hdr)
                :: ev_gpio_set_level PIN_RDY 1
                :: ev_spi_slave_transmit (n * 8) (Some obj_payload)
                :: ev_sendto (HDR_LEN + n) d :: tl)
| trace_header_blocked :
    loop_trace [ev_gpio_set_level PIN_RDY 1;
                ev_spi_slave_transmit (HDR_LEN * 8) (Some obj_hdr)]
| trace_header_failed :
    loop_trace [ev_gpio_set_level PIN_RDY 1;
                ev_spi_slave_transmit (HDR_LEN * 8) (Some obj_hdr); ev_abort]
| trace_payload_blocked n :
    loop_trace [ev_gpio_set_level PIN_RDY 1;
                ev_spi_slave_transmit (HDR_LEN * 8) (Some obj_hdr);
                ev_gpio_set_level PIN_RDY 1;
                ev_spi_slave_transmit (n * 8) (Some obj_payload)]
| trace_payload_failed n :
    loop_trace [ev_gpio_set_level PIN_RDY 1;
                ev_spi_slave_transmit (HDR_LEN * 8) (Some obj_hdr);
                ev_gpio_set_level PIN_RDY 1;
                ev_spi_slave_transmit (n * 8) (Some obj_payload); ev_abort].

(** How often the ready line is set high in a log. *)
Definition is_ready (e : event) : bool :=
  match e with
  | ev_gpio_set_level pin level => (pin =? PIN_RDY) && (level =? 1)
  | _ => false
  end.

Definition ready_count (evs : list event) : nat := length (filter is_ready evs).

(** The datagrams of a log, in order. *)
Fixpoint sent (evs : list event) : list (list byte) :=
  match evs with
  | [] => []
  | ev_sendto _ d :: tl => d :: sent tl
  | _ :: tl => sent tl
  end.

(** A send within the capacity of [out]. *)
Definition send_in_bounds (e : event) : Prop :=
  match e with
  | ev_sendto len d =>
      HDR_LEN <= len <= HDR_LEN + PAYLOAD_MAX ∧ Z.of_nat (length d) = len
  | _ => True
  end.

(** A run seen from outside the socket layer: its log, and where it stands
    with the answers of [sendto] left out. *)
Definition observe (run : list event * result unit) : list event * result unit :=
  match run with
  | (evs, Ret a m) => (evs, Ret a (set_net (λ _, 0) m))
  | (evs, Halt h) => (evs, Halt h)
  end.

(** * Bring-up: event handlers, initialisation, [app_main]

    The bring-up code calls into the SDK (NVS, netif, Wi-Fi, provisioning
    manager, event loop, FreeRTOS event group, GPIO and SPI drivers) and into
    the socket layer.  Every call is recorded as an event; the status it
    returns is the next value of an oracle, [sdk_ret].  The handlers run on
    the task of the default event loop: here an event still to come is handed
    to them while [app_main] sleeps in [xEventGroupWaitBits], the only place
    where [app_main] depends on what they did. *)

(** ** Constants the sources take from elsewhere *)

(** Enumerators and macros of the SDK headers.  Their values are not in the
    sources; the code only compares them and passes them on. *)
Class sdk := {
  ESP_ERR_NVS_NO_FREE_PAGES : Z;
  ESP_ERR_NVS_NEW_VERSION_FOUND : Z;
  ESP_EVENT_ANY_ID : Z;
  WIFI_EVENT_STA_START : Z;
  WIFI_EVENT_STA_DISCONNECTED : Z;
  IP_EVENT_STA_GOT_IP : Z;
  NETWORK_PROV_START : Z;
  NETWORK_PROV_WIFI_CRED_RECV : Z;
  NETWORK_PROV_WIFI_CRED_SUCCESS : Z;
  NETWORK_PROV_WIFI_CRED_FAIL : Z;
  NETWORK_PROV_END : Z;
  NETWORK_PROV_SECURITY_2 : Z;
  ESP_MAC_WIFI_STA : Z;
  WIFI_MODE_STA : Z;
  WIFI_IF_STA : Z;
  AF_INET : Z;
  SOCK_DGRAM : Z;
  IPPROTO_IP : Z;
  GPIO_INTR_DISABLE : Z;
  GPIO_MODE_OUTPUT : Z;
  SPI2_HOST : Z;
  SPI_DMA_CH_AUTO : Z;
  sizeof_sta_ssid : nat;        (* [sizeof(wifi_config.sta.ssid)] *)
  sizeof_sta_password : nat     (* [sizeof(wifi_config.sta.password)] *)
}.

(** [credential.h]: four link-time constants, defined in a file that is not
    among the sources.  The strings are given without their final NUL. *)
Class credential := {
  WIFI_SSID : list byte;
  WIFI_PASS : list byte;
  UDP_HOST_IP : list byte;
  UDP_HOST_PORT : Z
}.

Definition PIN_SCLK : Z := 4.
Definition PIN_MISO : Z := 5.
Definition PIN_MOSI : Z := 6.
Definition PIN_CS : Z := 7.

(** [BIT0] *)
Definition WIFI_CONNECTED_BIT : Z := 1.

(** [esp_event_base_t]: event bases are compared by address. *)
Inductive esp_event_base_t :=
| WIFI_EVENT
| IP_EVENT
| NETWORK_PROV_EVENT
| other_event_base (n : nat).

Definition base_eqb (a b : esp_event_base_t) : bool :=
  match a, b with
  | WIFI_EVENT, WIFI_EVENT | IP_EVENT, IP_EVENT
  | NETWORK_PROV_EVENT, NETWORK_PROV_EVENT => true
  | other_event_base n, other_event_base k => Nat.eqb n k
  | _, _ => false
  end.

(** The two handler functions of the file. *)
Inductive handler := h_wifi_event_handler | h_prov_event_handler.

Record sockaddr_in := { sin_family : Z; sin_port : Z; sin_addr : Z }.

(** [spi_bus_config_t] and [spi_slave_interface_config_t], the fields the
    source sets. *)
Record spi_bus_config_t := {
  mosi_io_num : Z; miso_io_num : Z; sclk_io_num : Z;
  quadwp_io_num : Z; quadhd_io_num : Z; max_transfer_sz : Z
}.

Record spi_slave_interface_config_t := {
  spics_io_num : Z; queue_size : Z; mode : Z; flags : Z
}.

(** ** State of the board *)

(** The program's own state: the arrays and transaction of the forwarding
    loop ([bridge]), the file-scope variables [s_wifi_event_group] (the bits
    of the group), [udp_sock] and [udp_dst], and the handlers registered with
    the default event loop.  The rest is the world around it: the status
    codes the SDK calls will return, one per call ([sdk_ret]); whether
    credentials are stored ([provisioned]); the station MAC ([factory_mac]);
    what [inet_addr] makes of a string; and the events the default event
    loop will hand to the handlers ([posted]). *)
Record board := {
  bridge : machine;
  s_wifi_event_group : Z;
  udp_sock : Z;
  udp_dst : sockaddr_in;
  registered : list (esp_event_base_t * Z * handler);
  sdk_ret : nat → Z;
  provisioned : bool;
  factory_mac : list byte;
  inet_addr : list byte → Z;
  posted : list (esp_event_base_t * Z)
}.

Definition set_bridge (m : machine) (b : board) : board :=
  {| bridge := m; s_wifi_event_group := s_wifi_event_group b; udp_sock := udp_sock b;
     udp_dst := udp_dst b; registered := registered b; sdk_ret := sdk_ret b;
     provisioned := provisioned b; factory_mac := factory_mac b;
     inet_addr := inet_addr b; posted := posted b |}.

Definition set_group (g : Z) (b : board) : board :=
  {| bridge := bridge b; s_wifi_event_group := g; udp_sock := udp_sock b;
     udp_dst := udp_dst b; registered := registered b; sdk_ret := sdk_ret b;
     provisioned := provisioned b; factory_mac := factory_mac b;
     inet_addr := inet_addr b; posted := posted b |}.

Definition set_udp_sock (fd : Z) (b : board) : board :=
  {| bridge := bridge b; s_wifi_event_group := s_wifi_event_group b; udp_sock := fd;
     udp_dst := udp_dst b; registered := registered b; sdk_ret := sdk_ret b;
     provisioned := provisioned b; factory_mac := factory_mac b;
     inet_addr := inet_addr b; posted := posted b |}.

Definition set_udp_dst (d : sockaddr_in) (b : board) : board :=
  {| bridge := bridge b; s_wifi_event_group := s_wifi_event_group b; udp_sock := udp_sock b;
     udp_dst := d; registered := registered b; sdk_ret := sdk_ret b;
     provisioned := provisioned b; factory_mac := factory_mac b;
     inet_addr := inet_addr b; posted := posted b |}.

Definition set_registered (r : list (esp_event_base_t * Z * handler)) (b : board) : board :=
  {| bridge := bridge b; s_wifi_event_group := s_wifi_event_group b; udp_sock := udp_sock b;
     udp_dst := udp_dst b; registered := r; sdk_ret := sdk_ret b;
     provisioned := provisioned b; factory_mac := factory_mac b;
     inet_addr := inet_addr b; posted := posted b |}.

Definition set_sdk_ret (f : nat → Z) (b : board) : board :=
  {| bridge := bridge b; s_wifi_event_group := s_wifi_event_group b; udp_sock := udp_sock b;
     udp_dst := udp_dst b; registered := registered b; sdk_ret := f;
     provisioned := provisioned b; factory_mac := factory_mac b;
     inet_addr := inet_addr b; posted := posted b |}.

Definition set_posted (q : list (esp_event_base_t * Z)) (b : board) : board :=
  {| bridge := bridge b; s_wifi_event_group := s_wifi_event_group b; udp_sock := udp_sock b;
     udp_dst := udp_dst b; registered := registered b; sdk_ret := sdk_ret b;
     provisioned := provisioned b; factory_mac := factory_mac b;
     inet_addr := inet_addr b; posted := q |}.

(** ** What the board is seen to do *)

Inductive sdk_fn :=
| nvs_flash_init | nvs_flash_erase
| xEventGroupCreate | xEventGroupSetBits | xEventGroupWaitBits
| esp_netif_init | esp_event_loop_create_default | esp_netif_create_default_wifi_sta
| esp_event_handler_register
| esp_wifi_init | esp_wifi_set_mode | esp_wifi_set_config | esp_wifi_start
| esp_wifi_connect
| network_prov_mgr_init | network_prov_mgr_is_wifi_provisioned
| network_prov_mgr_start_provisioning | network_prov_mgr_deinit
| esp_read_mac | vTaskDelay | socket | gpio_config | spi_slave_initialize.

Inductive arg :=
| a_int (z : Z)
| a_str (s : list byte)
| a_base (e : esp_event_base_t)
| a_handler (h : handler).

Inductive log_level := LOGE | LOGW | LOGI.

Inductive sys_event :=
| sys_call (f : sdk_fn) (args : list arg)
| sys_log (level : log_level) (format : string) (args : list arg)
| sys_dispatch (e : esp_event_base_t) (id : Z)
| sys_bridge (e : event)
| sys_sendto (sock : Z) (len : Z) (dgram : list byte) (dst : sockaddr_in)
| sys_abort.

Inductive sys_halt :=
| check_failed (rc : Z)     (* [abort()] out of [ESP_ERROR_CHECK] *)
| abort_called              (* a plain [abort()] *)
| waiting                   (* in [xEventGroupWaitBits], the bit never set *)
| in_bridge (h : halt).     (* the forwarding code stopped *)

Inductive sys_result (A : Type) :=
| SRet (a : A) (b : board)
| SHalt (h : sys_halt).
Arguments SRet {A} a b.
Arguments SHalt {A} h.

Definition Sys (A : Type) : Type := board → list sys_event * sys_result A.

Definition sret {A} (a : A) : Sys A := λ b, ([], SRet a b).

Definition sbind {A B} (x : Sys A) (f : A → Sys B) : Sys B := λ b,
  match x b with
  | (e1, SRet a b1) => let '(e2, r) := f a b1 in (e1 ++ e2, r)
  | (e1, SHalt h) => (e1, SHalt h)
  end.

Declare Scope sys_scope.
Delimit Scope sys_scope with sys.
Bind Scope sys_scope with Sys.
Notation "x ← a ; b" := (sbind a (λ x, b))
  (at level 20, a at level 100, b at level 200, right associativity) : sys_scope.
Notation "a ;; b" := (sbind a (λ _, b))
  (at level 100, b at level 200, right associativity) : sys_scope.

Definition semit (e : sys_event) : Sys unit := λ b, ([e], SRet tt b).
Definition sstop {A} (h : sys_halt) : Sys A := λ _, ([], SHalt h).
Definition sget {A} (f : board → A) : Sys A := λ b, ([], SRet (f b) b).
Definition smodify (f : board → board) : Sys unit := λ b, ([], SRet tt (f b)).

(** Code of the forwarding part run on the board: it works on [bridge]; its
    [sendto] goes to [udp_sock] and [udp_dst] as they are then. *)
Definition on_board (b : board) (e : event) : sys_event :=
  match e with
  | ev_sendto len dgram => sys_sendto (udp_sock b) len dgram (udp_dst b)
  | _ => sys_bridge e
  end.

Definition run_bridge {A} (x : M A) : Sys A := λ b,
  match x (bridge b) with
  | (evs, Ret a m) => (on_board b <$> evs, SRet a (set_bridge m b))
  | (evs, Halt h) => (on_board b <$> evs, SHalt (in_bridge h))
  end.

(** A call into the SDK that returns a status or a descriptor: logged, and
    answered by the next value of [sdk_ret]. *)
Definition sdk_call (f : sdk_fn) (args : list arg) : Sys Z :=
  (semit (sys_call f args);;
   r ← sget sdk_ret;
   smodify (set_sdk_ret (λ i, r (S i)));;
   sret (r 0%nat))%sys.

(** A call whose result, if any, the source does not take. *)
Definition sdk_do (f : sdk_fn) (args : list arg) : Sys unit := semit (sys_call f args).

(** [ESP_LOGE], [ESP_LOGW], [ESP_LOGI] with the tag of the file. *)
Definition ESP_LOG (level : log_level) (format : string) (args : list arg) : Sys unit :=
  semit (sys_log level format args).

(** [ESP_ERROR_CHECK] around a call of the bring-up code: as in the
    forwarding loop, any status but [ESP_OK] ends in [abort()]. *)
Definition ESP_ERROR_CHECK_sys (x : Sys Z) : Sys unit :=
  (rc ← x;
   if rc =? ESP_OK then sret tt else semit sys_abort;; sstop (check_failed rc))%sys.

(** ** libc *)

(** [htons] on this little-endian target: the argument is taken as a
    [uint16_t] and its two bytes change places. *)
Definition htons (x : Z) : Z :=
  let x := uint16_t x in (x mod 256) * 256 + x / 256.

(** One digit of [%X]. *)
Definition hex_digit (n : N) : byte :=
  match n with
  | 0 => "0" | 1 => "1" | 2 => "2" | 3 => "3" | 4 => "4" | 5 => "5" | 6 => "6"
  | 7 => "7" | 8 => "8" | 9 => "9" | 10 => "A" | 11 => "B" | 12 => "C"
  | 13 => "D" | 14 => "E" | _ => "F"
  end%N%byte.

(** [%02X] of a [uint8_t] argument: two digits, upper case. *)
Definition fmt_02X (b : byte) : list byte :=
  [hex_digit (Byte.to_N b / 16); hex_digit (Byte.to_N b mod 16)].

(** [snprintf(buf, size, ...)] for a text without NUL: [buf] receives at most
    [size - 1] characters of it, then the NUL; the call returns the length
    of the whole text. *)
Definition snprintf (size : nat) (text : list byte) : list byte * Z :=
  (take (size - 1) text, Z.of_nat (length text)).

(** [strncpy(dst, src, n)] into a zeroed field of [n] bytes: the first [n]
    characters of [src], padded with NUL when [src] is shorter, and no NUL at
    all when it is not. *)
Definition strncpy (n : nat) (src : list byte) : list byte :=
  take n src ++ replicate (n - length src) x00.

Section Bringup.
Context {K : sdk} {C : credential}.

(** ** The event handlers *)

Definition wifi_event_handler (event_base : esp_event_base_t) (event_id : Z) : Sys unit :=
  (if base_eqb event_base WIFI_EVENT then
     if event_id =? WIFI_EVENT_STA_START then
       ESP_LOG LOGI "WIFI_EVENT_STA_START -> esp_wifi_connect()" [];;
       _ ← sdk_call esp_wifi_connect [];
       sret tt
     else if event_id =? WIFI_EVENT_STA_DISCONNECTED then
       ESP_LOG LOGW "WIFI_EVENT_STA_DISCONNECTED -> reconnect" [];;
       _ ← sdk_call esp_wifi_connect [];
       sret tt
     else sret tt
   else if base_eqb event_base IP_EVENT && (event_id =? IP_EVENT_STA_GOT_IP) then
     ESP_LOG LOGI "IP_EVENT_STA_GOT_IP" [];;
     sdk_do xEventGroupSetBits [a_int WIFI_CONNECTED_BIT];;
     smodify (λ b, set_group (Z.lor (s_wifi_event_group b) WIFI_CONNECTED_BIT) b)
   else sret tt)%sys.

Definition prov_event_handler (event_base : esp_event_base_t) (event_id : Z) : Sys unit :=
  (if negb (base_eqb event_base NETWORK_PROV_EVENT) then sret tt
   else if event_id =? NETWORK_PROV_START then
     ESP_LOG LOGI "NETWORK_PROV_START" []
   else if event_id =? NETWORK_PROV_WIFI_CRED_RECV then
     ESP_LOG LOGI "NETWORK_PROV_WIFI_CRED_RECV" []
   else if event_id =? NETWORK_PROV_WIFI_CRED_SUCCESS then
     ESP_LOG LOGI "NETWORK_PROV_WIFI_CRED_SUCCESS" []
   else if event_id =? NETWORK_PROV_WIFI_CRED_FAIL then
     ESP_LOG LOGW "NETWORK_PROV_WIFI_CRED_FAIL" []
   else if event_id =? NETWORK_PROV_END then
     ESP_LOG LOGI "NETWORK_PROV_END" []
   else ESP_LOG LOGI "NETWORK_PROV_EVENT id=%PRId32" [a_int event_id])%sys.

(** ** The default event loop and the event group *)

Definition call_handler (h : handler) (e : esp_event_base_t) (id : Z) : Sys unit :=
  match h with
  | h_wifi_event_handler => wifi_event_handler e id
  | h_prov_event_handler => prov_event_handler e id
  end.

(** The event loop hands an event to every handler registered for its base
    and for its id or for [ESP_EVENT_ANY_ID], in the order of registration. *)
Fixpoint deliver (regs : list (esp_event_base_t * Z * handler))
    (e : esp_event_base_t) (id : Z) : Sys unit :=
  match regs with
  | [] => sret tt
  | (rb, rid, h) :: tl =>
      ((if base_eqb rb e && ((rid =? ESP_EVENT_ANY_ID) || (rid =? id))
        then call_handler h e id else sret tt);;
       deliver tl e id)%sys
  end.

Definition dispatch (e : esp_event_base_t) (id : Z) : Sys unit :=
  (semit (sys_dispatch e id);;
   regs ← sget registered;
   deliver regs e id)%sys.

(** [esp_event_handler_register]: on [ESP_OK] the handler is on the list. *)
Definition event_handler_register (e : esp_event_base_t) (id : Z) (h : handler) : Sys Z :=
  (rc ← sdk_call esp_event_handler_register [a_base e; a_int id; a_handler h];
   (if rc =? ESP_OK
    then smodify (λ b, set_registered (registered b ++ [(e, id, h)]) b)
    else sret tt);;
   sret rc)%sys.

(** [xEventGroupWaitBits(group, bits, pdFALSE, pdTRUE, portMAX_DELAY)]: the
    caller sleeps until all of [bits] are set and clears none.  While it
    sleeps the event loop hands the posted events to the handlers, one after
    the other; when none is left and the bits are still not set, the call
    never returns. *)
Fixpoint wait_for (bits : Z) (queue : list (esp_event_base_t * Z)) : Sys unit :=
  λ b,
    if Z.land (s_wifi_event_group b) bits =? bits then sret tt b
    else match queue with
         | [] => sstop waiting b
         | (e, id) :: tl =>
             (smodify (set_posted tl);; dispatch e id;; wait_for bits tl)%sys b
         end.

Definition event_group_wait (bits : Z) : Sys unit :=
  (sdk_do xEventGroupWaitBits [a_int bits];;
   queue ← sget posted;
   wait_for bits queue)%sys.

(** ** Initialisation *)

Definition wifi_init_base : Sys unit :=
  (sdk_do xEventGroupCreate [];;
   smodify (set_group 0);;
   ESP_ERROR_CHECK_sys (sdk_call esp_netif_init []);;
   ESP_ERROR_CHECK_sys (sdk_call esp_event_loop_create_default []);;
   sdk_do esp_netif_create_default_wifi_sta [];;
   ESP_ERROR_CHECK_sys
     (event_handler_register WIFI_EVENT ESP_EVENT_ANY_ID h_wifi_event_handler);;
   ESP_ERROR_CHECK_sys
     (event_handler_register IP_EVENT IP_EVENT_STA_GOT_IP h_wifi_event_handler);;
   ESP_ERROR_CHECK_sys (sdk_call esp_wifi_init []);;
   ESP_ERROR_CHECK_sys (sdk_call esp_wifi_set_mode [a_int WIFI_MODE_STA]);;
   ESP_ERROR_CHECK_sys (sdk_call esp_wifi_start []))%sys.

(** The text [snprintf] is asked to print for the service name. *)
Definition service_name_text (mac : list byte) : list byte :=
  list_byte_of_string "LV-JPEG-"
  ++ fmt_02X (byte_at mac 3) ++ fmt_02X (byte_at mac 4) ++ fmt_02X (byte_at mac 5).

Definition ble_provisioning_if_needed : Sys unit :=
  (ESP_ERROR_CHECK_sys (sdk_call network_prov_mgr_is_wifi_provisioned []);;
   is_provisioned ← sget provisioned;
   if is_provisioned then ESP_LOG LOGI "Already provisioned." []
   else
     ESP_ERROR_CHECK_sys (sdk_call esp_read_mac [a_int ESP_MAC_WIFI_STA]);;
     mac ← sget (λ b, exactly 6 (factory_mac b));
     let service_name := fst (snprintf 32 (service_name_text mac)) in
     ESP_LOG LOGI "Not provisioned. Start BLE provisioning: %s" [a_str service_name];;
     let security := NETWORK_PROV_SECURITY_2 in
     let pop := list_byte_of_string "abcd1234" in
     ESP_ERROR_CHECK_sys
       (sdk_call network_prov_mgr_start_provisioning
          [a_int security; a_str pop; a_str service_name]);;
     ESP_LOG LOGI "Open 'ESP BLE Provisioning' app and provision device: %s"
       [a_str service_name];;
     event_group_wait WIFI_CONNECTED_BIT;;
     ESP_LOG LOGI "Provisioned & connected. Deinit provisioning manager." [];;
     sdk_do network_prov_mgr_deinit [])%sys.

Definition udp_init : Sys unit :=
  (fd ← sdk_call socket [a_int AF_INET; a_int SOCK_DGRAM; a_int IPPROTO_IP];
   smodify (set_udp_sock fd);;
   if fd <? 0 then
     ESP_LOG LOGE "socket() failed" [];;
     semit sys_abort;;
     sstop abort_called
   else
     to_addr ← sget inet_addr;
     smodify (set_udp_dst {| sin_family := AF_INET;
                             sin_port := htons UDP_HOST_PORT;
                             sin_addr := to_addr UDP_HOST_IP |});;
     ESP_LOG LOGI "UDP target %s:%d" [a_str UDP_HOST_IP; a_int UDP_HOST_PORT])%sys.

Definition buscfg : spi_bus_config_t :=
  {| mosi_io_num := PIN_MOSI; miso_io_num := PIN_MISO; sclk_io_num := PIN_SCLK;
     quadwp_io_num := -1; quadhd_io_num := -1;
     max_transfer_sz := if HDR_LEN <? PAYLOAD_MAX then PAYLOAD_MAX else HDR_LEN |}.

Definition slvcfg : spi_slave_interface_config_t :=
  {| spics_io_num := PIN_CS; queue_size := 8; mode := 0; flags := 0 |}.

Definition spi_slave_init_bus : Sys unit :=
  (ESP_ERROR_CHECK_sys
     (sdk_call gpio_config
        [a_int GPIO_INTR_DISABLE; a_int GPIO_MODE_OUTPUT; a_int (Z.shiftl 1 PIN_RDY)]);;
   run_bridge (set_rdy 1);;
   ESP_ERROR_CHECK_sys
     (sdk_call spi_slave_initialize
        [a_int SPI2_HOST;
         a_int (mosi_io_num buscfg); a_int (miso_io_num buscfg);
         a_int (sclk_io_num buscfg); a_int (quadwp_io_num buscfg);
         a_int (quadhd_io_num buscfg); a_int (max_transfer_sz buscfg);
         a_int (spics_io_num slvcfg); a_int (queue_size slvcfg);
         a_int (mode slvcfg); a_int (flags slvcfg);
         a_int SPI_DMA_CH_AUTO]);;
   ESP_LOG LOGI "SPI slave ready (SCLK=%d MOSI=%d MISO=%d CS=%d RDY=%d)"
     [a_int PIN_SCLK; a_int PIN_MOSI; a_int PIN_MISO; a_int PIN_CS; a_int PIN_RDY])%sys.

(** ** [app_main] *)

(** [app_main] of [main/app_main.c], with the forwarding loop observed for
    [fuel] passes. *)
Definition app_main (fuel : nat) : Sys unit :=
  (err ← sdk_call nvs_flash_init [];
   (if (err =? ESP_ERR_NVS_NO_FREE_PAGES) || (err =? ESP_ERR_NVS_NEW_VERSION_FOUND)
    then
      ESP_ERROR_CHECK_sys (sdk_call nvs_flash_erase []);;
      ESP_ERROR_CHECK_sys (sdk_call nvs_flash_init [])
    else sret tt);;
   wifi_init_base;;
   ESP_ERROR_CHECK_sys (sdk_call network_prov_mgr_init []);;
   ESP_ERROR_CHECK_sys
     (event_handler_register NETWORK_PROV_EVENT ESP_EVENT_ANY_ID h_prov_event_handler);;
   ble_provisioning_if_needed;;
   event_group_wait WIFI_CONNECTED_BIT;;
   ESP_LOG LOGI "Wi-Fi connected. Start UDP + SPI forwarding." [];;
   sdk_do network_prov_mgr_deinit [];;
   udp_init;;
   spi_slave_init_bus;;
   run_bridge (spi_udp_forward_loop fuel))%sys.

(** The earlier [app_main], with fixed credentials, and its
    [wifi_init_sta_simple]. *)
Definition wifi_init_sta_simple : Sys unit :=
  (ESP_ERROR_CHECK_sys (sdk_call esp_netif_init []);;
   ESP_ERROR_CHECK_sys (sdk_call esp_event_loop_create_default []);;
   sdk_do esp_netif_create_default_wifi_sta [];;
   ESP_ERROR_CHECK_sys (sdk_call esp_wifi_init []);;
   let ssid := strncpy sizeof_sta_ssid WIFI_SSID in
   let password := strncpy sizeof_sta_password WIFI_PASS in
   ESP_ERROR_CHECK_sys (sdk_call esp_wifi_set_mode [a_int WIFI_MODE_STA]);;
   ESP_ERROR_CHECK_sys
     (sdk_call esp_wifi_set_config [a_int WIFI_IF_STA; a_str ssid; a_str password]);;
   ESP_ERROR_CHECK_sys (sdk_call esp_wifi_start []);;
   ESP_LOG LOGI "WiFi connecting to SSID=%s ..." [a_str WIFI_SSID];;
   ESP_ERROR_CHECK_sys (sdk_call esp_wifi_connect []))%sys.

Definition app_main_static (fuel : nat) : Sys unit :=
  (ESP_ERROR_CHECK_sys (sdk_call nvs_flash_init []);;
   wifi_init_sta_simple;;
   sdk_do vTaskDelay [a_int 3000];;
   udp_init;;
   spi_slave_init_bus;;
   run_bridge (spi_udp_forward_loop fuel))%sys.

(** ** Names for the statements about the bring-up

    As for the loop, these are not part of the program. *)

(** The event that sets [WIFI_CONNECTED_BIT], and the events on which
    [wifi_event_handler] calls [esp_wifi_connect]. *)
Definition is_got_ip (e : esp_event_base_t) (id : Z) : bool :=
  base_eqb e IP_EVENT && (id =? IP_EVENT_STA_GOT_IP).

Definition asks_connect (e : esp_event_base_t) (id : Z) : bool :=
  base_eqb e WIFI_EVENT
  && ((id =? WIFI_EVENT_STA_START) || (id =? WIFI_EVENT_STA_DISCONNECTED)).

(** The handler called on one event after the other. *)
Fixpoint wifi_events (evs : list (esp_event_base_t * Z)) : Sys unit :=
  match evs with
  | [] => sret tt
  | (e, id) :: tl => (wifi_event_handler e id;; wifi_events tl)%sys
  end.

(** Whether the wiring of handlers lets [wifi_event_handler] hear
    [IP_EVENT_STA_GOT_IP]. *)
Definition hears_got_ip (regs : list (esp_event_base_t * Z * handler)) : bool :=
  existsb (λ r, match r with
                | (rb, rid, h_wifi_event_handler) =>
                    base_eqb rb IP_EVENT
                    && ((rid =? ESP_EVENT_ANY_ID) || (rid =? IP_EVENT_STA_GOT_IP))
                | _ => false
                end) regs.

(** Two stretches of [app_main]: up to the return of its wait for
    [WIFI_CONNECTED_BIT], and from there to the entry of the loop. *)
Definition until_connected : Sys unit :=
  (err ← sdk_call nvs_flash_init [];
   (if (err =? ESP_ERR_NVS_NO_FREE_PAGES) || (err =? ESP_ERR_NVS_NEW_VERSION_FOUND)
    then
      ESP_ERROR_CHECK_sys (sdk_call nvs_flash_erase []);;
      ESP_ERROR_CHECK_sys (sdk_call nvs_flash_init [])
    else sret tt);;
   wifi_init_base;;
   ESP_ERROR_CHECK_sys (sdk_call network_prov_mgr_init []);;
   ESP_ERROR_CHECK_sys
     (event_handler_register NETWORK_PROV_EVENT ESP_EVENT_ANY_ID h_prov_event_handler);;
   ble_provisioning_if_needed;;
   event_group_wait WIFI_CONNECTED_BIT)%sys.

Definition forwarding_setup : Sys unit :=
  (ESP_LOG LOGI "Wi-Fi connected. Start UDP + SPI forwarding." [];;
   sdk_do network_prov_mgr_deinit [];;
   udp_init;;
   spi_slave_init_bus)%sys.

(** What comes after the NVS block of [app_main]. *)
Definition after_nvs (fuel : nat) : Sys unit :=
  (wifi_init_base;;
   ESP_ERROR_CHECK_sys (sdk_call network_prov_mgr_init []);;
   ESP_ERROR_CHECK_sys
     (event_handler_register NETWORK_PROV_EVENT ESP_EVENT_ANY_ID h_prov_event_handler);;
   ble_provisioning_if_needed;;
   event_group_wait WIFI_CONNECTED_BIT;;
   ESP_LOG LOGI "Wi-Fi connected. Start UDP + SPI forwarding." [];;
   sdk_do network_prov_mgr_deinit [];;
   udp_init;;
   spi_slave_init_bus;;
   run_bridge (spi_udp_forward_loop fuel))%sys.

(** The destination [udp_init] builds from [credential.h]. *)
Definition configured_dst (b : board) : sockaddr_in :=
  {| sin_family := AF_INET;
     sin_port := htons UDP_HOST_PORT;
     sin_addr := inet_addr b UDP_HOST_IP |}.

(** Every SDK call to come reports success. *)
Definition healthy (b : board) : Prop := ∀ i, sdk_ret b i = ESP_OK.

(** A board on which nothing stands in the way: the SDK is healthy, Wi-Fi
    credentials are stored, and an [IP_EVENT_STA_GOT_IP] is among the events
    to come. *)
Definition ready_to_connect (b : board) : Prop :=
  healthy b ∧ provisioned b = true ∧ (IP_EVENT, IP_EVENT_STA_GOT_IP) ∈ posted b.

(** Ready, with [wifi_event_handler] registered for the address event. *)
Definition wired (b : board) : Prop :=
  ready_to_connect b ∧ hears_got_ip (registered b) = true.

(** What [spi_slave_init_bus] passes to [spi_slave_initialize]. *)
Definition spi_slave_initialize_args : list arg :=
  [a_int SPI2_HOST;
   a_int (mosi_io_num buscfg); a_int (miso_io_num buscfg);
   a_int (sclk_io_num buscfg); a_int (quadwp_io_num buscfg);
   a_int (quadhd_io_num buscfg); a_int (max_transfer_sz buscfg);
   a_int (spics_io_num slvcfg); a_int (queue_size slvcfg);
   a_int (mode slvcfg); a_int (flags slvcfg);
   a_int SPI_DMA_CH_AUTO].

(** The earlier revision before its forwarding part: NVS, Wi-Fi start, and
    the fixed delay. *)
Definition static_start : Sys unit :=
  (ESP_ERROR_CHECK_sys (sdk_call nvs_flash_init []);;
   wifi_init_sta_simple;;
   sdk_do vTaskDelay [a_int 3000])%sys.

End Bringup.

(** ** Predicates on logs and runs, and sample boards *)

(** The value of a digit of [%X]. *)
Definition unhex (c : byte) : N :=
  match c with
  | "0" => 0 | "1" => 1 | "2" => 2 | "3" => 3 | "4" => 4 | "5" => 5 | "6" => 6
  | "7" => 7 | "8" => 8 | "9" => 9 | "A" => 10 | "B" => 11 | "C" => 12
  | "D" => 13 | "E" => 14 | _ => 15
  end%N%byte.

(** Events of the forwarding part: RDY, SPI receives, datagrams. *)
Definition is_forwarding (e : sys_event) : bool :=
  match e with
  | sys_bridge _ | sys_sendto _ _ _ _ => true
  | _ => false
  end.

(** A call of the SDK function [f]. *)
Definition is_call (f : sdk_fn) (e : sys_event) : bool :=
  match e with
  | sys_call g _ =>
      match f, g with
      | nvs_flash_init, nvs_flash_init | nvs_flash_erase, nvs_flash_erase
      | xEventGroupCreate, xEventGroupCreate | xEventGroupSetBits, xEventGroupSetBits
      | xEventGroupWaitBits, xEventGroupWaitBits | esp_netif_init, esp_netif_init
      | esp_event_loop_create_default, esp_event_loop_create_default
      | esp_netif_create_default_wifi_sta, esp_netif_create_default_wifi_sta
      | esp_event_handler_register, esp_event_handler_register
      | esp_wifi_init, esp_wifi_init | esp_wifi_set_mode, esp_wifi_set_mode
      | esp_wifi_set_config, esp_wifi_set_config | esp_wifi_start, esp_wifi_start
      | esp_wifi_connect, esp_wifi_connect
      | network_prov_mgr_init, network_prov_mgr_init
      | network_prov_mgr_is_wifi_provisioned, network_prov_mgr_is_wifi_provisioned
      | network_prov_mgr_start_provisioning, network_prov_mgr_start_provisioning
      | network_prov_mgr_deinit, network_prov_mgr_deinit
      | esp_read_mac, esp_read_mac | vTaskDelay, vTaskDelay | socket, socket
      | gpio_config, gpio_config | spi_slave_initialize, spi_slave_initialize => true
      | _, _ => false
      end
  | _ => false
  end.

(** How often a log calls [f]. *)
Definition count_calls (f : sdk_fn) (evs : list sys_event) : nat :=
  length (filter (λ e, is_call f e = true) evs).

(** [always Q x]: every event that a run of [x] logs satisfies [Q]. *)
Definition always (Q : sys_event → Prop) {A} (x : Sys A) : Prop :=
  ∀ b, Forall Q (fst (x b)).

(** [never p x]: no run of [x] logs an event that [p] picks. *)
Abbreviation never p x := (always (λ e, p e = false) x).

(** [keeps f x]: when [x] returns, the part [f] of the state is as before. *)
Definition keeps {X} (f : board → X) {A} (x : Sys A) : Prop :=
  ∀ b e a b', x b = (e, SRet a b') → f b' = f b.

(** A datagram handed to [sendto]. *)
Definition is_sendto (e : sys_event) : bool :=
  match e with sys_sendto _ _ _ _ => true | _ => false end.

(** [returns P x Q]: from a state in [P], [x] returns, with a value and a
    state in [Q]. *)
Definition returns (P : board → Prop) {A} (x : Sys A) (Q : A → board → Prop) : Prop :=
  ∀ b, P b → ∃ evs a b', x b = (evs, SRet a b') ∧ Q a b'.

(** [preserves P x]: when [x] returns from a state in [P], it returns into
    a state in [P]. *)
Definition preserves (P : board → Prop) {A} (x : Sys A) : Prop :=
  ∀ b e a b', P b → x b = (e, SRet a b') → P b'.

(** A receive the loop asks for: of whole bytes, into one of its arrays,
    and no longer than [limit] bytes. *)
Definition transfer_within (limit : Z) (e : event) : Prop :=
  match e with
  | ev_spi_slave_transmit bits rx =>
      0 <= bits <= limit * 8 ∧ bits mod 8 = 0 ∧ rx ≠ None
  | _ => True
  end.

(** Sample values for the constants: those of the SDK headers, and a
    [credential.h] for a test bench. *)
Definition sample_sdk : sdk :=
  {| ESP_ERR_NVS_NO_FREE_PAGES := 0x110d; ESP_ERR_NVS_NEW_VERSION_FOUND := 0x1110;
     ESP_EVENT_ANY_ID := -1;
     WIFI_EVENT_STA_START := 2; WIFI_EVENT_STA_DISCONNECTED := 5;
     IP_EVENT_STA_GOT_IP := 0;
     NETWORK_PROV_START := 1; NETWORK_PROV_WIFI_CRED_RECV := 2;
     NETWORK_PROV_WIFI_CRED_SUCCESS := 4; NETWORK_PROV_WIFI_CRED_FAIL := 3;
     NETWORK_PROV_END := 8; NETWORK_PROV_SECURITY_2 := 2;
     ESP_MAC_WIFI_STA := 0; WIFI_MODE_STA := 1; WIFI_IF_STA := 0;
     AF_INET := 2; SOCK_DGRAM := 2; IPPROTO_IP := 0;
     GPIO_INTR_DISABLE := 0; GPIO_MODE_OUTPUT := 2;
     SPI2_HOST := 1; SPI_DMA_CH_AUTO := 3;
     sizeof_sta_ssid := 32; sizeof_sta_password := 64 |}.

Definition sample_credential : credential :=
  {| WIFI_SSID := list_byte_of_string "bench";
     WIFI_PASS := list_byte_of_string "correct horse";
     UDP_HOST_IP := list_byte_of_string "192.168.1.20";
     UDP_HOST_PORT := 5000 |}.

(** A station MAC as [esp_read_mac] would give it. *)
Definition sample_mac : list byte := [x24; x0a; xc4; x00; x3f; xb7].

(** A provisioned board with a healthy SDK, about to see the station start
    and then get its address. *)
Definition bench (m : machine) : board :=
  {| bridge := m; s_wifi_event_group := 6; udp_sock := -1;
     udp_dst := {| sin_family := 0; sin_port := 0; sin_addr := 0 |};
     registered := []; sdk_ret := λ _, 0; provisioned := true;
     factory_mac := sample_mac; inet_addr := λ _, 0x1401a8c0;
     posted := [(WIFI_EVENT, 2); (IP_EVENT, 0)] |}.

(** An event handed out by the event loop. *)
Definition is_dispatch (e : sys_event) : bool :=
  match e with sys_dispatch _ _ => true | _ => false end.

(** A board without stored credentials, its handlers registered, on which
    provisioning is about to succeed. *)
Definition bench_unprovisioned : board :=
  {| bridge := demo_exact; s_wifi_event_group := 0; udp_sock := -1;
     udp_dst := {| sin_family := 0; sin_port := 0; sin_addr := 0 |};
     registered := [(WIFI_EVENT, -1, h_wifi_event_handler);
                    (IP_EVENT, 0, h_wifi_event_handler);
                    (NETWORK_PROV_EVENT, -1, h_prov_event_handler)];
     sdk_ret := λ _, 0; provisioned := false;
     factory_mac := sample_mac; inet_addr := λ _, 0x1401a8c0;
     posted := [(NETWORK_PROV_EVENT, 1); (WIFI_EVENT, 5); (IP_EVENT, 0)] |}.

(** The board a run ends on, or [b] itself when it does not return. *)
Definition landed {A} (x : Sys A) (b : board) : board :=
  match snd (x b) with SRet _ b' => b' | SHalt _ => b end.

(** A master that ends the header transaction after 3 bytes, and one that
    sends 2 payload bytes where the header declares 5. *)
Definition demo_short_header : machine :=
  power_on [SpiOk [x01; x02; x03]; SpiOk payload_5] (λ _, 10).
Definition demo_short_payload : machine :=
  power_on [SpiOk hdr_5; SpiOk payload_2] (λ _, 15).
(** The bus of [demo_two] on arrays that hold zeros. *)
Definition demo_clean : machine :=
  {| hdr := replicate 10 x00; payload := replicate 2048 x00;
     out := replicate 2058 x00; t := t_zero; bus := bus demo_two; net := λ _, 0 |}.

(** * Proofs *)

(** ** Arithmetic of the length field *)

Lemma u8_range b : 0 <= u8 b < 256.
Proof.
  unfold u8. pose proof (Byte.to_N_bounded b) as Hb.
  split; [apply N2Z.is_nonneg | lia].
Qed.

Lemma lor_shiftl_8 a b : 0 <= a < 256 → 0 <= b → Z.lor a (Z.shiftl b 8) = a + 256 * b.
Proof.
  intros Ha Hb.
  assert (Hland : Z.land a (Z.shiftl b 8) = 0).
  { apply Z.bits_inj'. intros n Hn. rewrite Z.land_spec, Z.bits_0.
    destruct (Z.ltb_spec n 8) as [Hlt | Hge].
    - rewrite (Z.shiftl_spec_low b 8 n) by lia. apply andb_false_r.
    - assert (Z.testbit a n = false) as ->; [| reflexivity].
      destruct (Z.eq_dec a 0) as [-> | Hnz]; [apply Z.bits_0 |].
      apply Z.bits_above_log2; [lia |].
      assert (Z.log2 a < 8); [| lia].
      apply Z.log2_lt_pow2; lia. }
  rewrite <- Z.lxor_lor by exact Hland.
  rewrite <- Z.add_nocarry_lxor by exact Hland.
  rewrite Z.shiftl_mul_pow2 by lia. lia.
Qed.

Lemma le16_eq lo hi : le16 lo hi = u8 lo + 256 * u8 hi.
Proof.
  pose proof (u8_range lo). pose proof (u8_range hi).
  unfold le16, uint16_t.
  rewrite (Z.mod_small (u8 hi)) by lia.
  rewrite lor_shiftl_8 by lia.
  apply Z.mod_small. lia.
Qed.

Lemma le16_range lo hi : 0 <= le16 lo hi < 65536.
Proof. rewrite le16_eq. pose proof (u8_range lo). pose proof (u8_range hi). lia. Qed.

Lemma clamp_eq x : clamp x = Z.min x PAYLOAD_MAX.
Proof. unfold clamp. destruct (Z.ltb_spec PAYLOAD_MAX x); lia. Qed.

Lemma used_len_range h : 0 <= used_len h <= PAYLOAD_MAX.
Proof.
  unfold used_len, declared_len. rewrite clamp_eq.
  pose proof (le16_range (byte_at (exactly HDR_LEN h) 8) (byte_at (exactly HDR_LEN h) 9)).
  unfold PAYLOAD_MAX. lia.
Qed.

Lemma length_exactly n rx : length (exactly n rx) = Z.to_nat n.
Proof. unfold exactly. rewrite length_app, length_take, length_replicate. lia. Qed.

Lemma exactly_same n rx : Z.of_nat (length rx) = n → exactly n rx = rx.
Proof.
  intros <-. unfold exactly. rewrite Nat2Z.id, Nat.sub_diag, take_ge by lia.
  apply app_nil_r.
Qed.

Lemma exactly_long n rx : 0 <= n <= Z.of_nat (length rx) → exactly n rx = take (Z.to_nat n) rx.
Proof.
  intros Hn. unfold exactly.
  replace (Z.to_nat n - length rx)%nat with 0%nat by lia. apply app_nil_r.
Qed.

Lemma exactly_0 rx : exactly 0 rx = [].
Proof. reflexivity. Qed.

(** ** Running the primitives *)

Lemma bind_run {A B} (x : M A) (f : A → M B) m e a m1 ev r :
  x m = (e, Ret a m1) → f a m1 = (ev, r) → bind x f m = (e ++ ev, r).
Proof. intros Hx Hf. unfold bind. rewrite Hx, Hf. reflexivity. Qed.

Lemma bind_halt {A B} (x : M A) (f : A → M B) m e h :
  x m = (e, Halt h) → bind x f m = (e, Halt h).
Proof. intros Hx. unfold bind. rewrite Hx. reflexivity. Qed.

Ltac run_with tac := eapply bind_run; [ tac | cbv beta ].
Ltac run := run_with ltac:(reflexivity).
Ltac tidy := cbn [load store set_t set_bus set_net hdr payload out t bus net
                  t_length t_trans_len t_tx_buffer t_rx_buffer t_zero].

Lemma write_run o off data m :
  0 <= off → off + Z.of_nat (length data) <= Z.of_nat (length (load o m)) →
  write o off data m =
  ([], Ret tt (store o (take (Z.to_nat off) (load o m) ++ data
                        ++ drop (Z.to_nat off + length data) (load o m)) m)).
Proof.
  intros H0 H1. unfold write, bind, get, modify.
  destruct (Z.leb_spec 0 off); [| lia].
  destruct (Z.leb_spec (off + Z.of_nat (length data)) (Z.of_nat (length (load o m)))); [| lia].
  reflexivity.
Qed.

Lemma memset_run o c m :
  0 <= sizeof o → Z.of_nat (length (load o m)) = sizeof o →
  memset o c (sizeof o) m = ([], Ret tt (store o (replicate (Z.to_nat (sizeof o)) c) m)).
Proof.
  intros H0 Hlen. unfold memset.
  destruct (Z.leb_spec 0 (sizeof o)); [| lia].
  rewrite write_run by (rewrite ?length_replicate; lia).
  rewrite length_replicate, drop_ge by lia.
  change (Z.to_nat 0) with 0%nat. rewrite take_0, app_nil_r. reflexivity.
Qed.

Lemma read_run o n m :
  0 <= n <= Z.of_nat (length (load o m)) →
  read o n m = ([], Ret (take (Z.to_nat n) (load o m)) m).
Proof.
  intros Hn. unfold read, bind, get.
  destruct (Z.leb_spec 0 n); [| lia].
  destruct (Z.leb_spec n (Z.of_nat (length (load o m)))); [| lia].
  reflexivity.
Qed.

Lemma memcpy_run dst off src n m :
  0 <= n <= Z.of_nat (length (load src m)) →
  0 <= off → off + n <= Z.of_nat (length (load dst m)) →
  memcpy dst off src n m =
  ([], Ret tt (store dst (take (Z.to_nat off) (load dst m)
                          ++ take (Z.to_nat n) (load src m)
                          ++ drop (Z.to_nat (off + n)) (load dst m)) m)).
Proof.
  intros Hn Hoff Hdst. unfold memcpy.
  erewrite bind_run; [| apply read_run; lia | apply write_run; rewrite ?length_take; lia].
  rewrite length_take.
  replace (Z.to_nat off + Z.to_nat n `min` length (load src m))%nat
    with (Z.to_nat (off + n)) by lia.
  reflexivity.
Qed.

Lemma index_run o i b m : load o m !! i = Some b → index o i m = ([], Ret b m).
Proof. intros Hb. unfold index, bind, get. rewrite Hb. reflexivity. Qed.

Lemma sendto_run buf len m :
  0 <= len <= Z.of_nat (length (load buf m)) →
  sendto buf len m =
  ([ev_sendto len (take (Z.to_nat len) (load buf m))],
   Ret (net m 0%nat) (set_net (λ i, net m (S i)) m)).
Proof.
  intros Hlen. unfold sendto.
  erewrite bind_run; [| apply read_run; lia | reflexivity]. reflexivity.
Qed.

Lemma transmit_blocked m :
  bus m = [] →
  spi_slave_transmit m =
  ([ev_spi_slave_transmit (t_length (t m)) (t_rx_buffer (t m))], Halt Blocked).
Proof. intros Hb. unfold spi_slave_transmit, bind, get, emit. rewrite Hb. reflexivity. Qed.

Lemma transmit_err m rc rest :
  bus m = SpiErr rc :: rest →
  spi_slave_transmit m =
  ([ev_spi_slave_transmit (t_length (t m)) (t_rx_buffer (t m))],
   Ret (Z.pos rc) (set_bus rest m)).
Proof. intros Hb. unfold spi_slave_transmit, bind, get, emit. rewrite Hb. reflexivity. Qed.

Lemma transmit_ok m o n rx rest :
  bus m = SpiOk rx :: rest →
  t_rx_buffer (t m) = Some o → t_length (t m) = n * 8 →
  0 <= n <= Z.of_nat (length (load o m)) →
  spi_slave_transmit m =
  ([ev_spi_slave_transmit (n * 8) (Some o)],
   Ret ESP_OK
     (set_t {| t_length := n * 8;
               t_trans_len := Z.min (n * 8) (8 * Z.of_nat (length rx));
               t_tx_buffer := t_tx_buffer (t m);
               t_rx_buffer := Some o |}
        (store o (take (Z.to_nat n) rx
                  ++ drop (length (take (Z.to_nat n) rx)) (load o m))
           (set_bus rest m)))).
Proof.
  intros Hb Hrx Hlen Hn.
  assert (Hcap : (n * 8 + 7) / 8 = n) by (symmetry; apply Z.div_unique with (r := 7); lia).
  unfold spi_slave_transmit, bind, get, emit, modify, ret.
  rewrite Hb, Hrx, Hlen, Hcap. cbn [app fst snd].
  assert (Hload : load o (set_bus rest m) = load o m) by (destruct o; reflexivity).
  rewrite Hload.
  destruct (Z.leb_spec n (Z.of_nat (length (load o m)))); [| lia].
  rewrite write_run by (rewrite ?Hload, ?length_take; lia).
  rewrite Hload. reflexivity.
Qed.

Lemma lookup_byte_at (l : list byte) i : (i < length l)%nat → l !! i = Some (byte_at l i).
Proof.
  intros Hi. unfold byte_at.
  destruct (lookup_lt_is_Some_2 l i Hi) as [b ->]. reflexivity.
Qed.

Lemma zeroed_store n k (rx : list byte) :
  k <= n →
  take (Z.to_nat k) rx ++ drop (length (take (Z.to_nat k) rx)) (replicate (Z.to_nat n) x00)
  = exactly k rx ++ replicate (Z.to_nat n - Z.to_nat k) x00.
Proof.
  intros Hk. unfold exactly. rewrite drop_replicate, length_take, <- app_assoc. f_equal.
  rewrite <- replicate_add. f_equal. lia.
Qed.

Lemma check_blocked m :
  bus m = [] →
  ESP_ERROR_CHECK spi_slave_transmit m =
  ([ev_spi_slave_transmit (t_length (t m)) (t_rx_buffer (t m))], Halt Blocked).
Proof. intros Hb. unfold ESP_ERROR_CHECK. apply bind_halt, transmit_blocked, Hb. Qed.

Lemma check_err m rc rest :
  bus m = SpiErr rc :: rest →
  ESP_ERROR_CHECK spi_slave_transmit m =
  ([ev_spi_slave_transmit (t_length (t m)) (t_rx_buffer (t m)); ev_abort],
   Halt (Aborted (Z.pos rc))).
Proof.
  intros Hb. unfold ESP_ERROR_CHECK.
  erewrite bind_run; [| apply (transmit_err _ _ _ Hb) | reflexivity]. reflexivity.
Qed.

Lemma check_ok m o n rx rest :
  bus m = SpiOk rx :: rest →
  t_rx_buffer (t m) = Some o → t_length (t m) = n * 8 →
  0 <= n <= Z.of_nat (length (load o m)) →
  ESP_ERROR_CHECK spi_slave_transmit m =
  ([ev_spi_slave_transmit (n * 8) (Some o)],
   Ret tt
     (set_t {| t_length := n * 8;
               t_trans_len := Z.min (n * 8) (8 * Z.of_nat (length rx));
               t_tx_buffer := t_tx_buffer (t m);
               t_rx_buffer := Some o |}
        (store o (take (Z.to_nat n) rx
                  ++ drop (length (take (Z.to_nat n) rx)) (load o m))
           (set_bus rest m)))).
Proof.
  intros Hb Hrx Hlen Hn. unfold ESP_ERROR_CHECK.
  erewrite bind_run; [| apply (transmit_ok _ _ _ _ _ Hb Hrx Hlen Hn) | reflexivity].
  reflexivity.
Qed.

Lemma header_phase {A} (k : M A) m :
  Z.of_nat (length (hdr m)) = HDR_LEN →
  (set_rdy 1;; modify (set_t t_zero);; memset obj_hdr x00 (sizeof obj_hdr);;
   set_t_length (HDR_LEN * 8);; set_t_rx_buffer obj_hdr;;
   ESP_ERROR_CHECK spi_slave_transmit;; k) m =
  match bus m with
  | [] => (header_events, Halt Blocked)
  | SpiErr rc :: _ => (header_events ++ [ev_abort], Halt (Aborted (Z.pos rc)))
  | SpiOk h :: rest => prepend header_events (k (after_header m h rest))
  end.
Proof.
  intros Hh.
  assert (Hz : Z.of_nat (length (replicate (Z.to_nat HDR_LEN) x00)) = HDR_LEN)
    by (rewrite length_replicate; unfold HDR_LEN; lia).
  destruct (bus m) as [| [h | rc] rest] eqn:Hbus.
  - eassert (bind (set_rdy 1) _ m = _) as ->.
    { run. run. run_with ltac:(apply memset_run; [unfold sizeof, HDR_LEN; lia | exact Hh]).
      run. run. eapply bind_halt. apply check_blocked. exact Hbus. }
    reflexivity.
  - destruct (k (after_header m h rest)) as [ev r] eqn:Hk.
    eassert (bind (set_rdy 1) _ m = _) as ->.
    { run. run. run_with ltac:(apply memset_run; [unfold sizeof, HDR_LEN; lia | exact Hh]).
      run. run.
      run_with ltac:(apply (check_ok _ obj_hdr HDR_LEN h rest); tidy;
                     [exact Hbus | reflexivity | reflexivity | unfold sizeof; lia]).
      tidy. unfold sizeof. rewrite zeroed_store by lia. rewrite Nat.sub_diag, app_nil_r.
      exact Hk. }
    reflexivity.
  - eassert (bind (set_rdy 1) _ m = _) as ->.
    { run. run. run_with ltac:(apply memset_run; [unfold sizeof, HDR_LEN; lia | exact Hh]).
      run. run. eapply bind_halt. apply (check_err _ rc rest). exact Hbus. }
    reflexivity.
Qed.

Lemma payload_phase {A} (k : M A) n m :
  0 <= n <= PAYLOAD_MAX →
  Z.of_nat (length (payload m)) = PAYLOAD_MAX →
  (set_rdy 1;; modify (set_t t_zero);; memset obj_payload x00 (sizeof obj_payload);;
   set_t_length (n * 8);; set_t_rx_buffer obj_payload;;
   ESP_ERROR_CHECK spi_slave_transmit;; k) m =
  match bus m with
  | [] => ([ev_gpio_set_level PIN_RDY 1;
            ev_spi_slave_transmit (n * 8) (Some obj_payload)], Halt Blocked)
  | SpiErr rc :: _ =>
      ([ev_gpio_set_level PIN_RDY 1;
        ev_spi_slave_transmit (n * 8) (Some obj_payload); ev_abort],
       Halt (Aborted (Z.pos rc)))
  | SpiOk p :: rest =>
      prepend [ev_gpio_set_level PIN_RDY 1;
               ev_spi_slave_transmit (n * 8) (Some obj_payload)]
        (k (after_payload m n p rest))
  end.
Proof.
  intros Hn Hp.
  assert (Hz : Z.of_nat (length (replicate (Z.to_nat PAYLOAD_MAX) x00)) = PAYLOAD_MAX)
    by (rewrite length_replicate; unfold PAYLOAD_MAX; lia).
  assert (H0 : 0 <= sizeof obj_payload) by (unfold sizeof, PAYLOAD_MAX; lia).
  destruct (bus m) as [| [p | rc] rest] eqn:Hbus.
  - eassert (bind (set_rdy 1) _ m = _) as ->.
    { run. run. run_with ltac:(apply memset_run; [exact H0 | exact Hp]).
      run. run. eapply bind_halt. apply check_blocked. exact Hbus. }
    reflexivity.
  - destruct (k (after_payload m n p rest)) as [ev r] eqn:Hk.
    eassert (bind (set_rdy 1) _ m = _) as ->.
    { run. run. run_with ltac:(apply memset_run; [exact H0 | exact Hp]).
      run. run.
      run_with ltac:(apply (check_ok _ obj_payload n p rest); tidy;
                     [exact Hbus | reflexivity | reflexivity | unfold sizeof; lia]).
      tidy. unfold sizeof. rewrite zeroed_store by lia.
      exact Hk. }
    reflexivity.
  - eassert (bind (set_rdy 1) _ m = _) as ->.
    { run. run. run_with ltac:(apply memset_run; [exact H0 | exact Hp]).
      run. run. eapply bind_halt. apply (check_err _ rc rest). exact Hbus. }
    reflexivity.
Qed.

Lemma forward_phase n m :
  0 <= n <= PAYLOAD_MAX →
  wf m →
  (memcpy obj_out 0 obj_hdr HDR_LEN;; memcpy obj_out HDR_LEN obj_payload n;;
   sendto obj_out (HDR_LEN + n);; ret tt) m =
  ([ev_sendto (HDR_LEN + n) (hdr m ++ take (Z.to_nat n) (payload m))],
   Ret tt {| hdr := hdr m; payload := payload m;
             out := (hdr m ++ take (Z.to_nat n) (payload m))
                    ++ drop (Z.to_nat (HDR_LEN + n)) (out m);
             t := t m; bus := bus m; net := λ i, net m (S i) |}).
Proof.
  intros Hn Hwf.
  pose proof (Hwf obj_hdr) as Hh. pose proof (Hwf obj_payload) as Hp.
  pose proof (Hwf obj_out) as Ho. cbn [load sizeof] in Hh, Hp, Ho.
  assert (HH : Z.to_nat HDR_LEN = length (hdr m)) by lia.
  assert (Hout : ∀ tl : list byte,
            take (Z.to_nat HDR_LEN) (hdr m ++ tl) = hdr m).
  { intros tl. rewrite HH. apply take_app_length. }
  eassert (bind (memcpy obj_out 0 obj_hdr HDR_LEN) _ m = _) as ->.
  { run_with ltac:(apply memcpy_run; tidy; unfold HDR_LEN, PAYLOAD_MAX in *; lia).
    tidy. change (Z.to_nat 0) with 0%nat. rewrite take_0, app_nil_l.
    rewrite (take_ge (hdr m)) by lia.
    run_with ltac:(apply memcpy_run; tidy;
                   rewrite ?length_app, ?length_drop;
                   unfold HDR_LEN, PAYLOAD_MAX in *; lia).
    tidy. rewrite Hout.
    run_with ltac:(apply sendto_run; tidy;
                   rewrite ?length_app, ?length_drop, ?length_take;
                   unfold HDR_LEN, PAYLOAD_MAX in *; lia).
    tidy. reflexivity. }
  cbn [app].
  assert (Hd : drop (Z.to_nat (HDR_LEN + n)) (hdr m ++ drop (Z.to_nat (0 + HDR_LEN)) (out m))
               = drop (Z.to_nat (HDR_LEN + n)) (out m)).
  { rewrite drop_app, drop_ge by lia. rewrite drop_drop. cbn [app]. f_equal. lia. }
  rewrite Hd.
  assert (Ht : take (Z.to_nat (HDR_LEN + n))
                 (hdr m ++ take (Z.to_nat n) (payload m)
                  ++ drop (Z.to_nat (HDR_LEN + n)) (out m))
               = hdr m ++ take (Z.to_nat n) (payload m)).
  { rewrite app_assoc. apply take_app_length'.
    rewrite length_app, length_take. lia. }
  tidy. rewrite Ht, <- app_assoc. reflexivity.
Qed.

Lemma wf_after_header m h rest : wf m → wf (after_header m h rest).
Proof.
  intros Hwf [| |]; cbn [load after_header hdr payload out];
    [| apply (Hwf obj_payload) | apply (Hwf obj_out)].
  rewrite length_exactly. unfold sizeof, HDR_LEN. lia.
Qed.

Lemma wf_after_payload m n p rest :
  0 <= n <= PAYLOAD_MAX → wf m → wf (after_payload m n p rest).
Proof.
  intros Hn Hwf [| |]; cbn [load after_payload hdr payload out];
    [apply (Hwf obj_hdr) | | apply (Hwf obj_out)].
  rewrite length_app, length_exactly, length_replicate.
  unfold sizeof, PAYLOAD_MAX in *. lia.
Qed.

(** The body of the loop does what [body_summary] says. *)
Lemma loop_body_summary m : wf m → loop_body m = body_summary m.
Proof.
  intros Hwf. unfold loop_body, body_summary.
  rewrite header_phase by apply (Hwf obj_hdr).
  destruct (bus m) as [| [h | rc] rest] eqn:Hbus; [reflexivity | | reflexivity].
  pose proof (used_len_range h) as Hn.
  pose proof (wf_after_header m h rest Hwf) as Hwf1.
  assert (Hpl : ∀ p, take (Z.to_nat (used_len h))
                  (exactly (used_len h) p
                   ++ replicate (Z.to_nat PAYLOAD_MAX - Z.to_nat (used_len h)) x00)
                = exactly (used_len h) p).
  { intros p. apply take_app_length'. rewrite length_exactly. reflexivity. }
  assert (Hix : ∀ i, (i < 10)%nat →
            load obj_hdr (after_header m h rest) !! i
            = Some (byte_at (exactly HDR_LEN h) i)).
  { intros i Hi. apply lookup_byte_at. rewrite length_exactly. unfold HDR_LEN. lia. }
  destruct rest as [| [p | rc] rest].
  all: eassert (bind (index obj_hdr 8) _ (after_header m h _) = _) as ->;
    [ run_with ltac:(apply index_run, Hix; lia);
      run_with ltac:(apply index_run, Hix; lia);
      fold (declared_len (exactly HDR_LEN h)); fold (used_len h);
      rewrite (payload_phase _ (used_len h)) by (exact Hn || apply (Hwf1 obj_payload));
      cbn [after_header bus];
      try (rewrite forward_phase
             by first [exact Hn | apply wf_after_payload; [exact Hn | exact Hwf1]];
           cbn [after_payload after_header hdr payload out t bus net];
           rewrite Hpl);
      reflexivity
    | reflexivity ].
Qed.

(** ** The model runs *)

Example forward_15_bytes :
  fst (loop_body demo_exact) =
  [ev_gpio_set_level 10 1; ev_spi_slave_transmit 80 (Some obj_hdr);
   ev_gpio_set_level 10 1; ev_spi_slave_transmit 40 (Some obj_payload);
   ev_sendto 15 (hdr_5 ++ payload_5)].
Proof. vm_compute. reflexivity. Qed.

Example header_receive_fails :
  spi_udp_forward_loop 3 (power_on [SpiErr 263; SpiOk hdr_5; SpiOk payload_5] (λ _, 0)) =
  ([ev_gpio_set_level 10 1; ev_spi_slave_transmit 80 (Some obj_hdr); ev_abort],
   Halt (Aborted 263)).
Proof. vm_compute. reflexivity. Qed.

(** The bounds checks of the model are live: one byte more than [payload]
    holds is refused. *)
Example write_past_payload_is_refused :
  snd (write obj_payload 0 (replicate 2049 x00) (power_on [] (λ _, 0)))
  = Halt OutOfBounds.
Proof. vm_compute. reflexivity. Qed.

(** ** The loop, pass after pass *)

Lemma wf_after_body m h p rest : wf m → wf (after_body m h p rest).
Proof.
  intros Hwf. pose proof (used_len_range h) as Hn. pose proof (Hwf obj_out) as Ho.
  cbn [load sizeof] in Ho.
  intros [| |]; cbn [load after_body hdr payload out]; unfold datagram;
    rewrite ?length_app, ?length_drop, ?length_exactly, ?length_replicate;
    unfold sizeof, HDR_LEN, PAYLOAD_MAX in *; lia.
Qed.

Lemma wf_set_net f m : wf m → wf (set_net f m).
Proof.
  intros Hwf [| |]; [apply (Hwf obj_hdr) | apply (Hwf obj_payload) | apply (Hwf obj_out)].
Qed.

Lemma loop_step k m :
  wf m →
  spi_udp_forward_loop (S k) m =
  match body_summary m with
  | (e, Ret _ m') => prepend e (spi_udp_forward_loop k m')
  | (e, Halt h) => (e, Halt h)
  end.
Proof.
  intros Hwf. cbn [spi_udp_forward_loop]. unfold bind.
  rewrite (loop_body_summary m Hwf).
  destruct (body_summary m) as [e [a m' | h]]; [| reflexivity].
  unfold prepend. destruct (spi_udp_forward_loop k m'). reflexivity.
Qed.

Lemma used_len_whole h : length h = 10%nat → used_len h = clamp (declared_len h).
Proof.
  intros Hh. unfold used_len. rewrite exactly_same by (unfold HDR_LEN; lia). reflexivity.
Qed.

Lemma used_len_small h :
  length h = 10%nat → declared_len h <= PAYLOAD_MAX → used_len h = declared_len h.
Proof. intros Hh Hd. rewrite (used_len_whole h Hh), clamp_eq. lia. Qed.

Lemma used_len_big h :
  length h = 10%nat → PAYLOAD_MAX < declared_len h → used_len h = PAYLOAD_MAX.
Proof. intros Hh Hd. rewrite (used_len_whole h Hh), clamp_eq. lia. Qed.

Lemma datagram_whole h :
  length h = 10%nat → ∀ p, datagram h p = h ++ exactly (used_len h) p.
Proof.
  intros Hh p. unfold datagram. rewrite (exactly_same HDR_LEN h) by (unfold HDR_LEN; lia).
  reflexivity.
Qed.

Lemma length_datagram h p : Z.of_nat (length (datagram h p)) = HDR_LEN + used_len h.
Proof.
  pose proof (used_len_range h). unfold datagram.
  rewrite length_app, !length_exactly. unfold HDR_LEN. lia.
Qed.

Lemma observe_prepend e run : observe (prepend e run) = prepend e (observe run).
Proof. destruct run as [evs [a m | h]]; reflexivity. Qed.

(** Every send of the loop stays within [out]. *)
Lemma sends_in_bounds fuel m :
  wf m → Forall send_in_bounds (fst (spi_udp_forward_loop fuel m)).
Proof.
  revert m. induction fuel as [| k IH]; intros m Hwf; [constructor |].
  rewrite (loop_step k m Hwf). unfold body_summary.
  destruct (bus m) as [| [h | rc] [| [p | rc'] rest]];
    cbn [prepend fst snd header_events payload_events forward_events app];
    repeat (constructor; [exact I |]); try (constructor; fail).
  constructor.
  - pose proof (used_len_range h). split; [lia | apply length_datagram].
  - apply IH, wf_after_body, Hwf.
Qed.

(** The log of the loop is made of whole passes and at most one cut short. *)
Lemma loop_trace_holds fuel m :
  wf m → loop_trace (fst (spi_udp_forward_loop fuel m)).
Proof.
  revert m. induction fuel as [| k IH]; intros m Hwf; [constructor |].
  rewrite (loop_step k m Hwf). unfold body_summary.
  destruct (bus m) as [| [h | rc] [| [p | rc'] rest]];
    cbn [prepend fst snd header_events payload_events forward_events app];
    try (constructor; fail).
  apply (trace_pass (used_len h)), IH, wf_after_body, Hwf.
Qed.

(** What [sendto] answers changes nothing the loop does. *)
Lemma loop_ignores_net fuel m f g :
  wf m →
  observe (spi_udp_forward_loop fuel (set_net f m))
  = observe (spi_udp_forward_loop fuel (set_net g m)).
Proof.
  revert m f g. induction fuel as [| k IH]; intros m f g Hwf; [reflexivity |].
  rewrite (loop_step k _ (wf_set_net f m Hwf)), (loop_step k _ (wf_set_net g m Hwf)).
  unfold body_summary. cbn [set_net bus].
  destruct (bus m) as [| [h | rc] [| [p | rc'] rest]]; try reflexivity.
  rewrite !observe_prepend. f_equal.
  change (after_body (set_net f m) h p rest)
    with (set_net (λ i, f (S i)) (after_body m h p rest)).
  change (after_body (set_net g m) h p rest)
    with (set_net (λ i, g (S i)) (after_body m h p rest)).
  apply IH, wf_after_body, Hwf.
Qed.

(** No run of the loop leaves an array. *)
Lemma loop_stays_in_bounds fuel m :
  wf m → snd (spi_udp_forward_loop fuel m) ≠ Halt OutOfBounds.
Proof.
  revert m. induction fuel as [| k IH]; intros m Hwf; [discriminate |].
  rewrite (loop_step k m Hwf). unfold body_summary.
  destruct (bus m) as [| [h | rc] [| [p | rc'] rest]]; try discriminate.
  cbn [prepend snd]. apply IH, wf_after_body, Hwf.
Qed.

(** X1: with answers on the bus for [k] whole passes the loop runs them all: the
    model does not get stuck by itself. *)
Lemma loop_runs_while_fed k : ∀ m answers,
  wf m → length answers = (2 * k)%nat →
  Forall (λ r, ∃ rx, r = SpiOk rx) answers → bus m = answers →
  ∃ m', snd (spi_udp_forward_loop k m) = Ret tt m' ∧ bus m' = []
        ∧ length (sent (fst (spi_udp_forward_loop k m))) = k.
Proof.
  induction k as [| k IH]; intros m answers Hwf Hlen Hok Hbus.
  - destruct answers; [| discriminate Hlen]. exists m. repeat split. exact Hbus.
  - destruct answers as [| r1 [| r2 rest]]; try (cbn in Hlen; lia).
    inversion Hok as [| ? ? [h ->] Hok1]; subst.
    inversion Hok1 as [| ? ? [p ->] Hok2]; subst.
    rewrite (loop_step k m Hwf). unfold body_summary. rewrite Hbus.
    destruct (IH (after_body m h p rest) rest) as (m' & Hrun & Hb & Hs);
      [apply wf_after_body, Hwf | cbn in Hlen; lia | exact Hok2 | reflexivity |].
    exists m'. cbn [prepend fst snd]. split; [exact Hrun |]. split; [exact Hb |].
    cbn [header_events payload_events forward_events app sent]. cbn [length].
    rewrite Hs. reflexivity.
Qed.

(** * The claims *)

(** C1: when the 10-byte header declares a length within the maximum and
    that many payload bytes arrive, the pass hands [sendto] a buffer of
    exactly [10 + payload_len] bytes: the header bytes as received, then the
    payload bytes as received, and nothing else. *)
Theorem forwards_header_then_payload m h p rest :
  wf m → bus m = SpiOk h :: SpiOk p :: rest →
  length h = 10%nat → declared_len h <= PAYLOAD_MAX →
  Z.of_nat (length p) = declared_len h →
  loop_body m =
    ([ev_gpio_set_level PIN_RDY 1; ev_spi_slave_transmit 80 (Some obj_hdr);
      ev_gpio_set_level PIN_RDY 1;
      ev_spi_slave_transmit (declared_len h * 8) (Some obj_payload);
      ev_sendto (10 + declared_len h) (h ++ p)],
     Ret tt (after_body m h p rest))
  ∧ Z.of_nat (length (h ++ p)) = 10 + declared_len h
  ∧ take 10 (h ++ p) = h ∧ drop 10 (h ++ p) = p.
Proof.
  intros Hwf Hbus Hh Hd Hp. split; [| split; [| split]].
  - rewrite (loop_body_summary m Hwf). unfold body_summary. rewrite Hbus.
    unfold header_events, payload_events, forward_events.
    rewrite (datagram_whole h Hh), (used_len_small h Hh Hd).
    rewrite (exactly_same _ p Hp). reflexivity.
  - rewrite length_app. lia.
  - apply take_app_length'. lia.
  - apply drop_app_length'. lia.
Qed.

Lemma forwards_header_then_payload_witness :
  wf demo_exact ∧ bus demo_exact = [SpiOk hdr_5; SpiOk payload_5]
  ∧ length hdr_5 = 10%nat ∧ declared_len hdr_5 <= PAYLOAD_MAX
  ∧ Z.of_nat (length payload_5) = declared_len hdr_5
  ∧ loop_body demo_exact =
      ([ev_gpio_set_level PIN_RDY 1; ev_spi_slave_transmit 80 (Some obj_hdr);
        ev_gpio_set_level PIN_RDY 1;
        ev_spi_slave_transmit (declared_len hdr_5 * 8) (Some obj_payload);
        ev_sendto (10 + declared_len hdr_5) (hdr_5 ++ payload_5)],
       Ret tt (after_body demo_exact hdr_5 payload_5 []))
  ∧ Z.of_nat (length (hdr_5 ++ payload_5)) = 10 + declared_len hdr_5
  ∧ take 10 (hdr_5 ++ payload_5) = hdr_5 ∧ drop 10 (hdr_5 ++ payload_5) = payload_5.
Proof.
  split; [intros [| |]; reflexivity |]. split; [reflexivity |].
  split; [reflexivity |]. split; [vm_compute; discriminate |].
  split; [reflexivity |].
  apply (forwards_header_then_payload demo_exact hdr_5 payload_5 []).
  - intros [| |]; reflexivity.
  - reflexivity.
  - reflexivity.
  - vm_compute. discriminate.
  - reflexivity.
Defined.

(** C2: a header that declares more than 2048 payload bytes makes the engine
    ask for exactly 2048 bytes (16384 bits) in the payload phase and keep
    exactly the first 2048 of the bytes the master sends; the datagram is
    2058 bytes long; the pass ends normally, with no abort and no other
    signal. *)
Theorem oversized_length_is_clamped m h p rest :
  wf m → bus m = SpiOk h :: SpiOk p :: rest →
  length h = 10%nat → PAYLOAD_MAX < declared_len h →
  2048 <= Z.of_nat (length p) →
  loop_body m =
    ([ev_gpio_set_level PIN_RDY 1; ev_spi_slave_transmit 80 (Some obj_hdr);
      ev_gpio_set_level PIN_RDY 1;
      ev_spi_slave_transmit (2048 * 8) (Some obj_payload);
      ev_sendto 2058 (h ++ take 2048 p)],
     Ret tt (after_body m h p rest))
  ∧ payload (after_body m h p rest) = take 2048 p
  ∧ Z.of_nat (length (h ++ take 2048 p)) = 2058.
Proof.
  intros Hwf Hbus Hh Hd Hlong.
  pose proof (used_len_big h Hh Hd) as Hn. unfold PAYLOAD_MAX in Hn.
  assert (Hex : exactly 2048 p = take 2048 p) by (apply (exactly_long 2048 p); lia).
  split; [| split].
  - rewrite (loop_body_summary m Hwf). unfold body_summary. rewrite Hbus.
    unfold header_events, payload_events, forward_events.
    rewrite (datagram_whole h Hh), Hn, Hex. reflexivity.
  - cbn [after_body payload]. rewrite Hn, Hex. unfold PAYLOAD_MAX.
    rewrite Nat.sub_diag. apply app_nil_r.
  - rewrite length_app, length_take. lia.
Qed.

Lemma oversized_length_is_clamped_witness :
  wf demo_big ∧ bus demo_big = [SpiOk hdr_big; SpiOk payload_long]
  ∧ length hdr_big = 10%nat ∧ PAYLOAD_MAX < declared_len hdr_big
  ∧ 2048 <= Z.of_nat (length payload_long)
  ∧ loop_body demo_big =
      ([ev_gpio_set_level PIN_RDY 1; ev_spi_slave_transmit 80 (Some obj_hdr);
        ev_gpio_set_level PIN_RDY 1;
        ev_spi_slave_transmit (2048 * 8) (Some obj_payload);
        ev_sendto 2058 (hdr_big ++ take 2048 payload_long)],
       Ret tt (after_body demo_big hdr_big payload_long []))
  ∧ payload (after_body demo_big hdr_big payload_long []) = take 2048 payload_long
  ∧ Z.of_nat (length (hdr_big ++ take 2048 payload_long)) = 2058.
Proof.
  split; [intros [| |]; reflexivity |]. split; [reflexivity |].
  split; [reflexivity |]. split; [vm_compute; reflexivity |].
  split; [vm_compute; discriminate |].
  apply (oversized_length_is_clamped demo_big hdr_big payload_long []).
  - intros [| |]; reflexivity.
  - reflexivity.
  - reflexivity.
  - vm_compute. reflexivity.
  - vm_compute. discriminate.
Defined.

(** C3: the length the engine works with before the clamp is
    [h[8] + 256 * h[9]], the unsigned 16-bit little-endian reading of header
    bytes 8 and 9.  Any other header with the same two bytes decodes to the
    same length, and it is this number, clamped, that the pass asks the
    driver for in its payload phase. *)
Theorem payload_len_is_le16_of_bytes_8_9 m h h' r rest :
  wf m → bus m = SpiOk h :: r :: rest → length h = 10%nat →
  h' !! 8%nat = h !! 8%nat → h' !! 9%nat = h !! 9%nat →
  declared_len h = u8 (byte_at h 8) + 256 * u8 (byte_at h 9)
  ∧ 0 <= declared_len h < 65536
  ∧ declared_len h' = declared_len h
  ∧ take 4 (fst (loop_body m)) =
      [ev_gpio_set_level PIN_RDY 1; ev_spi_slave_transmit 80 (Some obj_hdr);
       ev_gpio_set_level PIN_RDY 1;
       ev_spi_slave_transmit
         (clamp (u8 (byte_at h 8) + 256 * u8 (byte_at h 9)) * 8) (Some obj_payload)].
Proof.
  intros Hwf Hbus Hh H8 H9.
  assert (Hd : declared_len h = u8 (byte_at h 8) + 256 * u8 (byte_at h 9))
    by apply le16_eq.
  split; [exact Hd |]. split; [apply le16_range |]. split.
  - unfold declared_len, byte_at. rewrite H8, H9. reflexivity.
  - rewrite (loop_body_summary m Hwf). unfold body_summary. rewrite Hbus.
    rewrite <- Hd, <- (used_len_whole h Hh).
    destruct r as [p | rc]; reflexivity.
Qed.

Lemma payload_len_is_le16_of_bytes_8_9_witness :
  wf demo_exact ∧ bus demo_exact = [SpiOk hdr_5; SpiOk payload_5]
  ∧ length hdr_5 = 10%nat
  ∧ hdr_5' !! 8%nat = hdr_5 !! 8%nat ∧ hdr_5' !! 9%nat = hdr_5 !! 9%nat
  ∧ declared_len hdr_5 = u8 (byte_at hdr_5 8) + 256 * u8 (byte_at hdr_5 9)
  ∧ 0 <= declared_len hdr_5 < 65536
  ∧ declared_len hdr_5' = declared_len hdr_5
  ∧ take 4 (fst (loop_body demo_exact)) =
      [ev_gpio_set_level PIN_RDY 1; ev_spi_slave_transmit 80 (Some obj_hdr);
       ev_gpio_set_level PIN_RDY 1;
       ev_spi_slave_transmit
         (clamp (u8 (byte_at hdr_5 8) + 256 * u8 (byte_at hdr_5 9)) * 8)
         (Some obj_payload)].
Proof.
  split; [intros [| |]; reflexivity |]. split; [reflexivity |].
  split; [reflexivity |]. split; [reflexivity |]. split; [reflexivity |].
  apply (payload_len_is_le16_of_bytes_8_9 demo_exact hdr_5 hdr_5' (SpiOk payload_5) []).
  - intros [| |]; reflexivity.
  - reflexivity.
  - reflexivity.
  - reflexivity.
  - reflexivity.
Defined.

(** C4, as stated, fails: with a header that declares no payload the pass
    still calls the receive primitive and waits in it; when the master runs
    no further transaction the pass never reaches [sendto]. *)
Lemma zero_length_receive_can_block :
  ¬ (∀ m h rest,
       wf m → bus m = SpiOk h :: rest → length h = 10%nat → declared_len h = 0 →
       ∃ evs m', loop_body m = (evs, Ret tt m') ∧ sent evs = [h]).
Proof.
  intros Hclaim.
  destruct (Hclaim demo_zero_idle hdr_0 []) as (evs & m' & Hrun & _).
  - intros [| |]; reflexivity.
  - reflexivity.
  - reflexivity.
  - reflexivity.
  - vm_compute in Hrun. discriminate Hrun.
Qed.

(** C4, amended: with a header that declares no payload the pass still sets
    ready and issues the payload receive, now for zero bits; once that call
    returns [ESP_OK], nothing of what the master clocked is kept and the
    datagram is the 10 header bytes alone. *)
Theorem zero_length_forwards_header_alone m h p rest :
  wf m → bus m = SpiOk h :: SpiOk p :: rest →
  length h = 10%nat → declared_len h = 0 →
  loop_body m =
    ([ev_gpio_set_level PIN_RDY 1; ev_spi_slave_transmit 80 (Some obj_hdr);
      ev_gpio_set_level PIN_RDY 1; ev_spi_slave_transmit 0 (Some obj_payload);
      ev_sendto 10 h],
     Ret tt (after_body m h p rest))
  ∧ payload (after_body m h p rest) = replicate 2048 x00.
Proof.
  intros Hwf Hbus Hh Hd.
  assert (Hn : used_len h = 0)
    by (rewrite (used_len_small h Hh); unfold PAYLOAD_MAX; lia).
  split.
  - rewrite (loop_body_summary m Hwf). unfold body_summary. rewrite Hbus.
    unfold header_events, payload_events, forward_events.
    rewrite (datagram_whole h Hh), Hn, exactly_0, app_nil_r. reflexivity.
  - cbn [after_body payload]. rewrite Hn, exactly_0. reflexivity.
Qed.

Lemma zero_length_forwards_header_alone_witness :
  wf demo_zero ∧ bus demo_zero = [SpiOk hdr_0; SpiOk payload_5]
  ∧ length hdr_0 = 10%nat ∧ declared_len hdr_0 = 0
  ∧ loop_body demo_zero =
      ([ev_gpio_set_level PIN_RDY 1; ev_spi_slave_transmit 80 (Some obj_hdr);
        ev_gpio_set_level PIN_RDY 1; ev_spi_slave_transmit 0 (Some obj_payload);
        ev_sendto 10 hdr_0],
       Ret tt (after_body demo_zero hdr_0 payload_5 []))
  ∧ payload (after_body demo_zero hdr_0 payload_5 []) = replicate 2048 x00.
Proof.
  split; [intros [| |]; reflexivity |]. split; [reflexivity |].
  split; [reflexivity |]. split; [reflexivity |].
  apply (zero_length_forwards_header_alone demo_zero hdr_0 payload_5 []).
  - intros [| |]; reflexivity.
  - reflexivity.
  - reflexivity.
  - reflexivity.
Defined.

(** C5: whatever header and payload bytes arrive, every length the loop
    passes to [sendto] is at least 10 and at most 2058, and the datagram has
    that length. *)
Theorem send_length_between_10_and_2058 fuel m i len d :
  wf m →
  fst (spi_udp_forward_loop fuel m) !! i = Some (ev_sendto len d) →
  10 <= len <= 2058 ∧ Z.of_nat (length d) = len.
Proof.
  intros Hwf Hi.
  pose proof (sends_in_bounds fuel m Hwf) as Hall.
  apply (proj1 (Forall_lookup _ _) Hall i _ Hi).
Qed.

Lemma send_length_between_10_and_2058_witness :
  wf demo_two'
  ∧ fst (spi_udp_forward_loop 2 demo_two') !! 4%nat
    = Some (ev_sendto 2058 (hdr_big ++ take 2048 payload_long))
  ∧ 10 <= 2058 <= 2058
  ∧ Z.of_nat (length (hdr_big ++ take 2048 payload_long)) = 2058.
Proof.
  split; [intros [| |]; reflexivity |]. split; [vm_compute; reflexivity |].
  apply (send_length_between_10_and_2058 2 demo_two' 4).
  - intros [| |]; reflexivity.
  - vm_compute. reflexivity.
Defined.

(** C6: what iteration N+1 forwards is fixed by the header and payload bytes
    it receives itself.  Two runs that differ in everything before (stale
    array contents, the header and payload of iteration N) but receive the
    same [h] and [p] in iteration N+1 log the same events there.  The
    datagram of iteration N+1 is [datagram h p]: the header bytes, then the
    payload bytes up to the length used, with zero bytes, never bytes of
    iteration N, wherever the master sent fewer than asked. *)
Theorem no_leak_between_iterations m m' hN pN hN' pN' h p rest rest' :
  wf m → wf m' →
  bus m = SpiOk hN :: SpiOk pN :: SpiOk h :: SpiOk p :: rest →
  bus m' = SpiOk hN' :: SpiOk pN' :: SpiOk h :: SpiOk p :: rest' →
  drop 5 (fst (spi_udp_forward_loop 2 m)) = drop 5 (fst (spi_udp_forward_loop 2 m'))
  ∧ sent (fst (spi_udp_forward_loop 2 m)) = [datagram hN pN; datagram h p]
  ∧ sent (fst (spi_udp_forward_loop 2 m')) = [datagram hN' pN'; datagram h p]
  ∧ datagram h p
    = (take 10 h ++ replicate (10 - length h) x00)
      ++ take (Z.to_nat (used_len h)) p
      ++ replicate (Z.to_nat (used_len h) - length p) x00.
Proof.
  intros Hwf Hwf' Hbus Hbus'.
  assert (Hrun : ∀ m0 h0 p0 rest0,
            wf m0 → bus m0 = SpiOk h0 :: SpiOk p0 :: SpiOk h :: SpiOk p :: rest0 →
            fst (spi_udp_forward_loop 2 m0) =
            (header_events ++ payload_events h0 ++ forward_events h0 p0)
            ++ header_events ++ payload_events h ++ forward_events h p).
  { intros m0 h0 p0 rest0 Hwf0 Hbus0.
    rewrite (loop_step 1 m0 Hwf0). unfold body_summary at 1. rewrite Hbus0.
    rewrite (loop_step 0 _ (wf_after_body m0 h0 p0 _ Hwf0)).
    unfold body_summary. cbn [after_body bus prepend fst snd spi_udp_forward_loop ret].
    rewrite app_nil_r. reflexivity. }
  rewrite (Hrun m hN pN rest Hwf Hbus), (Hrun m' hN' pN' rest' Hwf' Hbus').
  repeat split.
Qed.

Lemma no_leak_between_iterations_witness :
  wf demo_two ∧ wf demo_two'
  ∧ bus demo_two = [SpiOk hdr_5; SpiOk payload_5; SpiOk hdr_2; SpiOk payload_2]
  ∧ bus demo_two' = [SpiOk hdr_big; SpiOk payload_long; SpiOk hdr_2; SpiOk payload_2]
  ∧ drop 5 (fst (spi_udp_forward_loop 2 demo_two))
    = drop 5 (fst (spi_udp_forward_loop 2 demo_two'))
  ∧ sent (fst (spi_udp_forward_loop 2 demo_two))
    = [datagram hdr_5 payload_5; datagram hdr_2 payload_2]
  ∧ sent (fst (spi_udp_forward_loop 2 demo_two'))
    = [datagram hdr_big payload_long; datagram hdr_2 payload_2]
  ∧ datagram hdr_2 payload_2
    = (take 10 hdr_2 ++ replicate (10 - length hdr_2) x00)
      ++ take (Z.to_nat (used_len hdr_2)) payload_2
      ++ replicate (Z.to_nat (used_len hdr_2) - length payload_2) x00.
Proof.
  split; [intros [| |]; reflexivity |]. split; [intros [| |]; reflexivity |].
  split; [reflexivity |]. split; [reflexivity |].
  apply (no_leak_between_iterations demo_two demo_two'
           hdr_5 payload_5 hdr_big payload_long hdr_2 payload_2 [] []).
  - intros [| |]; reflexivity.
  - intros [| |]; reflexivity.
  - reflexivity.
  - reflexivity.
Defined.

(** The second datagram of that run, byte for byte: 12 bytes, none of them
    from the five payload bytes of the pass before. *)
Example second_datagram_of_demo_two :
  sent (fst (spi_udp_forward_loop 2 demo_two)) !! 1%nat
  = Some [x02; x00; x00; x00; x00; x00; x01; x00; x02; x00; x11; x22].
Proof. vm_compute. reflexivity. Qed.

(** C7, as stated, fails: not every pass sets ready twice.  A pass whose
    header receive fails sets it once and ends in the abort, and so does, up
    to the abort, a pass whose header receive never returns. *)
Lemma ready_is_set_once_when_the_header_receive_fails :
  ¬ (∀ m, wf m → ready_count (fst (loop_body m)) = 2%nat)
  ∧ loop_body demo_header_fails
    = ([ev_gpio_set_level PIN_RDY 1; ev_spi_slave_transmit 80 (Some obj_hdr); ev_abort],
       Halt (Aborted 263))
  ∧ ready_count (fst (loop_body demo_header_fails)) = 1%nat
  ∧ loop_body demo_idle
    = ([ev_gpio_set_level PIN_RDY 1; ev_spi_slave_transmit 80 (Some obj_hdr)],
       Halt Blocked)
  ∧ ready_count (fst (loop_body demo_idle)) = 1%nat.
Proof.
  split; [| repeat split; vm_compute; reflexivity].
  intros Hclaim.
  assert (Hwf : wf demo_header_fails) by (intros [| |]; reflexivity).
  specialize (Hclaim demo_header_fails Hwf).
  vm_compute in Hclaim. discriminate Hclaim.
Qed.

(** C7, amended: what a pass does is decided by what the driver answers to
    its two receives, and every pass begins with ready followed by the header
    receive.  When both receives return [ESP_OK] the pass sets ready exactly
    twice, each time right before a receive, and logs exactly ready, header
    receive, ready, payload receive, send, in that order; the next pass begins
    only after that send.  When the payload receive fails or never returns,
    ready has been set twice and nothing is sent; when the header receive
    fails or never returns, ready has been set once and there is neither a
    payload receive nor a send; either way the loop ends with that pass.  The
    log of the loop as a whole is a sequence of such passes. *)
Theorem ready_precedes_each_receive fuel m :
  wf m →
  take 2 (fst (loop_body m))
  = [ev_gpio_set_level PIN_RDY 1; ev_spi_slave_transmit 80 (Some obj_hdr)]
  ∧ loop_trace (fst (spi_udp_forward_loop (S fuel) m))
  ∧ match bus m with
    | SpiOk h :: SpiOk p :: rest =>
        loop_body m
        = ([ev_gpio_set_level PIN_RDY 1; ev_spi_slave_transmit 80 (Some obj_hdr);
            ev_gpio_set_level PIN_RDY 1;
            ev_spi_slave_transmit (used_len h * 8) (Some obj_payload);
            ev_sendto (10 + used_len h) (datagram h p)],
           Ret tt (after_body m h p rest))
        ∧ ready_count (fst (loop_body m)) = 2%nat
        ∧ fst (spi_udp_forward_loop (S fuel) m)
          = fst (loop_body m) ++ fst (spi_udp_forward_loop fuel (after_body m h p rest))
    | SpiOk h :: cut =>
        fst (loop_body m)
        = [ev_gpio_set_level PIN_RDY 1; ev_spi_slave_transmit 80 (Some obj_hdr);
           ev_gpio_set_level PIN_RDY 1;
           ev_spi_slave_transmit (used_len h * 8) (Some obj_payload)]
          ++ match cut with [] => [] | _ => [ev_abort] end
        ∧ ready_count (fst (loop_body m)) = 2%nat
        ∧ sent (fst (loop_body m)) = []
        ∧ (∃ why, snd (loop_body m) = Halt why)
        ∧ spi_udp_forward_loop (S fuel) m = loop_body m
    | cut =>
        fst (loop_body m)
        = [ev_gpio_set_level PIN_RDY 1; ev_spi_slave_transmit 80 (Some obj_hdr)]
          ++ match cut with [] => [] | _ => [ev_abort] end
        ∧ ready_count (fst (loop_body m)) = 1%nat
        ∧ sent (fst (loop_body m)) = []
        ∧ (∃ why, snd (loop_body m) = Halt why)
        ∧ spi_udp_forward_loop (S fuel) m = loop_body m
    end.
Proof.
  intros Hwf.
  pose proof (loop_trace_holds (S fuel) m Hwf) as Htrace.
  rewrite (loop_step fuel m Hwf) in Htrace |- *.
  rewrite (loop_body_summary m Hwf). revert Htrace. unfold body_summary.
  destruct (bus m) as [| [h | rc] [| [p | rc'] rest]]; intros Htrace;
    (split; [reflexivity |]); (split; [exact Htrace |]);
    repeat split; eexists; reflexivity.
Qed.

Lemma ready_precedes_each_receive_witness :
  wf demo_two
  ∧ take 2 (fst (loop_body demo_two))
    = [ev_gpio_set_level PIN_RDY 1; ev_spi_slave_transmit 80 (Some obj_hdr)]
  ∧ loop_trace (fst (spi_udp_forward_loop 3 demo_two))
  ∧ loop_body demo_two
    = ([ev_gpio_set_level PIN_RDY 1; ev_spi_slave_transmit 80 (Some obj_hdr);
        ev_gpio_set_level PIN_RDY 1;
        ev_spi_slave_transmit (used_len hdr_5 * 8) (Some obj_payload);
        ev_sendto (10 + used_len hdr_5) (datagram hdr_5 payload_5)],
       Ret tt (after_body demo_two hdr_5 payload_5 [SpiOk hdr_2; SpiOk payload_2]))
  ∧ ready_count (fst (loop_body demo_two)) = 2%nat
  ∧ fst (spi_udp_forward_loop 3 demo_two)
    = fst (loop_body demo_two)
      ++ fst (spi_udp_forward_loop 2
                (after_body demo_two hdr_5 payload_5 [SpiOk hdr_2; SpiOk payload_2])).
Proof.
  split; [intros [| |]; reflexivity |].
  apply (ready_precedes_each_receive 2 demo_two).
  intros [| |]; reflexivity.
Defined.

(** C8: a receive that fails, for the header ([before = []]) or for the
    payload ([before] is the header answer), ends the process on the spot:
    the pass stops with the abort, it has called no [sendto], and the loop
    does nothing after it however long it is observed. *)
Theorem failed_receive_aborts_before_send fuel m before rc rest :
  wf m →
  before = [] ∨ (∃ h, before = [SpiOk h]) →
  bus m = before ++ SpiErr rc :: rest →
  snd (loop_body m) = Halt (Aborted (Z.pos rc))
  ∧ sent (fst (loop_body m)) = []
  ∧ last (fst (loop_body m)) = Some ev_abort
  ∧ spi_udp_forward_loop (S fuel) m = loop_body m.
Proof.
  intros Hwf Hbefore Hbus.
  rewrite (loop_step fuel m Hwf), (loop_body_summary m Hwf). unfold body_summary.
  destruct Hbefore as [-> | [h ->]]; cbn [app] in Hbus; rewrite Hbus; repeat split.
Qed.

Lemma failed_receive_aborts_before_send_witness :
  wf demo_failing
  ∧ ([SpiOk hdr_5] = [] ∨ (∃ h, [SpiOk hdr_5] = [SpiOk h]))
  ∧ bus demo_failing = [SpiOk hdr_5] ++ SpiErr 258 :: [SpiOk hdr_2]
  ∧ snd (loop_body demo_failing) = Halt (Aborted 258)
  ∧ sent (fst (loop_body demo_failing)) = []
  ∧ last (fst (loop_body demo_failing)) = Some ev_abort
  ∧ spi_udp_forward_loop 4 demo_failing = loop_body demo_failing.
Proof.
  split; [intros [| |]; reflexivity |].
  split; [right; exists hdr_5; reflexivity |]. split; [reflexivity |].
  apply (failed_receive_aborts_before_send 3 demo_failing [SpiOk hdr_5] 258 [SpiOk hdr_2]).
  - intros [| |]; reflexivity.
  - right. exists hdr_5. reflexivity.
  - reflexivity.
Defined.

(** C9: the value [sendto] returns is dropped.  Two runs that differ only in
    what the [sendto] calls return, success or failure, log the same calls
    and end in the same place: there is no second send and no abort, and
    right after the send of a pass comes the header phase of the next. *)
Theorem send_result_never_inspected fuel m f g h p rest :
  wf m → bus m = SpiOk h :: SpiOk p :: rest →
  observe (spi_udp_forward_loop (S fuel) (set_net f m))
  = observe (spi_udp_forward_loop (S fuel) (set_net g m))
  ∧ fst (spi_udp_forward_loop (S fuel) (set_net f m))
    = [ev_gpio_set_level PIN_RDY 1; ev_spi_slave_transmit 80 (Some obj_hdr);
       ev_gpio_set_level PIN_RDY 1;
       ev_spi_slave_transmit (used_len h * 8) (Some obj_payload);
       ev_sendto (10 + used_len h) (datagram h p)]
      ++ fst (spi_udp_forward_loop fuel (after_body (set_net f m) h p rest))
  ∧ take 2 (fst (spi_udp_forward_loop (S fuel) (after_body (set_net f m) h p rest)))
    = [ev_gpio_set_level PIN_RDY 1; ev_spi_slave_transmit 80 (Some obj_hdr)].
Proof.
  intros Hwf Hbus. split; [apply loop_ignores_net, Hwf |]. split.
  - rewrite (loop_step fuel _ (wf_set_net f m Hwf)). unfold body_summary.
    cbn [set_net bus]. rewrite Hbus. reflexivity.
  - rewrite (loop_step fuel _ (wf_after_body _ h p rest (wf_set_net f m Hwf))).
    unfold body_summary. cbn [after_body bus].
    destruct rest as [| [h1 | rc] [| [p1 | rc'] rest]]; reflexivity.
Qed.

Lemma send_result_never_inspected_witness :
  wf demo_two
  ∧ bus demo_two = [SpiOk hdr_5; SpiOk payload_5; SpiOk hdr_2; SpiOk payload_2]
  ∧ observe (spi_udp_forward_loop 3 (set_net (λ _, 15) demo_two))
    = observe (spi_udp_forward_loop 3 (set_net (λ _, -1) demo_two))
  ∧ fst (spi_udp_forward_loop 3 (set_net (λ _, 15) demo_two))
    = [ev_gpio_set_level PIN_RDY 1; ev_spi_slave_transmit 80 (Some obj_hdr);
       ev_gpio_set_level PIN_RDY 1;
       ev_spi_slave_transmit (used_len hdr_5 * 8) (Some obj_payload);
       ev_sendto (10 + used_len hdr_5) (datagram hdr_5 payload_5)]
      ++ fst (spi_udp_forward_loop 2
                (after_body (set_net (λ _, 15) demo_two) hdr_5 payload_5
                   [SpiOk hdr_2; SpiOk payload_2]))
  ∧ take 2 (fst (spi_udp_forward_loop 3
                   (after_body (set_net (λ _, 15) demo_two) hdr_5 payload_5
                      [SpiOk hdr_2; SpiOk payload_2])))
    = [ev_gpio_set_level PIN_RDY 1; ev_spi_slave_transmit 80 (Some obj_hdr)].
Proof.
  split; [intros [| |]; reflexivity |]. split; [reflexivity |].
  apply (send_result_never_inspected 2 demo_two (λ _, 15) (λ _, -1)
           hdr_5 payload_5 [SpiOk hdr_2; SpiOk payload_2]).
  - intros [| |]; reflexivity.
  - reflexivity.
Defined.

(** C10: for each of the 65536 values a header can declare, the byte count
    after the clamp is at most 2048, so it fits [payload] and, with the 10
    header bytes, [out]; and no pass of the loop reads or writes outside
    [hdr], [payload] or [out]: a run never stops with [OutOfBounds]. *)
Theorem no_access_out_of_bounds fuel m :
  wf m →
  (∀ lo hi : byte, 0 <= clamp (le16 lo hi) <= PAYLOAD_MAX)
  ∧ (∀ lo hi : byte,
       clamp (le16 lo hi) <= sizeof obj_payload
       ∧ HDR_LEN + clamp (le16 lo hi) <= sizeof obj_out)
  ∧ snd (spi_udp_forward_loop fuel m) ≠ Halt OutOfBounds.
Proof.
  intros Hwf.
  assert (Hc : ∀ lo hi : byte, 0 <= clamp (le16 lo hi) <= PAYLOAD_MAX).
  { intros lo hi. rewrite clamp_eq. pose proof (le16_range lo hi).
    unfold PAYLOAD_MAX. lia. }
  split; [exact Hc |]. split.
  - intros lo hi. specialize (Hc lo hi). unfold sizeof. lia.
  - apply loop_stays_in_bounds, Hwf.
Qed.

Lemma no_access_out_of_bounds_witness :
  wf demo_two'
  ∧ (∀ lo hi : byte, 0 <= clamp (le16 lo hi) <= PAYLOAD_MAX)
  ∧ (∀ lo hi : byte,
       clamp (le16 lo hi) <= sizeof obj_payload
       ∧ HDR_LEN + clamp (le16 lo hi) <= sizeof obj_out)
  ∧ snd (spi_udp_forward_loop 2 demo_two') ≠ Halt OutOfBounds.
Proof.
  split; [intros [| |]; reflexivity |].
  apply (no_access_out_of_bounds 2 demo_two').
  intros [| |]; reflexivity.
Defined.

(** * The bring-up code and more about the loop: proofs *)

(** ** Text and byte order *)

Lemma unhex_hex_digit n : (n < 16)%N → unhex (hex_digit n) = n.
Proof.
  intros Hn.
  assert (Hcases : ∀ k : nat, (k < 16)%nat → unhex (hex_digit (N.of_nat k)) = N.of_nat k).
  { intros k Hk. do 16 (destruct k as [| k]; [reflexivity |]). lia. }
  rewrite <- (N2Nat.id n). apply Hcases. lia.
Qed.

Lemma fmt_02X_inj b b' : fmt_02X b = fmt_02X b' → b = b'.
Proof.
  unfold fmt_02X. intros Heq. injection Heq as Hhi Hlo.
  pose proof (Byte.to_N_bounded b) as Hb. pose proof (Byte.to_N_bounded b') as Hb'.
  apply (f_equal unhex) in Hhi, Hlo.
  rewrite !unhex_hex_digit in Hhi, Hlo
    by (try apply N.mod_lt; try (apply N.Div0.div_lt_upper_bound); lia).
  assert (Hn : Byte.to_N b = Byte.to_N b').
  { rewrite (N.div_mod (Byte.to_N b) 16), (N.div_mod (Byte.to_N b') 16) by lia.
    rewrite Hhi, Hlo. reflexivity. }
  assert (Hsome : Some b = Some b')
    by (rewrite <- (Byte.of_to_N b), <- (Byte.of_to_N b'), Hn; reflexivity).
  injection Hsome as ->. reflexivity.
Qed.

Lemma htons_eq x : htons x = x mod 65536 mod 256 * 256 + x mod 65536 / 256.
Proof. reflexivity. Qed.

Lemma htons_range x : 0 <= htons x < 65536.
Proof.
  rewrite htons_eq.
  pose proof (Z.mod_pos_bound x 65536 ltac:(lia)) as Hx.
  pose proof (Z.mod_pos_bound (x mod 65536) 256 ltac:(lia)).
  assert (0 <= x mod 65536 / 256 < 256)
    by (split; [apply Z.div_pos; lia | apply Z.div_lt_upper_bound; lia]).
  lia.
Qed.

Lemma htons_htons x : htons (htons x) = uint16_t x.
Proof.
  pose proof (htons_range x) as Hr.
  rewrite (htons_eq (htons x)), (Z.mod_small (htons x)) by lia.
  rewrite htons_eq. unfold uint16_t.
  pose proof (Z.mod_pos_bound x 65536 ltac:(lia)) as Hx.
  set (y := x mod 65536) in *.
  pose proof (Z.mod_pos_bound y 256 ltac:(lia)).
  assert (0 <= y / 256 < 256)
    by (split; [apply Z.div_pos; lia | apply Z.div_lt_upper_bound; lia]).
  assert (H1 : (y mod 256 * 256 + y / 256) mod 256 = y / 256).
  { rewrite Z.add_comm, Z.mod_add by lia. apply Z.mod_small. lia. }
  assert (H2 : (y mod 256 * 256 + y / 256) / 256 = y mod 256).
  { rewrite Z.add_comm, Z.div_add by lia. rewrite (Z.div_small (y / 256)) by lia. lia. }
  rewrite H1, H2. pose proof (Z.div_mod y 256 ltac:(lia)). lia.
Qed.

(** spec-side definitions (to be placed with the definitions) *)

(** ** Runs of [sbind] *)

Lemma sbind_ret {A B} (x : Sys A) (f : A → Sys B) b e a b1 :
  x b = (e, SRet a b1) → sbind x f b = (e ++ (f a b1).1, (f a b1).2).
Proof. intros Hx. unfold sbind. rewrite Hx. destruct (f a b1). reflexivity. Qed.

Lemma regroup {A B D} (x : Sys A) (f : A → Sys B) (g : B → Sys D) b :
  sbind x (λ a, sbind (f a) g) b = sbind (sbind x f) g b.
Proof.
  unfold sbind. destruct (x b) as [e1 [a b1 | h]]; [| reflexivity].
  destruct (f a b1) as [e2 [c b2 | h]]; [| reflexivity].
  destruct (g c b2) as [e3 r]. rewrite app_assoc. reflexivity.
Qed.

(** ** Rules for [always] and [keeps] *)

Section Rules.
Context (Q : sys_event → Prop) {X : Type} (f : board → X).

Lemma always_sret {A} (a : A) : always Q (sret a).
Proof. intros b. constructor. Qed.

Lemma always_sstop {A} h : always Q (@sstop A h).
Proof. intros b. constructor. Qed.

Lemma always_sget {A} (g : board → A) : always Q (sget g).
Proof. intros b. constructor. Qed.

Lemma always_smodify g : always Q (smodify g).
Proof. intros b. constructor. Qed.

Lemma always_semit e : Q e → always Q (semit e).
Proof. intros He b. repeat constructor. exact He. Qed.

Lemma always_sbind {A B} (x : Sys A) (k : A → Sys B) :
  always Q x → (∀ a, always Q (k a)) → always Q (sbind x k).
Proof.
  intros Hx Hk b. specialize (Hx b). unfold sbind.
  destruct (x b) as [e1 [a b1 | h]]; [| exact Hx].
  specialize (Hk a b1). destruct (k a b1) as [e2 r].
  apply Forall_app. split; assumption.
Qed.

Lemma always_if {A} (c : bool) (x y : Sys A) :
  always Q x → always Q y → always Q (if c then x else y).
Proof. destruct c; auto. Qed.

Lemma keeps_sret {A} (a : A) : keeps f (sret a).
Proof. intros b e a' b' Heq. inversion Heq. reflexivity. Qed.

Lemma keeps_sstop {A} h : keeps f (@sstop A h).
Proof. intros b e a b' Heq. inversion Heq. Qed.

Lemma keeps_sget {A} (g : board → A) : keeps f (sget g).
Proof. intros b e a' b' Heq. inversion Heq. reflexivity. Qed.

Lemma keeps_semit e : keeps f (semit e).
Proof. intros b e' a' b' Heq. inversion Heq. reflexivity. Qed.

Lemma keeps_smodify g : (∀ b, f (g b) = f b) → keeps f (smodify g).
Proof. intros Hg b e' a' b' Heq. inversion Heq. apply Hg. Qed.

Lemma keeps_sbind {A B} (x : Sys A) (k : A → Sys B) :
  keeps f x → (∀ a, keeps f (k a)) → keeps f (sbind x k).
Proof.
  intros Hx Hk b e c b'. unfold sbind.
  destruct (x b) as [e1 [a b1 | h]] eqn:Ex; [| discriminate].
  destruct (k a b1) as [e2 r] eqn:Ek. intros Heq. inversion Heq; subst.
  rewrite (Hk a b1 _ _ _ Ek). apply (Hx b _ _ _ Ex).
Qed.

Lemma keeps_if {A} (c : bool) (x y : Sys A) :
  keeps f x → keeps f y → keeps f (if c then x else y).
Proof. destruct c; auto. Qed.

Lemma keeps_run_bridge {A} (x : M A) :
  (∀ m b, f (set_bridge m b) = f b) → keeps f (run_bridge x).
Proof.
  intros Hf b e a b'. unfold run_bridge.
  destruct (x (bridge b)) as [evs [a' m | h]]; intros Heq; inversion Heq. apply Hf.
Qed.

Lemma always_run_bridge {A} (x : M A) :
  (∀ b e, Q (on_board b e)) → always Q (run_bridge x).
Proof.
  intros HQ b. unfold run_bridge.
  destruct (x (bridge b)) as [evs [a' m | h]]; cbn [fst];
    apply Forall_fmap, Forall_forall; intros e _; apply HQ.
Qed.

End Rules.

Lemma sbind_inv {A B} (x : Sys A) (k : A → Sys B) b evs c b' :
  sbind x k b = (evs, SRet c b') →
  ∃ e1 a b1 e2, x b = (e1, SRet a b1) ∧ k a b1 = (e2, SRet c b') ∧ evs = e1 ++ e2.
Proof.
  unfold sbind. destruct (x b) as [e1 [a b1 | h]]; [| discriminate].
  destruct (k a b1) as [e2 r] eqn:Ek. intros Heq. inversion Heq; subst.
  exists e1, a, b1, e2. auto.
Qed.

Lemma sbind_log {A B} (x : Sys A) (k : A → Sys B) b :
  match x b with
  | (e1, SRet a b1) => sbind x k b = (e1 ++ fst (k a b1), snd (k a b1))
  | (e1, SHalt h) => sbind x k b = (e1, SHalt h)
  end.
Proof.
  unfold sbind. destruct (x b) as [e1 [a b1 | h]]; [| reflexivity].
  destruct (k a b1). reflexivity.
Qed.

Ltac sys_unfold :=
  unfold sdk_call, sdk_do, ESP_LOG, ESP_ERROR_CHECK_sys, event_handler_register;
  cbv zeta.

(** ** One call of a handler *)

Section Handlers.
Context {K : sdk} {C : credential}.

Lemma base_eqb_eq a b : base_eqb a b = true ↔ a = b.
Proof.
  destruct a, b; cbn; try (split; [discriminate | intros [=]]); try tauto.
  rewrite Nat.eqb_eq. split; [intros -> | intros [= ->]]; reflexivity.
Qed.

Lemma is_got_ip_eq e id :
  is_got_ip e id = true ↔ e = IP_EVENT ∧ id = IP_EVENT_STA_GOT_IP.
Proof. unfold is_got_ip. rewrite andb_true_iff, base_eqb_eq, Z.eqb_eq. tauto. Qed.

(** One call of [wifi_event_handler], whatever the event. *)
Lemma wifi_event_handler_run e id b :
  ∃ evs b',
    wifi_event_handler e id b = (evs, SRet tt b')
    ∧ s_wifi_event_group b'
      = (if is_got_ip e id then Z.lor (s_wifi_event_group b) WIFI_CONNECTED_BIT
         else s_wifi_event_group b)
    ∧ count_calls esp_wifi_connect evs = (if asks_connect e id then 1 else 0)%nat
    ∧ registered b' = registered b ∧ posted b' = posted b.
Proof.
  unfold wifi_event_handler, is_got_ip, asks_connect.
  destruct (base_eqb e WIFI_EVENT) eqn:Hw.
  - apply base_eqb_eq in Hw. subst e. cbn [base_eqb andb].
    destruct (id =? WIFI_EVENT_STA_START);
      [| destruct (id =? WIFI_EVENT_STA_DISCONNECTED)];
      eexists _, _; (split; [reflexivity |]); repeat split.
  - cbn [andb]. destruct (base_eqb e IP_EVENT && (id =? IP_EVENT_STA_GOT_IP));
      eexists _, _; (split; [reflexivity |]); repeat split.
Qed.

Lemma prov_event_handler_run e id b :
  ∃ evs,
    prov_event_handler e id b = (evs, SRet tt b)
    ∧ length evs = (if base_eqb e NETWORK_PROV_EVENT then 1 else 0)%nat
    ∧ Forall (λ ev, ∃ lvl fmt args, ev = sys_log lvl fmt args) evs.
Proof.
  unfold prov_event_handler.
  destruct (base_eqb e NETWORK_PROV_EVENT); cbn [negb].
  - repeat match goal with
           | |- context [if ?c then _ else _] => destruct c
           end;
      eexists; (split; [reflexivity |]); (split; [reflexivity |]);
      repeat constructor; eexists _, _, _; reflexivity.
  - eexists. split; [reflexivity |]. split; [reflexivity | constructor].
Qed.

End Handlers.

Lemma lor_bit_idem g : Z.lor (Z.lor g WIFI_CONNECTED_BIT) WIFI_CONNECTED_BIT
                       = Z.lor g WIFI_CONNECTED_BIT.
Proof. rewrite <- Z.lor_assoc, Z.lor_diag. reflexivity. Qed.

Lemma land_lor_bit g :
  Z.land (Z.lor g WIFI_CONNECTED_BIT) WIFI_CONNECTED_BIT = WIFI_CONNECTED_BIT.
Proof.
  rewrite Z.land_lor_distr_l, Z.land_diag.
  apply Z.bits_inj'. intros n Hn.
  rewrite Z.lor_spec, Z.land_spec.
  destruct (Z.testbit WIFI_CONNECTED_BIT n); [apply orb_true_r |].
  rewrite andb_false_r. reflexivity.
Qed.

Lemma land_keeps_lor g : Z.land g (Z.lor g WIFI_CONNECTED_BIT) = g.
Proof.
  apply Z.bits_inj'. intros n Hn. rewrite Z.land_spec, Z.lor_spec.
  destruct (Z.testbit g n); reflexivity.
Qed.

(** ** The event loop and the wait *)

Section Loop.
Context {K : sdk} {C : credential}.

Lemma call_handler_run h e id b :
  ∃ evs b',
    call_handler h e id b = (evs, SRet tt b')
    ∧ registered b' = registered b ∧ posted b' = posted b
    ∧ (s_wifi_event_group b' = s_wifi_event_group b
       ∨ is_got_ip e id = true
         ∧ s_wifi_event_group b' = Z.lor (s_wifi_event_group b) WIFI_CONNECTED_BIT)
    ∧ (h = h_wifi_event_handler → is_got_ip e id = true →
       s_wifi_event_group b' = Z.lor (s_wifi_event_group b) WIFI_CONNECTED_BIT).
Proof.
  destruct h; cbn [call_handler].
  - destruct (wifi_event_handler_run e id b) as (evs & b' & Hrun & Hg & _ & Hr & Hp).
    exists evs, b'. split; [exact Hrun |]. split; [exact Hr |]. split; [exact Hp |].
    rewrite Hg. destruct (is_got_ip e id); split; auto; discriminate.
  - destruct (prov_event_handler_run e id b) as (evs & Hrun & _).
    exists evs, b. repeat split; auto. discriminate.
Qed.

Lemma deliver_run regs e id : ∀ b,
  ∃ evs b',
    deliver regs e id b = (evs, SRet tt b')
    ∧ registered b' = registered b ∧ posted b' = posted b
    ∧ (s_wifi_event_group b' = s_wifi_event_group b
       ∨ is_got_ip e id = true
         ∧ s_wifi_event_group b' = Z.lor (s_wifi_event_group b) WIFI_CONNECTED_BIT)
    ∧ (hears_got_ip regs = true → is_got_ip e id = true →
       s_wifi_event_group b' = Z.lor (s_wifi_event_group b) WIFI_CONNECTED_BIT).
Proof.
  induction regs as [| [[rb rid] h] tl IH]; intros b.
  - exists [], b. repeat split; auto. discriminate.
  - cbn [deliver].
    set (hit := base_eqb rb e && ((rid =? ESP_EVENT_ANY_ID) || (rid =? id))).
    assert (Hfirst : ∃ evs1 b1,
              (if hit then call_handler h e id else sret tt) b = (evs1, SRet tt b1)
              ∧ registered b1 = registered b ∧ posted b1 = posted b
              ∧ (s_wifi_event_group b1 = s_wifi_event_group b
                 ∨ is_got_ip e id = true
                   ∧ s_wifi_event_group b1
                     = Z.lor (s_wifi_event_group b) WIFI_CONNECTED_BIT)
              ∧ (hit = true → h = h_wifi_event_handler → is_got_ip e id = true →
                 s_wifi_event_group b1
                 = Z.lor (s_wifi_event_group b) WIFI_CONNECTED_BIT)).
    { destruct hit.
      - destruct (call_handler_run h e id b) as (evs1 & b1 & H1 & H2 & H3 & H4 & H5).
        exists evs1, b1. repeat split; auto.
      - exists [], b. repeat split; auto. discriminate. }
    destruct Hfirst as (evs1 & b1 & Hrun1 & Hr1 & Hp1 & Hg1 & Hhit).
    destruct (IH b1) as (evs2 & b2 & Hrun2 & Hr2 & Hp2 & Hg2 & Hhear).
    exists (evs1 ++ evs2), b2.
    split; [rewrite (sbind_ret _ _ _ _ _ _ Hrun1), Hrun2; reflexivity |].
    split; [congruence |]. split; [congruence |]. split.
    + destruct Hg1 as [Hg1 | [Hip Hg1]], Hg2 as [Hg2 | [Hip' Hg2]];
        rewrite Hg2, Hg1, ?lor_bit_idem; auto.
    + intros Hhears Hip. cbn [hears_got_ip existsb] in Hhears.
      apply orb_true_iff in Hhears.
      assert (Hb1 : s_wifi_event_group b1
                    = Z.lor (s_wifi_event_group b) WIFI_CONNECTED_BIT
                    ∨ hears_got_ip tl = true).
      { destruct Hhears as [Hhead | Htl]; [left | right; exact Htl].
        destruct h; [| discriminate Hhead].
        apply Hhit; [| reflexivity | exact Hip].
        apply is_got_ip_eq in Hip as [-> ->]. exact Hhead. }
      destruct Hb1 as [Hb1 | Htl].
      * destruct Hg2 as [Hg2 | [_ Hg2]]; rewrite Hg2, Hb1, ?lor_bit_idem; reflexivity.
      * rewrite (Hhear Htl Hip).
        destruct Hg1 as [Hg1 | [_ Hg1]]; rewrite Hg1, ?lor_bit_idem; reflexivity.
Qed.

Lemma dispatch_run e id b :
  ∃ evs b',
    dispatch e id b = (sys_dispatch e id :: evs, SRet tt b')
    ∧ registered b' = registered b ∧ posted b' = posted b
    ∧ (s_wifi_event_group b' = s_wifi_event_group b
       ∨ is_got_ip e id = true
         ∧ s_wifi_event_group b' = Z.lor (s_wifi_event_group b) WIFI_CONNECTED_BIT)
    ∧ (hears_got_ip (registered b) = true → is_got_ip e id = true →
       s_wifi_event_group b' = Z.lor (s_wifi_event_group b) WIFI_CONNECTED_BIT).
Proof.
  destruct (deliver_run (registered b) e id b) as (evs & b' & Hrun & H).
  exists evs, b'. split; [| exact H].
  unfold dispatch, sbind, semit, sget. rewrite Hrun. reflexivity.
Qed.

(** When the wait returns, the bit is set; if it was not set before, the
    event loop has handed out an [IP_EVENT_STA_GOT_IP] meanwhile. *)
Lemma wait_for_returns queue : ∀ b evs b',
  wait_for WIFI_CONNECTED_BIT queue b = (evs, SRet tt b') →
  Z.land (s_wifi_event_group b') WIFI_CONNECTED_BIT = WIFI_CONNECTED_BIT
  ∧ registered b' = registered b
  ∧ (Z.land (s_wifi_event_group b) WIFI_CONNECTED_BIT = WIFI_CONNECTED_BIT
     ∨ sys_dispatch IP_EVENT IP_EVENT_STA_GOT_IP ∈ evs).
Proof.
  induction queue as [| [e id] tl IH]; intros b evs b'; cbn [wait_for];
    destruct (Z.eqb_spec (Z.land (s_wifi_event_group b) WIFI_CONNECTED_BIT)
                WIFI_CONNECTED_BIT) as [Hset | Hclear];
    intros Hrun; try (inversion Hrun; subst; auto; fail).
  unfold sbind at 1 in Hrun. cbn [smodify app] in Hrun.
  destruct (dispatch_run e id (set_posted tl b)) as (evs1 & b1 & Hd & Hr1 & _ & Hg1 & _).
  rewrite (sbind_ret _ _ _ _ _ _ Hd) in Hrun.
  destruct (wait_for WIFI_CONNECTED_BIT tl b1) as [evs2 r2] eqn:Hw.
  cbn [fst snd] in Hrun. inversion Hrun; subst. clear Hrun.
  destruct (IH _ _ _ Hw) as (Hb' & Hr' & Hcause).
  split; [exact Hb' |]. split; [rewrite Hr', Hr1; reflexivity |].
  right. destruct Hcause as [Hset1 | Hin].
  - destruct Hg1 as [Hsame | [Hip _]].
    + cbn [set_posted s_wifi_event_group] in Hsame. congruence.
    + apply is_got_ip_eq in Hip as [-> ->]. apply list_elem_of_here.
  - apply list_elem_of_further, elem_of_app. right. exact Hin.
Qed.

(** With [wifi_event_handler] wired to it, an [IP_EVENT_STA_GOT_IP] among the
    posted events ends the wait. *)
Lemma wait_for_ends queue : ∀ b,
  hears_got_ip (registered b) = true →
  (IP_EVENT, IP_EVENT_STA_GOT_IP) ∈ queue →
  ∃ evs b', wait_for WIFI_CONNECTED_BIT queue b = (evs, SRet tt b').
Proof.
  induction queue as [| [e id] tl IH]; intros b Hhear Hin;
    [apply elem_of_nil in Hin; destruct Hin |].
  cbn [wait_for].
  destruct (Z.eqb_spec (Z.land (s_wifi_event_group b) WIFI_CONNECTED_BIT)
              WIFI_CONNECTED_BIT) as [Hset | Hclear]; [eexists _, _; reflexivity |].
  unfold sbind at 1. cbn [smodify app].
  destruct (dispatch_run e id (set_posted tl b)) as (evs1 & b1 & Hd & Hr1 & _ & _ & Hg1).
  rewrite (sbind_ret _ _ _ _ _ _ Hd).
  apply elem_of_cons in Hin as [Hhead | Htl].
  - injection Hhead as <- <-.
    assert (Hb1 : Z.land (s_wifi_event_group b1) WIFI_CONNECTED_BIT = WIFI_CONNECTED_BIT).
    { rewrite Hg1; [apply land_lor_bit | exact Hhear |].
      apply is_got_ip_eq. split; reflexivity. }
    destruct tl; cbn [wait_for]; rewrite Hb1, Z.eqb_refl; eexists _, _; reflexivity.
  - destruct (IH b1) as (evs2 & b2 & Hw); [rewrite Hr1; exact Hhear | exact Htl |].
    rewrite Hw. eexists _, _. reflexivity.
Qed.

End Loop.

(** ** [always] and [keeps] through the event loop *)

Section Recursion.
Context {K : sdk} {C : credential}.
Context (Q : sys_event → Prop) {X : Type} (f : board → X).

Lemma always_deliver regs e id :
  (∀ h, always Q (call_handler h e id)) → always Q (deliver regs e id).
Proof.
  intros Hh. induction regs as [| [[rb rid] h] tl IH]; cbn [deliver];
    [apply always_sret |].
  apply always_sbind; [apply always_if; [apply Hh | apply always_sret] |].
  intros _. exact IH.
Qed.

Lemma always_wait_for bits queue :
  (∀ e id, always Q (dispatch e id)) → always Q (wait_for bits queue).
Proof.
  intros Hd. induction queue as [| [e id] tl IH]; intros b; cbn [wait_for];
    destruct (Z.land (s_wifi_event_group b) bits =? bits); try constructor.
  apply (always_sbind Q (smodify (set_posted tl))); [apply always_smodify |].
  intros _. apply always_sbind; [apply Hd | intros _; exact IH].
Qed.

Lemma keeps_deliver regs e id :
  (∀ h, keeps f (call_handler h e id)) → keeps f (deliver regs e id).
Proof.
  intros Hh. induction regs as [| [[rb rid] h] tl IH]; cbn [deliver];
    [apply keeps_sret |].
  apply keeps_sbind; [apply keeps_if; [apply Hh | apply keeps_sret] |].
  intros _. exact IH.
Qed.

Lemma keeps_wait_for bits queue :
  (∀ q b, f (set_posted q b) = f b) →
  (∀ e id, keeps f (dispatch e id)) → keeps f (wait_for bits queue).
Proof.
  intros Hp Hd. induction queue as [| [e id] tl IH]; intros b evs a b'; cbn [wait_for];
    destruct (Z.land (s_wifi_event_group b) bits =? bits);
    try (intros Heq; inversion Heq; reflexivity).
  intros Hrun.
  apply (keeps_sbind f (smodify (set_posted tl))
           (λ _, sbind (dispatch e id) (λ _, wait_for bits tl))) in Hrun;
    [exact Hrun | apply keeps_smodify; intros ?; apply Hp |].
  intros _. apply keeps_sbind; [apply Hd | intros _; exact IH].
Qed.

End Recursion.

Ltac sys_defs :=
  unfold app_main, app_main_static, wifi_init_sta_simple, wifi_init_base,
    ble_provisioning_if_needed, udp_init, spi_slave_init_bus, event_group_wait,
    dispatch, wifi_event_handler, prov_event_handler;
  sys_unfold.

Ltac sys_auto :=
  sys_defs;
  repeat first
    [ assumption
    | apply always_sret | apply always_sstop | apply always_sget | apply always_smodify
    | apply always_semit; first [reflexivity | discriminate]
    | apply always_sbind; [| intros ?]
    | apply always_if
    | apply always_wait_for; intros ? ?; sys_defs
    | apply always_deliver; intros []; cbn [call_handler]; sys_defs
    | apply always_run_bridge; intros ? []; first [reflexivity | discriminate]
    | apply keeps_sret | apply keeps_sstop | apply keeps_sget | apply keeps_semit
    | apply keeps_smodify; intros ?; reflexivity
    | apply keeps_sbind; [| intros ?]
    | apply keeps_if
    | apply keeps_wait_for; [intros ? ?; reflexivity | intros ? ?; sys_defs]
    | apply keeps_deliver; intros []; cbn [call_handler]; sys_defs
    | apply keeps_run_bridge; intros ? ?; reflexivity ].

Lemma always_set_rdy (Q : sys_event → Prop) v :
  Q (sys_bridge (ev_gpio_set_level PIN_RDY v)) → always Q (run_bridge (set_rdy v)).
Proof. intros HQ b. repeat constructor. exact HQ. Qed.

Lemma keeps_set_rdy {X} (f : board → X) v :
  (∀ b, f (set_bridge (bridge b) b) = f b) → keeps f (run_bridge (set_rdy v)).
Proof. intros Hf b e a b' Heq. inversion Heq. apply Hf. Qed.

Ltac sys_auto' :=
  sys_defs;
  repeat first
    [ apply always_set_rdy; first [reflexivity | discriminate]
    | apply keeps_set_rdy; intros ?; reflexivity
    | progress sys_auto ].

Lemma sbind_ext {A B} (x : Sys A) (f g : A → Sys B) :
  (∀ a b, f a b = g a b) → ∀ b, sbind x f b = sbind x g b.
Proof.
  intros Hfg b. unfold sbind. destruct (x b) as [e1 [a b1 | h]]; [| reflexivity].
  rewrite Hfg. reflexivity.
Qed.

Ltac regroup_tac :=
  repeat (repeat rewrite <- regroup; first [reflexivity | apply sbind_ext; intros ? ?]).

(** ** [app_main] in two stretches *)

Section AppMain.
Context {K : sdk} {C : credential}.

Lemma app_main_split fuel b :
  app_main fuel b =
  sbind (sbind until_connected (λ _, forwarding_setup))
    (λ _, run_bridge (spi_udp_forward_loop fuel)) b.
Proof.
  unfold app_main, until_connected, forwarding_setup.
  regroup_tac.
Qed.
End AppMain.

(** Take the first step off a run that returned. *)
Tactic Notation "peel" hyp(H) "as" ident(e1) ident(a) ident(b1) ident(e2) ident(H1) :=
  apply sbind_inv in H as (e1 & a & b1 & e2 & H1 & H & ->).

(** Use that the step [H] keeps the part [f] of the state. *)

Ltac kept f H :=
  let Hk := fresh "Hk" in
  match type of H with
  | ?x ?b = (_, SRet _ _) =>
      assert (Hk : keeps f x)
        by (unfold until_connected, forwarding_setup; sys_auto');
      apply Hk in H
  end.

Section Gate.
Context {K : sdk} {C : credential}.

Lemma event_group_wait_returns b evs b' :
  event_group_wait WIFI_CONNECTED_BIT b = (evs, SRet tt b') →
  Z.land (s_wifi_event_group b') WIFI_CONNECTED_BIT = WIFI_CONNECTED_BIT
  ∧ registered b' = registered b
  ∧ (Z.land (s_wifi_event_group b) WIFI_CONNECTED_BIT = WIFI_CONNECTED_BIT
     ∨ sys_dispatch IP_EVENT IP_EVENT_STA_GOT_IP ∈ evs).
Proof.
  unfold event_group_wait, sdk_do. intros H.
  peel H as e1 a1 b1 e2 H1. inversion H1; subst.
  peel H as e3 a3 b3 e4 H3. inversion H3; subst.
  destruct (wait_for_returns _ _ _ _ H) as (Hset & Hreg & Hwhy).
  split; [exact Hset |]. split; [exact Hreg |].
  destruct Hwhy as [Hwas | Hin]; [left; exact Hwas | right].
  apply list_elem_of_further. exact Hin.
Qed.

Lemma check_returns (x : Sys Z) b evs a b' :
  ESP_ERROR_CHECK_sys x b = (evs, SRet a b') → x b = (evs, SRet ESP_OK b').
Proof.
  unfold ESP_ERROR_CHECK_sys. intros H. peel H as e1 rc b1 e2 H1.
  destruct (Z.eqb_spec rc ESP_OK) as [-> | _].
  - inversion H; subst. rewrite app_nil_r. exact H1.
  - peel H as e3 a3 b3 e4 H3. inversion H.
Qed.

Lemma wifi_init_base_clears b evs a b' :
  wifi_init_base b = (evs, SRet a b') → s_wifi_event_group b' = 0.
Proof.
  unfold wifi_init_base. intros H.
  peel H as e1 a1 b1 e2 H1. inversion H1; subst.
  peel H as e3 a3 b3 e4 H3. inversion H3; subst.
  kept s_wifi_event_group H. exact H.
Qed.

Lemma ble_provisioning_returns b evs a b' :
  s_wifi_event_group b = 0 →
  ble_provisioning_if_needed b = (evs, SRet a b') →
  s_wifi_event_group b' = 0 ∨ sys_dispatch IP_EVENT IP_EVENT_STA_GOT_IP ∈ evs.
Proof.
  unfold ble_provisioning_if_needed. intros Hz H.
  peel H as e1 a1 b1 e2 H1. kept s_wifi_event_group H1.
  peel H as e3 flag b3 e4 H3. inversion H3; subst.
  destruct (provisioned b3).
  - kept s_wifi_event_group H. left. congruence.
  - right. cbv zeta in H.
    peel H as e5 a5 b5 e6 H5. kept s_wifi_event_group H5.
    peel H as e7 mac b7 e8 H7. inversion H7; subst.
    peel H as e9 a9 b9 e10 H9. kept s_wifi_event_group H9.
    peel H as e11 a11 b11 e12 H11. kept s_wifi_event_group H11.
    peel H as e13 a13 b13 e14 H13. kept s_wifi_event_group H13.
    peel H as e15 a15 b15 e16 H15. destruct a15.
    destruct (event_group_wait_returns _ _ _ H15) as (_ & _ & [Hset | Hin]).
    + exfalso. rewrite H13, H11, H9, H5, H1, Hz in Hset. discriminate Hset.
    + rewrite !elem_of_app. auto 10.
Qed.

(** When [app_main] gets past its wait, the event loop has handed out an
    [IP_EVENT_STA_GOT_IP]. *)
Lemma until_connected_returns b evs a b' :
  until_connected b = (evs, SRet a b') →
  sys_dispatch IP_EVENT IP_EVENT_STA_GOT_IP ∈ evs.
Proof.
  unfold until_connected. intros H.
  peel H as e1 err b1 e2 H1. peel H as e3 a3 b3 e4 H3.
  peel H as e5 a5 b5 e6 H5. apply wifi_init_base_clears in H5.
  peel H as e7 a7 b7 e8 H7. kept s_wifi_event_group H7.
  peel H as e9 a9 b9 e10 H9. kept s_wifi_event_group H9.
  peel H as e11 a11 b11 e12 H11.
  apply ble_provisioning_returns in H11; [| congruence].
  destruct a. rewrite !elem_of_app.
  destruct H11 as [Hz | Hin]; [| auto 10].
  destruct (event_group_wait_returns _ _ _ H) as (_ & _ & [Hset | Hin]).
  - rewrite Hz in Hset. discriminate Hset.
  - auto 10.
Qed.

Lemma until_connected_quiet : never is_forwarding until_connected.
Proof. unfold until_connected. sys_auto. Qed.

End Gate.


Lemma fst_run_bridge {A} (x : M A) b :
  fst (run_bridge x b) = on_board b <$> fst (x (bridge b)).
Proof. unfold run_bridge. destruct (x (bridge b)) as [evs [a m | h]]; reflexivity. Qed.

Lemma existsb_never (p : sys_event → bool) evs :
  Forall (λ e, p e = false) evs → existsb p evs = false.
Proof.
  induction 1 as [| e tl He _ IH]; [reflexivity |]. cbn. rewrite He, IH. reflexivity.
Qed.

(** What follows a stretch that logs no forwarding and, when it returns,
    has logged [sig]: any forwarding event comes after [sig]. *)
Lemma gate {A B} (x : Sys A) (k : A → Sys B) (sig : sys_event) :
  never is_forwarding x →
  (∀ b e a b', x b = (e, SRet a b') → sig ∈ e) →
  ∀ b i ev, fst (sbind x k b) !! i = Some ev → is_forwarding ev = true →
  ∃ j, (j < i)%nat ∧ fst (sbind x k b) !! j = Some sig.
Proof.
  intros Hquiet Hsig b i ev Hi Hfw.
  pose proof (sbind_log x k b) as Hlog. specialize (Hquiet b).
  assert (Hnot : ∀ e1 : list sys_event,
            Forall (λ e, is_forwarding e = false) e1 → e1 !! i = Some ev → False).
  { intros e1 Hall He1. apply (proj1 (Forall_lookup _ _) Hall i ev) in He1. congruence. }
  destruct (x b) as [e1 [a b1 | h]] eqn:Hx; rewrite Hlog in Hi |- *; cbn [fst] in *.
  - destruct (Nat.lt_ge_cases i (length e1)) as [Hlt | Hge].
    + rewrite lookup_app_l in Hi by exact Hlt. destruct (Hnot e1 Hquiet Hi).
    + apply Hsig, list_elem_of_lookup in Hx as [j Hj].
      exists j. split; [apply lookup_lt_Some in Hj; lia |].
      rewrite lookup_app_l by (apply lookup_lt_Some in Hj; exact Hj). exact Hj.
  - destruct (Hnot e1 Hquiet Hi).
Qed.

(** ** [app_main]: what comes before the forwarding *)

Section Gatekeeping.
Context {K : sdk} {C : credential}.

(** X2: the forwarding part of [app_main] (RDY, SPI receives, datagrams) starts
    only after the event loop has handed out an [IP_EVENT_STA_GOT_IP]. *)
Theorem forwarding_waits_for_ip fuel b i ev :
  fst (app_main fuel b) !! i = Some ev → is_forwarding ev = true →
  ∃ j, (j < i)%nat
       ∧ fst (app_main fuel b) !! j = Some (sys_dispatch IP_EVENT IP_EVENT_STA_GOT_IP).
Proof.
  rewrite app_main_split, <- regroup.
  apply gate; [apply until_connected_quiet |].
  intros b0 e a b'. apply until_connected_returns.
Qed.

Lemma sdk_call_run f args b :
  sdk_call f args b
  = ([sys_call f args], SRet (sdk_ret b 0%nat) (set_sdk_ret (λ i, sdk_ret b (S i)) b)).
Proof. reflexivity. Qed.

Lemma fst_sbind_semit {B} e (k : unit → Sys B) b :
  fst (sbind (semit e) k b) = e :: fst (k tt b).
Proof. unfold sbind, semit. destruct (k tt b). reflexivity. Qed.

Lemma fst_sbind_sdk_call {B} f args (k : Z → Sys B) b :
  fst (sbind (sdk_call f args) k b)
  = sys_call f args
    :: fst (k (sdk_ret b 0%nat) (set_sdk_ret (λ i, sdk_ret b (S i)) b)).
Proof.
  unfold sbind. rewrite sdk_call_run.
  destruct (k (sdk_ret b 0%nat) (set_sdk_ret (λ i, sdk_ret b (S i)) b)). reflexivity.
Qed.

Lemma after_nvs_never_erases fuel : never (is_call nvs_flash_erase) (after_nvs fuel).
Proof. unfold after_nvs. sys_auto'. Qed.

Lemma after_nvs_head fuel b :
  ∃ tl, fst (after_nvs fuel b) = sys_call xEventGroupCreate [] :: tl.
Proof.
  unfold after_nvs, wifi_init_base, sdk_do. rewrite <- regroup, fst_sbind_semit.
  eexists. reflexivity.
Qed.

(** X3: [nvs_flash_erase] is called exactly when the first [nvs_flash_init]
    returned one of the two codes the source names; with any other result,
    errors included, [app_main] goes straight on to the Wi-Fi bring-up. *)
Theorem nvs_erase_only_for_two_codes fuel b :
  let asked := (sdk_ret b 0%nat =? ESP_ERR_NVS_NO_FREE_PAGES)
               || (sdk_ret b 0%nat =? ESP_ERR_NVS_NEW_VERSION_FOUND) in
  existsb (is_call nvs_flash_erase) (fst (app_main fuel b)) = asked
  ∧ take 2 (fst (app_main fuel b))
    = [sys_call nvs_flash_init [];
       if asked then sys_call nvs_flash_erase [] else sys_call xEventGroupCreate []].
Proof.
  cbv zeta.
  change (app_main fuel) with
    (sbind (sdk_call nvs_flash_init [])
       (λ err, sbind
          (if (err =? ESP_ERR_NVS_NO_FREE_PAGES)
              || (err =? ESP_ERR_NVS_NEW_VERSION_FOUND)
           then sbind (ESP_ERROR_CHECK_sys (sdk_call nvs_flash_erase []))
                  (λ _, ESP_ERROR_CHECK_sys (sdk_call nvs_flash_init []))
           else sret tt) (λ _, after_nvs fuel))).
  rewrite fst_sbind_sdk_call.
  set (b1 := set_sdk_ret _ b).
  destruct ((sdk_ret b 0%nat =? ESP_ERR_NVS_NO_FREE_PAGES)
            || (sdk_ret b 0%nat =? ESP_ERR_NVS_NEW_VERSION_FOUND)).
  - assert (Hlog : ∃ tl,
              fst (sbind (sbind (ESP_ERROR_CHECK_sys (sdk_call nvs_flash_erase []))
                            (λ _, ESP_ERROR_CHECK_sys (sdk_call nvs_flash_init [])))
                     (λ _, after_nvs fuel) b1)
              = sys_call nvs_flash_erase [] :: tl).
    { unfold ESP_ERROR_CHECK_sys at 1. rewrite <- !regroup, fst_sbind_sdk_call.
      eexists. reflexivity. }
    destruct Hlog as [tl ->]. split; reflexivity.
  - pose proof (sbind_log (sret tt) (λ _, after_nvs fuel) b1) as Hlog.
    cbn [sret app] in Hlog. rewrite Hlog. cbn [fst].
    split.
    + cbn [existsb is_call orb]. apply existsb_never, after_nvs_never_erases.
    + destruct (after_nvs_head fuel b1) as [tl ->]. reflexivity.
Qed.

End Gatekeeping.


(** ** Where the datagrams go *)

Section Target.
Context {K : sdk} {C : credential}.

Lemma udp_init_run b :
  udp_init b =
  if sdk_ret b 0%nat <? 0 then
    ([sys_call socket [a_int AF_INET; a_int SOCK_DGRAM; a_int IPPROTO_IP];
      sys_log LOGE "socket() failed" []; sys_abort],
     SHalt abort_called)
  else
    ([sys_call socket [a_int AF_INET; a_int SOCK_DGRAM; a_int IPPROTO_IP];
      sys_log LOGI "UDP target %s:%d" [a_str UDP_HOST_IP; a_int UDP_HOST_PORT]],
     SRet tt (set_udp_dst (configured_dst b)
                (set_udp_sock (sdk_ret b 0%nat)
                   (set_sdk_ret (λ i, sdk_ret b (S i)) b)))).
Proof.
  unfold udp_init, sbind. rewrite sdk_call_run. cbn [smodify app].
  destruct (sdk_ret b 0%nat <? 0); reflexivity.
Qed.

Lemma udp_init_returns b evs a b' :
  udp_init b = (evs, SRet a b') →
  0 <= udp_sock b' ∧ udp_dst b' = configured_dst b
  ∧ bridge b' = bridge b ∧ inet_addr b' = inet_addr b.
Proof.
  rewrite udp_init_run. destruct (Z.ltb_spec (sdk_ret b 0%nat) 0) as [Hneg | Hok];
    intros Heq; inversion Heq; subst. repeat split. exact Hok.
Qed.

Lemma before_loop_returns b evs a b' :
  sbind until_connected (λ _, forwarding_setup) b = (evs, SRet a b') →
  0 <= udp_sock b' ∧ udp_dst b' = configured_dst b ∧ bridge b' = bridge b.
Proof.
  intros H. peel H as e1 a1 b1 e2 H1.
  assert (Hb1 : bridge b1 = bridge b ∧ inet_addr b1 = inet_addr b).
  { split; [kept bridge H1 | kept inet_addr H1]; exact H1. }
  clear H1. destruct Hb1 as [Hbr1 Hin1].
  unfold forwarding_setup in H.
  peel H as e3 a3 b3 e4 H3. inversion H3; subst.
  peel H as e5 a5 b5 e6 H5. inversion H5; subst.
  peel H as e7 a7 b7 e8 H7.
  apply udp_init_returns in H7 as (Hsock & Hdst & Hbr & Hin).
  assert (Hkeep : udp_sock b' = udp_sock b7 ∧ udp_dst b' = udp_dst b7
                  ∧ bridge b' = bridge b7).
  { split; [| split]; [kept udp_sock H | kept udp_dst H | kept bridge H]; exact H. }
  destruct Hkeep as (-> & -> & ->).
  split; [exact Hsock |]. split; [| congruence].
  rewrite Hdst. unfold configured_dst. rewrite Hin1. reflexivity.
Qed.

Lemma before_loop_sends_nothing :
  never is_sendto (sbind until_connected (λ _, forwarding_setup)).
Proof. unfold until_connected, forwarding_setup. sys_auto'. Qed.

(** X4: every datagram [app_main] sends goes out on a descriptor that [socket()]
    returned as non-negative, to the destination [udp_init] built from
    [credential.h], and is 10 to 2058 bytes long. *)
Theorem datagrams_go_to_configured_target fuel b i sock len d dst :
  wf (bridge b) →
  fst (app_main fuel b) !! i = Some (sys_sendto sock len d dst) →
  0 <= sock ∧ dst = configured_dst b
  ∧ 10 <= len <= 2058 ∧ Z.of_nat (length d) = len.
Proof.
  intros Hwf. rewrite app_main_split.
  pose proof (sbind_log (sbind until_connected (λ _, forwarding_setup))
                (λ _, run_bridge (spi_udp_forward_loop fuel)) b) as Hlog.
  pose proof (before_loop_sends_nothing b) as Hquiet.
  assert (Hnot : ∀ e1 : list sys_event,
            Forall (λ e, is_sendto e = false) e1 →
            e1 !! i = Some (sys_sendto sock len d dst) → False).
  { intros e1 Hall He1. apply (proj1 (Forall_lookup _ _) Hall i _) in He1.
    discriminate He1. }
  destruct (sbind until_connected (λ _, forwarding_setup) b) as [e1 [a b1 | h]] eqn:Hpre;
    rewrite Hlog; cbn [fst] in *; intros Hi; [| destruct (Hnot e1 Hquiet Hi)].
  apply before_loop_returns in Hpre as (Hsock & Hdst & Hbr).
  apply lookup_app_Some in Hi as [Hi | [_ Hi]]; [destruct (Hnot e1 Hquiet Hi) |].
  rewrite fst_run_bridge, list_lookup_fmap in Hi.
  destruct (fst (spi_udp_forward_loop fuel (bridge b1)) !! (i - length e1)%nat)
    as [ev |] eqn:Hev; [| discriminate Hi].
  cbn in Hi. destruct ev; cbn [on_board] in Hi; try discriminate Hi.
  injection Hi as <- <- <- <-.
  split; [exact Hsock |]. split; [exact Hdst |].
  rewrite Hbr in Hev.
  apply (proj1 (Forall_lookup _ _) (sends_in_bounds fuel (bridge b) Hwf) _ _ Hev).
Qed.

End Target.

Lemma returns_sbind {A B} P (x : Sys A) R (k : A → Sys B) Q :
  returns P x R → (∀ a, returns (R a) (k a) Q) → returns P (sbind x k) Q.
Proof.
  intros Hx Hk b HP. destruct (Hx b HP) as (e1 & a & b1 & Hrun & HR).
  destruct (Hk a b1 HR) as (e2 & c & b2 & Hrun2 & HQ).
  exists (e1 ++ e2), c, b2. split; [| exact HQ].
  rewrite (sbind_ret _ _ _ _ _ _ Hrun), Hrun2. reflexivity.
Qed.

Lemma returns_sret {A} (P : board → Prop) (a : A) (Q : A → board → Prop) :
  (∀ b, P b → Q a b) → returns P (sret a) Q.
Proof. intros H b HP. exists [], a, b. auto. Qed.

Lemma returns_semit (P : board → Prop) e (Q : unit → board → Prop) :
  (∀ b, P b → Q tt b) → returns P (semit e) Q.
Proof. intros H b HP. exists [e], tt, b. auto. Qed.

Lemma returns_sget {A} (P : board → Prop) (g : board → A) (Q : A → board → Prop) :
  (∀ b, P b → Q (g b) b) → returns P (sget g) Q.
Proof. intros H b HP. exists [], (g b), b. auto. Qed.

Lemma returns_smodify (P : board → Prop) g (Q : unit → board → Prop) :
  (∀ b, P b → Q tt (g b)) → returns P (smodify g) Q.
Proof. intros H b HP. exists [], tt, (g b). auto. Qed.

Lemma returns_if {A} P (c : bool) (x y : Sys A) Q :
  returns P x Q → returns P y Q → returns P (if c then x else y) Q.
Proof. destruct c; auto. Qed.

(** ** A bring-up that gets through *)

Section Success.
Context {K : sdk} {C : credential}.

Lemma returns_checked_call (P : board → Prop) f args :
  (∀ b, P b → healthy b) →
  (∀ b, P b → P (set_sdk_ret (λ i, sdk_ret b (S i)) b)) →
  returns P (ESP_ERROR_CHECK_sys (sdk_call f args)) (λ _, P).
Proof.
  intros Hh Hstable b HP. unfold ESP_ERROR_CHECK_sys, sbind.
  rewrite sdk_call_run, (Hh b HP 0%nat). cbn.
  eexists _, _, _. split; [reflexivity |]. apply Hstable, HP.
Qed.

Lemma ready_shift b :
  ready_to_connect b → ready_to_connect (set_sdk_ret (λ i, sdk_ret b (S i)) b).
Proof. intros (Hh & Hp & Hq). split; [intros i; apply Hh | split; assumption]. Qed.

Lemma wired_shift b : wired b → wired (set_sdk_ret (λ i, sdk_ret b (S i)) b).
Proof. intros [Hr Hw]. split; [apply ready_shift, Hr | exact Hw]. Qed.

Lemma healthy_shift b : healthy b → healthy (set_sdk_ret (λ i, sdk_ret b (S i)) b).
Proof. intros Hh i. apply Hh. Qed.

Lemma hears_app r1 r2 :
  hears_got_ip (r1 ++ r2) = hears_got_ip r1 || hears_got_ip r2.
Proof. unfold hears_got_ip. apply existsb_app. Qed.

Lemma returns_checked_register (P Q : board → Prop) e id h :
  (∀ b, P b → healthy b) →
  (∀ b, P b →
        Q (set_registered (registered b ++ [(e, id, h)])
             (set_sdk_ret (λ i, sdk_ret b (S i)) b))) →
  returns P (ESP_ERROR_CHECK_sys (event_handler_register e id h)) (λ _, Q).
Proof.
  intros Hh HQ b HP. unfold ESP_ERROR_CHECK_sys, event_handler_register, sbind.
  rewrite sdk_call_run, (Hh b HP 0%nat). cbn.
  eexists _, _, _. split; [reflexivity |]. apply (HQ b HP).
Qed.

Lemma wifi_init_base_succeeds :
  returns ready_to_connect wifi_init_base (λ _, wired).
Proof.
  unfold wifi_init_base, sdk_do.
  apply (returns_sbind _ _ (λ _, ready_to_connect)); [apply returns_semit; auto |].
  intros _. apply (returns_sbind _ _ (λ _, ready_to_connect));
    [apply returns_smodify; auto |].
  intros _. apply (returns_sbind _ _ (λ _, ready_to_connect));
    [apply returns_checked_call; [intros b H; apply H | apply ready_shift] |].
  intros _. apply (returns_sbind _ _ (λ _, ready_to_connect));
    [apply returns_checked_call; [intros b H; apply H | apply ready_shift] |].
  intros _. apply (returns_sbind _ _ (λ _, ready_to_connect)); [apply returns_semit; auto |].
  intros _. apply (returns_sbind _ _ (λ _, ready_to_connect));
    [apply returns_checked_register;
       [intros b H; apply H | intros b H; apply (ready_shift b H)] |].
  intros _. apply (returns_sbind _ _ (λ _, wired)).
  { apply returns_checked_register; [intros b H; apply H |].
    intros b H. split; [apply (ready_shift b H) |].
    cbn [set_registered registered set_sdk_ret]. rewrite hears_app.
    cbn [hears_got_ip existsb base_eqb andb]. rewrite Z.eqb_refl, !orb_true_r.
    reflexivity. }
  intros _. apply (returns_sbind _ _ (λ _, wired));
    [apply returns_checked_call; [intros b H; apply H | apply wired_shift] |].
  intros _. apply (returns_sbind _ _ (λ _, wired));
    [apply returns_checked_call; [intros b H; apply H | apply wired_shift] |].
  intros _. apply returns_checked_call; [intros b H; apply H | apply wired_shift].
Qed.

Lemma preserves_sret P {A} (a : A) : preserves P (sret a).
Proof. intros b e a' b' HP Heq. inversion Heq; subst. exact HP. Qed.

Lemma preserves_sget P {A} (g : board → A) : preserves P (sget g).
Proof. intros b e a' b' HP Heq. inversion Heq; subst. exact HP. Qed.

Lemma preserves_semit P e : preserves P (semit e).
Proof. intros b e' a' b' HP Heq. inversion Heq; subst. exact HP. Qed.

Lemma preserves_smodify (P : board → Prop) g :
  (∀ b, P b → P (g b)) → preserves P (smodify g).
Proof. intros Hg b e' a' b' HP Heq. inversion Heq; subst. apply Hg, HP. Qed.

Lemma preserves_sbind P {A B} (x : Sys A) (k : A → Sys B) :
  preserves P x → (∀ a, preserves P (k a)) → preserves P (sbind x k).
Proof.
  intros Hx Hk b e c b' HP H. peel H as e1 a1 b1 e2 H1.
  apply (Hk a1 b1 _ _ _ (Hx b _ _ _ HP H1) H).
Qed.

Lemma preserves_if P {A} (c : bool) (x y : Sys A) :
  preserves P x → preserves P y → preserves P (if c then x else y).
Proof. destruct c; auto. Qed.

Lemma preserves_deliver P regs e id :
  (∀ h, preserves P (call_handler h e id)) → preserves P (deliver regs e id).
Proof.
  intros Hh. induction regs as [| [[rb rid] h] tl IH]; cbn [deliver];
    [apply preserves_sret |].
  apply preserves_sbind; [apply preserves_if; [apply Hh | apply preserves_sret] |].
  intros _. exact IH.
Qed.

Lemma preserves_wait_for (P : board → Prop) bits queue :
  (∀ q b, P b → P (set_posted q b)) →
  (∀ e id, preserves P (dispatch e id)) → preserves P (wait_for bits queue).
Proof.
  intros Hp Hd. induction queue as [| [e id] tl IH]; intros b evs a b' HP;
    cbn [wait_for]; destruct (Z.land (s_wifi_event_group b) bits =? bits);
    try (intros Heq; inversion Heq; subst; exact HP).
  intros Hrun.
  apply (preserves_sbind P (smodify (set_posted tl))
           (λ _, sbind (dispatch e id) (λ _, wait_for bits tl))) in Hrun;
    [exact Hrun | apply preserves_smodify; intros ?; apply Hp | | exact HP].
  intros _. apply preserves_sbind; [apply Hd | intros _; exact IH].
Qed.

Lemma preserves_sdk_call (P : board → Prop) f args :
  (∀ b, P b → P (set_sdk_ret (λ i, sdk_ret b (S i)) b)) →
  preserves P (sdk_call f args).
Proof.
  intros HP b e a b' Hb. rewrite sdk_call_run. intros Heq. inversion Heq; subst.
  apply HP, Hb.
Qed.

Lemma healthy_kept_wait_for queue : preserves healthy (wait_for WIFI_CONNECTED_BIT queue).
Proof.
  apply preserves_wait_for; [intros q b H; exact H |].
  intros e id. unfold dispatch.
  repeat first
    [ apply preserves_sret | apply preserves_sget | apply preserves_semit
    | apply preserves_sdk_call; apply healthy_shift
    | apply preserves_smodify; intros b H; exact H
    | apply preserves_sbind; [| intros ?]
    | apply preserves_if
    | apply preserves_deliver; intros []; cbn [call_handler];
      unfold wifi_event_handler, prov_event_handler, sdk_do, ESP_LOG ].
Qed.

Lemma event_group_wait_succeeds :
  returns wired (event_group_wait WIFI_CONNECTED_BIT) (λ _, healthy).
Proof.
  intros b ((Hh & _ & Hq) & Hw). unfold event_group_wait, sdk_do.
  destruct (wait_for_ends (posted b) b Hw Hq) as (evs & b' & Hrun).
  exists (sys_call xEventGroupWaitBits [a_int WIFI_CONNECTED_BIT] :: evs), tt, b'.
  split; [unfold sbind, semit, sget; rewrite Hrun; reflexivity |].
  apply (healthy_kept_wait_for _ _ _ _ _ Hh Hrun).
Qed.

Lemma until_connected_succeeds :
  returns ready_to_connect until_connected (λ _, healthy).
Proof.
  unfold until_connected.
  apply (returns_sbind _ _ (λ _, ready_to_connect)).
  { intros b H. rewrite sdk_call_run. eexists _, _, _. split; [reflexivity |].
    apply ready_shift, H. }
  intros err. apply (returns_sbind _ _ (λ _, ready_to_connect)).
  { apply returns_if; [| apply returns_sret; auto].
    apply (returns_sbind _ _ (λ _, ready_to_connect));
      [| intros _]; apply returns_checked_call;
      first [intros b H; apply H | apply ready_shift]. }
  intros _. apply (returns_sbind _ _ (λ _, wired)); [apply wifi_init_base_succeeds |].
  intros _. apply (returns_sbind _ _ (λ _, wired));
    [apply returns_checked_call; [intros b H; apply H | apply wired_shift] |].
  intros _. apply (returns_sbind _ _ (λ _, wired)).
  { apply returns_checked_register; [intros b H; apply H |].
    intros b [Hr Hw]. split; [apply (ready_shift b Hr) |].
    cbn [set_registered registered set_sdk_ret]. rewrite hears_app, Hw. reflexivity. }
  intros _. apply (returns_sbind _ _ (λ _, wired)).
  { unfold ble_provisioning_if_needed.
    apply (returns_sbind _ _ (λ _, wired));
      [apply returns_checked_call; [intros b H; apply H | apply wired_shift] |].
    intros _. apply (returns_sbind _ _ (λ flag b, flag = true ∧ wired b));
      [apply returns_sget; intros b H; split; [apply H | exact H] |].
    intros flag b [-> H]. unfold ESP_LOG.
    eexists _, _, _. split; [reflexivity | exact H]. }
  intros _. apply event_group_wait_succeeds.
Qed.

Lemma forwarding_setup_succeeds :
  returns healthy forwarding_setup (λ _ _, True).
Proof.
  unfold forwarding_setup, ESP_LOG, sdk_do.
  apply (returns_sbind _ _ (λ _, healthy)); [apply returns_semit; auto |].
  intros _. apply (returns_sbind _ _ (λ _, healthy)); [apply returns_semit; auto |].
  intros _. apply (returns_sbind _ _ (λ _, healthy)).
  { intros b H. rewrite udp_init_run, (H 0%nat). cbn.
    eexists _, _, _. split; [reflexivity |]. apply (healthy_shift b H). }
  intros _. unfold spi_slave_init_bus, ESP_LOG.
  apply (returns_sbind _ _ (λ _, healthy));
    [apply returns_checked_call; [auto | apply healthy_shift] |].
  intros _. apply (returns_sbind _ _ (λ _, healthy)).
  { intros b H. eexists _, _, _. split; [reflexivity | exact H]. }
  intros _. apply (returns_sbind _ _ (λ _, healthy));
    [apply returns_checked_call; [auto | apply healthy_shift] |].
  intros _. apply returns_semit. auto.
Qed.

(** X5: on a board that is ready to connect, [app_main] comes through its whole
    bring-up and enters the forwarding loop on the arrays as they were: its log
    is the bring-up log, with no datagram in it, followed by the log of the
    loop; it ends as the loop ends. *)
Theorem app_main_reaches_loop fuel b :
  ready_to_connect b →
  ∃ pre b',
    app_main fuel b
    = (pre ++ (on_board b' <$> fst (spi_udp_forward_loop fuel (bridge b))),
       snd (run_bridge (spi_udp_forward_loop fuel) b'))
    ∧ bridge b' = bridge b
    ∧ existsb is_sendto pre = false.
Proof.
  intros Hready.
  destruct (returns_sbind _ _ _ (λ _, forwarding_setup) (λ _ _, True)
              until_connected_succeeds (λ _, forwarding_setup_succeeds) b Hready)
    as (pre & a & b' & Hrun & _).
  exists pre, b'.
  pose proof (before_loop_returns _ _ _ _ Hrun) as (_ & _ & Hbr).
  split; [| split; [exact Hbr |]].
  - rewrite app_main_split, (sbind_ret _ _ _ _ _ _ Hrun), fst_run_bridge, Hbr.
    reflexivity.
  - pose proof (before_loop_sends_nothing b) as Hq. rewrite Hrun in Hq.
    apply existsb_never, Hq.
Qed.

End Success.

(** ** More about the forwarding loop *)

Lemma transfers_within_max fuel : ∀ m,
  wf m → Forall (transfer_within PAYLOAD_MAX) (fst (spi_udp_forward_loop fuel m)).
Proof.
  assert (Hhdr : transfer_within PAYLOAD_MAX
                   (ev_spi_slave_transmit (HDR_LEN * 8) (Some obj_hdr)))
    by (cbn; unfold HDR_LEN, PAYLOAD_MAX; repeat split; try lia; discriminate).
  assert (Hpl : ∀ h, transfer_within PAYLOAD_MAX
                       (ev_spi_slave_transmit (used_len h * 8) (Some obj_payload))).
  { intros h. pose proof (used_len_range h). cbn. repeat split; try lia;
      [apply Z.mod_mul; lia | discriminate]. }
  induction fuel as [| k IH]; intros m Hwf; [constructor |].
  rewrite (loop_step k m Hwf). unfold body_summary.
  destruct (bus m) as [| [h | rc] [| [p | rc'] rest]];
    cbn [prepend fst snd header_events payload_events forward_events app];
    repeat first [ apply Forall_nil_2
                 | apply Forall_cons_2;
                   [first [exact I | exact Hhdr | apply Hpl] |] ].
  apply IH, wf_after_body, Hwf.
Qed.

(** X6: no more datagrams than passes observed, and none without a pair of bus
    answers of its own. *)
Lemma sent_count_bounded fuel : ∀ m,
  wf m →
  (length (sent (fst (spi_udp_forward_loop fuel m))) <= fuel)%nat
  ∧ (2 * length (sent (fst (spi_udp_forward_loop fuel m))) <= length (bus m))%nat.
Proof.
  induction fuel as [| k IH]; intros m Hwf; [cbn; lia |].
  rewrite (loop_step k m Hwf). unfold body_summary.
  destruct (bus m) as [| [h | rc] [| [p | rc'] rest]];
    cbn [prepend fst snd header_events payload_events forward_events app sent length];
    try lia.
  destruct (IH (after_body m h p rest) (wf_after_body m h p rest Hwf)) as [H1 H2].
  cbn [after_body bus] in H2. lia.
Qed.

(** X7: the loop aborts only on an error code of the driver, with that code. *)
Lemma abort_comes_from_driver fuel : ∀ m rc,
  wf m → snd (spi_udp_forward_loop fuel m) = Halt (Aborted rc) →
  ∃ e, SpiErr e ∈ bus m ∧ rc = Z.pos e.
Proof.
  induction fuel as [| k IH]; intros m rc Hwf; [discriminate |].
  rewrite (loop_step k m Hwf). unfold body_summary.
  destruct (bus m) as [| [h | e] [| [p | e'] rest]]; cbn [prepend fst snd];
    intros Hrun; try discriminate Hrun.
  - destruct (IH _ _ (wf_after_body m h p rest Hwf) Hrun) as (e & Hin & ->).
    exists e. split; [| reflexivity]. cbn [after_body bus] in Hin.
    do 2 apply list_elem_of_further. exact Hin.
  - injection Hrun as <-. exists e'. split; [| reflexivity].
    apply list_elem_of_further, list_elem_of_here.
  - injection Hrun as <-. exists e. split; [apply list_elem_of_here | reflexivity].
  - injection Hrun as <-. exists e. split; [apply list_elem_of_here | reflexivity].
  - injection Hrun as <-. exists e. split; [apply list_elem_of_here | reflexivity].
Qed.

(** X8: what the loop logs depends on the bus answers alone, not on what its
    arrays held when it started. *)
Lemma loop_log_from_bus fuel : ∀ m m',
  wf m → wf m' → bus m = bus m' →
  fst (spi_udp_forward_loop fuel m) = fst (spi_udp_forward_loop fuel m').
Proof.
  induction fuel as [| k IH]; intros m m' Hwf Hwf' Hbus; [reflexivity |].
  rewrite (loop_step k m Hwf), (loop_step k m' Hwf'). unfold body_summary.
  rewrite <- Hbus.
  destruct (bus m) as [| [h | rc] [| [p | rc'] rest]]; try reflexivity.
  cbn [prepend fst]. f_equal.
  apply IH; [apply wf_after_body, Hwf | apply wf_after_body, Hwf' | reflexivity].
Qed.


(** ** The handlers, the wait and [udp_init] *)

Section Behaviour.
Context {K : sdk} {C : credential}.

(** X9: the service name is always the 14 characters [LV-JPEG-] plus six hex
    digits; the 32-byte buffer of [ble_provisioning_if_needed] holds it whole,
    and [snprintf] reports those 14 characters. *)
Theorem service_name_never_truncated (mac : list byte) :
  snprintf 32 (service_name_text mac) = (service_name_text mac, 14)
  ∧ length (service_name_text mac) = 14%nat
  ∧ take 8 (service_name_text mac) = list_byte_of_string "LV-JPEG-".
Proof. repeat split. Qed.

(** X10: two devices advertise the same service name exactly when bytes 3, 4 and
    5 of their MAC addresses agree; bytes 0 to 2 play no part. *)
Theorem service_name_tells_mac_suffix (mac mac' : list byte) :
  service_name_text mac = service_name_text mac'
  ↔ byte_at mac 3 = byte_at mac' 3 ∧ byte_at mac 4 = byte_at mac' 4
    ∧ byte_at mac 5 = byte_at mac' 5.
Proof.
  unfold service_name_text. split.
  - intros Heq. apply app_inv_head in Heq.
    change (fmt_02X (byte_at mac 3) ++ fmt_02X (byte_at mac 4) ++ fmt_02X (byte_at mac 5))
      with ([hex_digit (Byte.to_N (byte_at mac 3) / 16);
             hex_digit (Byte.to_N (byte_at mac 3) mod 16);
             hex_digit (Byte.to_N (byte_at mac 4) / 16);
             hex_digit (Byte.to_N (byte_at mac 4) mod 16);
             hex_digit (Byte.to_N (byte_at mac 5) / 16);
             hex_digit (Byte.to_N (byte_at mac 5) mod 16)]) in Heq.
    injection Heq as H1 H2 H3 H4 H5 H6.
    repeat split; apply fmt_02X_inj; unfold fmt_02X; congruence.
  - intros (-> & -> & ->). reflexivity.
Qed.

Lemma count_calls_app f l1 l2 :
  count_calls f (l1 ++ l2) = (count_calls f l1 + count_calls f l2)%nat.
Proof. unfold count_calls. rewrite filter_app, length_app. reflexivity. Qed.

(** X11: handed any sequence of events, [wifi_event_handler] always returns; it
    calls [esp_wifi_connect] once for every station start and every disconnect,
    ignoring what the call returns; it sets [WIFI_CONNECTED_BIT] when an
    [IP_EVENT_STA_GOT_IP] is among them and never clears a bit, so a later
    disconnect leaves the bit set. *)
Theorem wifi_handler_reconnects_and_latches (evs : list (esp_event_base_t * Z)) b :
  ∃ log b',
    wifi_events evs b = (log, SRet tt b')
    ∧ s_wifi_event_group b'
      = (if existsb (λ ev, is_got_ip ev.1 ev.2) evs
         then Z.lor (s_wifi_event_group b) WIFI_CONNECTED_BIT
         else s_wifi_event_group b)
    ∧ count_calls esp_wifi_connect log
      = length (filter (λ ev, asks_connect ev.1 ev.2 = true) evs)
    ∧ Z.land (s_wifi_event_group b) (s_wifi_event_group b') = s_wifi_event_group b.
Proof.
  revert b. induction evs as [| [e id] tl IH]; intros b.
  - exists [], b. repeat split. apply Z.land_diag.
  - cbn [wifi_events].
    destruct (wifi_event_handler_run e id b) as (log1 & b1 & Hrun1 & Hg1 & Hc1 & _).
    destruct (IH b1) as (log2 & b2 & Hrun2 & Hg2 & Hc2 & _).
    exists (log1 ++ log2), b2.
    assert (Hgroup : s_wifi_event_group b2
                     = (if existsb (λ ev, is_got_ip ev.1 ev.2) ((e, id) :: tl)
                        then Z.lor (s_wifi_event_group b) WIFI_CONNECTED_BIT
                        else s_wifi_event_group b)).
    { rewrite Hg2, Hg1. cbn [existsb fst snd].
      destruct (is_got_ip e id), (existsb (λ ev, is_got_ip ev.1 ev.2) tl);
        cbn [orb]; rewrite ?lor_bit_idem; reflexivity. }
    split; [rewrite (sbind_ret _ _ _ _ _ _ Hrun1), Hrun2; reflexivity |].
    split; [exact Hgroup |]. split.
    + rewrite count_calls_app, Hc1, Hc2, filter_cons. cbn [fst snd].
      destruct (asks_connect e id); [rewrite decide_True by reflexivity
                                    | rewrite decide_False by discriminate];
        reflexivity.
    + rewrite Hgroup. destruct (existsb _ (_ :: _)); [apply land_keeps_lor | apply Z.land_diag].
Qed.

(** X12: [prov_event_handler] only logs: whatever the event, it returns with the
    state untouched, having written one line for an event of
    [NETWORK_PROV_EVENT] and nothing for any other base. *)
Theorem prov_handler_only_logs e id b :
  ∃ evs,
    prov_event_handler e id b = (evs, SRet tt b)
    ∧ length evs = (if base_eqb e NETWORK_PROV_EVENT then 1 else 0)%nat
    ∧ Forall (λ ev, ∃ lvl fmt args, ev = sys_log lvl fmt args) evs.
Proof. apply prov_event_handler_run. Qed.

Lemma wait_for_dispatches bits queue : ∀ b,
  Forall (λ ev, match ev with
                | sys_dispatch e id => (e, id) ∈ queue
                | _ => True
                end) (fst (wait_for bits queue b)).
Proof.
  induction queue as [| [e id] tl IH]; intros b; cbn [wait_for];
    destruct (Z.land (s_wifi_event_group b) bits =? bits); try constructor.
  unfold sbind at 1. cbn [smodify app].
  destruct (dispatch_run e id (set_posted tl b)) as (evs1 & b1 & Hd & _).
  assert (Hquiet : Forall (λ ev, match ev with sys_dispatch _ _ => False | _ => True end)
                     evs1).
  { assert (Hall : always (λ ev, match ev with sys_dispatch _ _ => False | _ => True end)
                     (deliver (registered (set_posted tl b)) e id))
      by (apply always_deliver; intros []; cbn [call_handler];
          unfold wifi_event_handler, prov_event_handler; sys_unfold;
          repeat first [ apply always_sret | apply always_sget | apply always_smodify
                       | apply always_semit; exact I
                       | apply always_sbind; [| intros ?]
                       | apply always_if ]).
    specialize (Hall (set_posted tl b)).
    unfold dispatch, sbind, semit, sget in Hd.
    destruct (deliver (registered (set_posted tl b)) e id (set_posted tl b)) as [l r].
    cbn in Hd, Hall. inversion Hd; subst. exact Hall. }
  rewrite (sbind_ret _ _ _ _ _ _ Hd). cbn [fst app].
  constructor; [apply list_elem_of_here |].
  apply Forall_app. split.
  - eapply Forall_impl; [exact Hquiet |]. intros []; tauto.
  - eapply Forall_impl; [apply IH |]. intros []; auto.
    intros Hin. apply list_elem_of_further. exact Hin.
Qed.

(** X13: with [wifi_event_handler] registered for it and the bit not yet set,
    the wait for [WIFI_CONNECTED_BIT] returns exactly when an
    [IP_EVENT_STA_GOT_IP] is among the events to come. *)
Theorem wait_ends_exactly_on_got_ip b :
  hears_got_ip (registered b) = true →
  Z.land (s_wifi_event_group b) WIFI_CONNECTED_BIT ≠ WIFI_CONNECTED_BIT →
  (∃ evs b', event_group_wait WIFI_CONNECTED_BIT b = (evs, SRet tt b'))
  ↔ (IP_EVENT, IP_EVENT_STA_GOT_IP) ∈ posted b.
Proof.
  intros Hhear Hclear. split.
  - intros (evs & b' & Hrun).
    destruct (event_group_wait_returns _ _ _ Hrun) as (_ & _ & [Hset | Hin]);
      [contradiction |].
    unfold event_group_wait, sdk_do, sbind, semit, sget in Hrun.
    pose proof (wait_for_dispatches WIFI_CONNECTED_BIT (posted b) b) as Hall.
    destruct (wait_for WIFI_CONNECTED_BIT (posted b) b) as [l r].
    cbn in Hrun, Hall. destruct r; inversion Hrun; subst.
    apply elem_of_cons in Hin as [Habs | Hin]; [discriminate Habs |].
    apply (proj1 (Forall_forall _ _) Hall _ Hin).
  - intros Hin. destruct (wait_for_ends (posted b) b Hhear Hin) as (evs & b' & Hrun).
    exists (sys_call xEventGroupWaitBits [a_int WIFI_CONNECTED_BIT] :: evs), b'.
    unfold event_group_wait, sdk_do, sbind, semit, sget. rewrite Hrun. reflexivity.
Qed.

(** X14: [udp_init] checks the descriptor and nothing else.  It returns exactly
    when [socket()] gave a non-negative descriptor, and then the destination
    holds whatever [inet_addr] made of [UDP_HOST_IP] and, as the port seen on
    the network, the low 16 bits of [UDP_HOST_PORT]; otherwise it logs the
    failure and aborts. *)
Theorem udp_init_checks_only_the_descriptor b :
  match udp_init b with
  | (evs, SRet _ b') =>
      0 <= sdk_ret b 0%nat ∧ udp_sock b' = sdk_ret b 0%nat
      ∧ sin_family (udp_dst b') = AF_INET
      ∧ sin_addr (udp_dst b') = inet_addr b UDP_HOST_IP
      ∧ htons (sin_port (udp_dst b')) = UDP_HOST_PORT mod 65536
  | (evs, SHalt h) =>
      sdk_ret b 0%nat < 0 ∧ h = abort_called ∧ last evs = Some sys_abort
  end.
Proof.
  rewrite udp_init_run.
  destruct (Z.ltb_spec (sdk_ret b 0%nat) 0) as [Hneg | Hok].
  - repeat split. exact Hneg.
  - repeat split; [exact Hok |]. cbn. apply htons_htons.
Qed.

End Behaviour.

(** ** Short transfers *)

Lemma exactly_short n (l : list byte) :
  0 <= n → (length l <= Z.to_nat n)%nat →
  exactly n l = l ++ replicate (Z.to_nat n - length l) x00.
Proof.
  intros Hn Hlen. unfold exactly. rewrite take_ge by exact Hlen. reflexivity.
Qed.

Lemma byte_at_padding (l : list byte) k i :
  (length l <= i)%nat → byte_at (l ++ replicate k x00) i = x00.
Proof.
  intros Hi. unfold byte_at. rewrite lookup_app_r by exact Hi.
  destruct (replicate k x00 !! (i - length l)%nat) as [x |] eqn:Hx; [| reflexivity].
  apply lookup_replicate in Hx as [-> _]. reflexivity.
Qed.

(** X15: a header transaction that delivers at most 8 bytes leaves the length
    field at the zeros of the [memset]: the pass asks for an empty payload and
    forwards a 10-byte datagram, the bytes received and zeros after them. *)
Theorem short_header_forwards_padded_header m h p rest :
  wf m → bus m = SpiOk h :: SpiOk p :: rest → (length h <= 8)%nat →
  loop_body m =
    ([ev_gpio_set_level PIN_RDY 1; ev_spi_slave_transmit 80 (Some obj_hdr);
      ev_gpio_set_level PIN_RDY 1; ev_spi_slave_transmit 0 (Some obj_payload);
      ev_sendto 10 (h ++ replicate (10 - length h) x00)],
     Ret tt (after_body m h p rest)).
Proof.
  intros Hwf Hbus Hlen. rewrite (loop_body_summary m Hwf). unfold body_summary.
  rewrite Hbus.
  assert (Hh : exactly HDR_LEN h = h ++ replicate (10 - length h) x00)
    by (apply exactly_short; unfold HDR_LEN; [lia | change (Z.to_nat 10) with 10%nat; lia]).
  assert (Hused : used_len h = 0).
  { unfold used_len, declared_len. rewrite Hh, !byte_at_padding by lia. reflexivity. }
  unfold header_events, payload_events, forward_events, datagram.
  rewrite Hused, Hh. cbn [app]. unfold exactly. cbn [Z.to_nat take replicate Nat.sub].
  rewrite app_nil_r. reflexivity.
Qed.

(** X16: when fewer payload bytes arrive than the header declares, the datagram
    still has the declared length: the bytes received, then zeros. *)
Theorem short_payload_is_zero_filled m h p rest :
  wf m → bus m = SpiOk h :: SpiOk p :: rest →
  length h = 10%nat → declared_len h <= PAYLOAD_MAX →
  Z.of_nat (length p) <= declared_len h →
  loop_body m =
    ([ev_gpio_set_level PIN_RDY 1; ev_spi_slave_transmit 80 (Some obj_hdr);
      ev_gpio_set_level PIN_RDY 1;
      ev_spi_slave_transmit (declared_len h * 8) (Some obj_payload);
      ev_sendto (10 + declared_len h)
        (h ++ p ++ replicate (Z.to_nat (declared_len h) - length p) x00)],
     Ret tt (after_body m h p rest)).
Proof.
  intros Hwf Hbus Hh Hdecl Hp. rewrite (loop_body_summary m Hwf). unfold body_summary.
  rewrite Hbus.
  unfold header_events, payload_events, forward_events, datagram.
  rewrite (used_len_small h Hh Hdecl).
  rewrite (exactly_same HDR_LEN h) by (rewrite Hh; reflexivity).
  rewrite (exactly_short (declared_len h) p);
    [reflexivity | apply (proj1 (le16_range _ _)) | lia].
Qed.

(** ** Setting up the SPI slave *)

Section Wiring.
Context {K : sdk} {C : credential}.

Lemma spi_slave_init_bus_run b :
  ∃ fmt shown,
    spi_slave_init_bus b
    = (if sdk_ret b 0%nat =? ESP_OK then
        if sdk_ret b 1%nat =? ESP_OK then
          ([sys_call gpio_config
              [a_int GPIO_INTR_DISABLE; a_int GPIO_MODE_OUTPUT; a_int (2 ^ PIN_RDY)];
            sys_bridge (ev_gpio_set_level PIN_RDY 1);
            sys_call spi_slave_initialize spi_slave_initialize_args;
            sys_log LOGI fmt shown],
           SRet tt (set_sdk_ret (λ i, sdk_ret b (S (S i))) b))
        else
          ([sys_call gpio_config
              [a_int GPIO_INTR_DISABLE; a_int GPIO_MODE_OUTPUT; a_int (2 ^ PIN_RDY)];
            sys_bridge (ev_gpio_set_level PIN_RDY 1);
            sys_call spi_slave_initialize spi_slave_initialize_args; sys_abort],
           SHalt (check_failed (sdk_ret b 1%nat)))
      else
        ([sys_call gpio_config
            [a_int GPIO_INTR_DISABLE; a_int GPIO_MODE_OUTPUT; a_int (2 ^ PIN_RDY)];
          sys_abort],
         SHalt (check_failed (sdk_ret b 0%nat)))).
Proof.
  exists "SPI slave ready (SCLK=%d MOSI=%d MISO=%d CS=%d RDY=%d)"%string,
    [a_int PIN_SCLK; a_int PIN_MOSI; a_int PIN_MISO; a_int PIN_CS; a_int PIN_RDY].
  destruct b as [m g fd dst regs r pr mac ia q].
  unfold spi_slave_init_bus, ESP_ERROR_CHECK_sys, ESP_LOG, sdk_call, run_bridge, set_rdy,
    emit, sbind, semit, sget, smodify, sret, sstop.
  cbn [sdk_ret set_sdk_ret bridge set_bridge fmap list_fmap on_board app].
  destruct (r 0%nat =? ESP_OK); [| reflexivity].
  cbn [sdk_ret set_sdk_ret bridge set_bridge fmap list_fmap on_board app].
  destruct (r 1%nat =? ESP_OK); reflexivity.
Qed.

(** X17: [spi_slave_init_bus] raises RDY after [gpio_config] returned [ESP_OK]
    and before it calls [spi_slave_initialize]: whenever the SPI slave is
    initialised, the pin, and no other, is already configured and high; and the
    function returns only if both calls returned [ESP_OK]. *)
Theorem rdy_is_high_before_spi_slave_initialize b i args :
  fst (spi_slave_init_bus b) !! i = Some (sys_call spi_slave_initialize args) →
  i = 2%nat
  ∧ sdk_ret b 0%nat = ESP_OK
  ∧ fst (spi_slave_init_bus b) !! 0%nat
    = Some (sys_call gpio_config
              [a_int GPIO_INTR_DISABLE; a_int GPIO_MODE_OUTPUT; a_int (2 ^ PIN_RDY)])
  ∧ fst (spi_slave_init_bus b) !! 1%nat = Some (sys_bridge (ev_gpio_set_level PIN_RDY 1))
  ∧ ((∃ b', snd (spi_slave_init_bus b) = SRet tt b') ↔ sdk_ret b 1%nat = ESP_OK).
Proof.
  destruct (spi_slave_init_bus_run b) as (fmt & shown & ->).
  destruct (Z.eqb_spec (sdk_ret b 0%nat) ESP_OK) as [Hgpio | Hgpio].
  - destruct (Z.eqb_spec (sdk_ret b 1%nat) ESP_OK) as [Hspi | Hspi]; cbn [fst snd];
      intros Hi;
      (assert (i = 2%nat) as ->
         by (destruct i as [| [| [| [| i]]]]; first [reflexivity | discriminate Hi]));
      (split; [reflexivity |]); (split; [exact Hgpio |]);
      (split; [reflexivity |]); (split; [reflexivity |]); split.
    + intros _. exact Hspi.
    + intros _. eexists. reflexivity.
    + intros [b' Hb]. discriminate Hb.
    + intros Hok. contradiction.
  - cbn [fst]. intros Hi. destruct i as [| [| i]]; discriminate Hi.
Qed.

(** X18: the loop never asks the driver for more than [spi_slave_init_bus]
    announced: every receive is for whole bytes, into an array, and of at most
    [max_transfer_sz] bytes; the 10 bytes of a header fit as well. *)
Theorem transfers_fit_max_transfer_sz fuel m i bits rx :
  wf m →
  fst (spi_udp_forward_loop fuel m) !! i = Some (ev_spi_slave_transmit bits rx) →
  0 <= bits <= max_transfer_sz buscfg * 8 ∧ bits mod 8 = 0 ∧ rx ≠ None
  ∧ HDR_LEN <= max_transfer_sz buscfg.
Proof.
  intros Hwf Hi.
  pose proof (proj1 (Forall_lookup _ _) (transfers_within_max fuel m Hwf) i _ Hi) as Hin.
  cbn in Hin. destruct Hin as (Hb & Hmod & Hrx).
  repeat split; try assumption; try (cbn in *; lia). discriminate.
Qed.

End Wiring.

Lemma length_strncpy n src : length (strncpy n src) = n.
Proof. unfold strncpy. rewrite length_app, length_take, length_replicate. lia. Qed.

Lemma strncpy_prefix n src :
  take (length src) (strncpy n src) = take n src.
Proof.
  unfold strncpy. destruct (Nat.le_gt_cases n (length src)) as [Hle | Hgt].
  - replace (n - length src)%nat with 0%nat by lia. cbn [replicate].
    rewrite app_nil_r, take_take. f_equal. lia.
  - rewrite (take_ge src n) by lia. apply take_app_length.
Qed.

Lemma strncpy_padding n src :
  drop (length src) (strncpy n src) = replicate (n - length src) x00.
Proof.
  unfold strncpy. destruct (Nat.le_gt_cases n (length src)) as [Hle | Hgt].
  - replace (n - length src)%nat with 0%nat by lia. cbn [replicate].
    rewrite app_nil_r. apply drop_ge. rewrite length_take. lia.
  - rewrite take_ge by lia. rewrite drop_app_length. reflexivity.
Qed.

(** ** The earlier revision *)

Section Static.
Context {K : sdk} {C : credential}.

Lemma app_main_static_split fuel b :
  app_main_static fuel b =
  sbind static_start
    (λ _, sbind udp_init
            (λ _, sbind spi_slave_init_bus
                    (λ _, run_bridge (spi_udp_forward_loop fuel)))) b.
Proof. unfold app_main_static, static_start. regroup_tac. Qed.

Lemma static_start_returns b evs a b' :
  static_start b = (evs, SRet a b') → sys_call vTaskDelay [a_int 3000] ∈ evs.
Proof.
  unfold static_start, sdk_do. intros H.
  peel H as e1 a1 b1 e2 H1. peel H as e3 a3 b3 e4 H3. inversion H; subst.
  rewrite !elem_of_app. right. right. apply list_elem_of_here.
Qed.

(** X19: the field [esp_wifi_set_config] receives in the earlier revision is
    what [strncpy] leaves in a zeroed array: as long as the array, with the
    characters of the string first, cut where the array ends.  Zeros follow a
    shorter string; a string that fills the array or is longer has no NUL after
    it. *)
Theorem static_credentials_fill_the_field b i args :
  fst (wifi_init_sta_simple b) !! i = Some (sys_call esp_wifi_set_config args) →
  ∃ ssid password,
    args = [a_int WIFI_IF_STA; a_str ssid; a_str password]
    ∧ length ssid = sizeof_sta_ssid ∧ length password = sizeof_sta_password
    ∧ take (length WIFI_SSID) ssid = take sizeof_sta_ssid WIFI_SSID
    ∧ drop (length WIFI_SSID) ssid = replicate (sizeof_sta_ssid - length WIFI_SSID) x00
    ∧ take (length WIFI_PASS) password = take sizeof_sta_password WIFI_PASS
    ∧ drop (length WIFI_PASS) password
      = replicate (sizeof_sta_password - length WIFI_PASS) x00.
Proof.
  intros Hi.
  assert (Hall : always (λ ev, ∀ a, ev = sys_call esp_wifi_set_config a →
                     a = [a_int WIFI_IF_STA; a_str (strncpy sizeof_sta_ssid WIFI_SSID);
                          a_str (strncpy sizeof_sta_password WIFI_PASS)])
                   wifi_init_sta_simple).
  { unfold wifi_init_sta_simple. sys_unfold.
    repeat first [ apply always_sret | apply always_sstop | apply always_sget
                 | apply always_smodify
                 | apply always_semit; intros ? [=]; subst; reflexivity
                 | apply always_sbind; [| intros ?]
                 | apply always_if ]. }
  pose proof (proj1 (Forall_lookup _ _) (Hall b) i _ Hi args eq_refl) as ->.
  do 2 eexists. split; [reflexivity |].
  rewrite !length_strncpy, !strncpy_prefix, !strncpy_padding. repeat split.
Qed.

(** X20: the earlier revision never learns whether the station is connected: it
    registers no event handler and waits for no event, and what separates the
    Wi-Fi start from the first forwarding event is the delay of 3000 ms alone. *)
Theorem static_revision_only_delays fuel b :
  Forall (λ ev, is_call esp_event_handler_register ev = false
                ∧ is_call xEventGroupWaitBits ev = false
                ∧ is_dispatch ev = false)
    (fst (app_main_static fuel b))
  ∧ ∀ i ev, fst (app_main_static fuel b) !! i = Some ev → is_forwarding ev = true →
      ∃ j, (j < i)%nat
           ∧ fst (app_main_static fuel b) !! j = Some (sys_call vTaskDelay [a_int 3000]).
Proof.
  split.
  - assert (Hall : always (λ ev, is_call esp_event_handler_register ev = false
                                 ∧ is_call xEventGroupWaitBits ev = false
                                 ∧ is_dispatch ev = false) (app_main_static fuel)).
    { sys_defs.
      repeat first [ apply always_sret | apply always_sstop | apply always_sget
                   | apply always_smodify
                   | apply always_semit; repeat split
                   | apply always_sbind; [| intros ?]
                   | apply always_if
                   | apply always_run_bridge; intros ? []; repeat split ]. }
    apply Hall.
  - intros i ev. rewrite app_main_static_split.
    apply gate; [unfold static_start; sys_auto' |].
    intros b0 e a b'. apply static_start_returns.
Qed.

End Static.

(** ** [wifi_init_base] and provisioning *)

Section Init.
Context {K : sdk} {C : credential}.

Lemma semit_returns e b evs a b' :
  semit e b = (evs, SRet a b') → evs = [e] ∧ b' = b.
Proof. intros H. inversion H. split; reflexivity. Qed.

Lemma smodify_returns g b evs a b' :
  smodify g b = (evs, SRet a b') → evs = [] ∧ b' = g b.
Proof. intros H. inversion H. split; reflexivity. Qed.

Lemma sget_returns {A} (g : board → A) b evs a b' :
  sget g b = (evs, SRet a b') → evs = [] ∧ a = g b ∧ b' = b.
Proof. intros H. inversion H. repeat split. Qed.

Lemma checked_call_returns f args b evs a b' :
  ESP_ERROR_CHECK_sys (sdk_call f args) b = (evs, SRet a b') →
  evs = [sys_call f args] ∧ b' = set_sdk_ret (λ i, sdk_ret b (S i)) b.
Proof.
  intros H. apply check_returns in H. rewrite sdk_call_run in H.
  inversion H; subst. split; reflexivity.
Qed.

Lemma checked_register_returns e id h b evs a b' :
  ESP_ERROR_CHECK_sys (event_handler_register e id h) b = (evs, SRet a b') →
  evs = [sys_call esp_event_handler_register [a_base e; a_int id; a_handler h]]
  ∧ b' = set_registered (registered b ++ [(e, id, h)])
           (set_sdk_ret (λ i, sdk_ret b (S i)) b).
Proof.
  intros H. apply check_returns in H.
  unfold event_handler_register, sbind in H. rewrite sdk_call_run in H.
  destruct (Z.eqb_spec (sdk_ret b 0%nat) ESP_OK) as [Hok | Hbad].
  - cbn in H. inversion H; subst. split; reflexivity.
  - cbn in H. inversion H; subst. contradiction.
Qed.

(** X21: when [wifi_init_base] returns, the event group is fresh and empty and
    [wifi_event_handler] has been added twice to the handlers, for every
    [WIFI_EVENT] and for [IP_EVENT_STA_GOT_IP], both before [esp_wifi_start] was
    called, so that no event of the starting station is missed. *)
Theorem wifi_init_base_registers_before_start b evs a b' :
  wifi_init_base b = (evs, SRet a b') →
  s_wifi_event_group b' = 0
  ∧ registered b'
    = registered b ++ [(WIFI_EVENT, ESP_EVENT_ANY_ID, h_wifi_event_handler);
                       (IP_EVENT, IP_EVENT_STA_GOT_IP, h_wifi_event_handler)]
  ∧ evs = [sys_call xEventGroupCreate [];
           sys_call esp_netif_init [];
           sys_call esp_event_loop_create_default [];
           sys_call esp_netif_create_default_wifi_sta [];
           sys_call esp_event_handler_register
             [a_base WIFI_EVENT; a_int ESP_EVENT_ANY_ID; a_handler h_wifi_event_handler];
           sys_call esp_event_handler_register
             [a_base IP_EVENT; a_int IP_EVENT_STA_GOT_IP; a_handler h_wifi_event_handler];
           sys_call esp_wifi_init [];
           sys_call esp_wifi_set_mode [a_int WIFI_MODE_STA];
           sys_call esp_wifi_start []].
Proof.
  unfold wifi_init_base, sdk_do. intros H.
  peel H as ea1 ra1 ba1 eb1 Hs1. apply semit_returns in Hs1 as [-> ->].
  peel H as ea2 ra2 ba2 eb2 Hs2. apply smodify_returns in Hs2 as [-> ->].
  peel H as ea3 ra3 ba3 eb3 Hs3. apply checked_call_returns in Hs3 as [-> ->].
  peel H as ea4 ra4 ba4 eb4 Hs4. apply checked_call_returns in Hs4 as [-> ->].
  peel H as ea5 ra5 ba5 eb5 Hs5. apply semit_returns in Hs5 as [-> ->].
  peel H as ea6 ra6 ba6 eb6 Hs6. apply checked_register_returns in Hs6 as [-> ->].
  peel H as ea7 ra7 ba7 eb7 Hs7. apply checked_register_returns in Hs7 as [-> ->].
  peel H as ea8 ra8 ba8 eb8 Hs8. apply checked_call_returns in Hs8 as [-> ->].
  peel H as ea9 ra9 ba9 eb9 Hs9. apply checked_call_returns in Hs9 as [-> ->].
  apply checked_call_returns in H as [-> ->].
  split; [reflexivity |]. split; [| reflexivity].
  destruct b. cbn. rewrite <- app_assoc. reflexivity.
Qed.

(** X22: [ble_provisioning_if_needed] with credentials already stored does
    nothing but say so.  Without them, when it returns it has started
    provisioning under the service name made from the factory MAC, with security
    scheme 2 and the fixed proof of possession, has sat out a wait for
    [WIFI_CONNECTED_BIT], and has shut the provisioning manager down as its last
    step. *)
Theorem provisioning_runs_only_when_needed b evs a b' :
  ble_provisioning_if_needed b = (evs, SRet a b') →
  if provisioned b then
    evs = [sys_call network_prov_mgr_is_wifi_provisioned [];
           sys_log LOGI "Already provisioned." []]
  else
    sys_call network_prov_mgr_start_provisioning
      [a_int NETWORK_PROV_SECURITY_2; a_str (list_byte_of_string "abcd1234");
       a_str (service_name_text (exactly 6 (factory_mac b)))] ∈ evs
    ∧ sys_call xEventGroupWaitBits [a_int WIFI_CONNECTED_BIT] ∈ evs
    ∧ Z.land (s_wifi_event_group b') WIFI_CONNECTED_BIT = WIFI_CONNECTED_BIT
    ∧ last evs = Some (sys_call network_prov_mgr_deinit []).
Proof.
  unfold ble_provisioning_if_needed. intros H.
  peel H as ea10 ra10 ba10 eb10 Hs10. apply checked_call_returns in Hs10 as [-> ->].
  peel H as ea11 ra11 ba11 eb11 Hs11. apply sget_returns in Hs11 as (-> & -> & ->).
  cbn [provisioned set_sdk_ret] in H.
  destruct (provisioned b).
  - apply semit_returns in H as [-> _]. reflexivity.
  - cbv zeta in H.
    peel H as ea12 ra12 ba12 eb12 Hs12. apply checked_call_returns in Hs12 as [-> ->].
    peel H as ea13 ra13 ba13 eb13 Hs13. apply sget_returns in Hs13 as (-> & -> & ->).
    peel H as ea14 ra14 ba14 eb14 Hs14. apply semit_returns in Hs14 as [-> ->].
    peel H as ea15 ra15 ba15 eb15 Hs15. apply checked_call_returns in Hs15 as [-> ->].
    peel H as ea16 ra16 ba16 eb16 Hs16. apply semit_returns in Hs16 as [-> ->].
    peel H as ea17 ra17 ba17 eb17 Hs17. destruct ra17.
    pose proof (event_group_wait_returns _ _ _ Hs17) as (Hset & _ & _).
    assert (Hwait : sys_call xEventGroupWaitBits [a_int WIFI_CONNECTED_BIT] ∈ ea17).
    { unfold event_group_wait, sdk_do in Hs17.
      peel Hs17 as ea18 ra18 ba18 eb18 Hs18. inversion Hs18. apply list_elem_of_here. }
    peel H as ea19 ra19 ba19 eb19 Hs19. apply semit_returns in Hs19 as [-> ->].
    apply semit_returns in H as [-> ->].
    repeat split.
    + cbn [factory_mac set_sdk_ret app]. do 3 apply list_elem_of_further. apply list_elem_of_here.
    + rewrite !elem_of_app. auto 10.
    + exact Hset.
    + rewrite !app_assoc. apply last_snoc.
Qed.

End Init.

(** ** The statements at the sample boards *)

Lemma wait_ends_exactly_on_got_ip_witness :
  hears_got_ip (K := sample_sdk) (registered bench_unprovisioned) = true
  ∧ Z.land (s_wifi_event_group bench_unprovisioned) WIFI_CONNECTED_BIT
    ≠ WIFI_CONNECTED_BIT
  ∧ ((∃ evs b', event_group_wait (K := sample_sdk) WIFI_CONNECTED_BIT bench_unprovisioned
                = (evs, SRet tt b'))
     ↔ (IP_EVENT, IP_EVENT_STA_GOT_IP (sdk := sample_sdk)) ∈ posted bench_unprovisioned).
Proof.
  split; [reflexivity |]. split; [discriminate |].
  apply (wait_ends_exactly_on_got_ip (K := sample_sdk) bench_unprovisioned).
  - reflexivity.
  - discriminate.
Defined.

Lemma rdy_is_high_before_spi_slave_initialize_witness :
  fst (spi_slave_init_bus (K := sample_sdk) (bench demo_exact)) !! 2%nat
  = Some (sys_call spi_slave_initialize (spi_slave_initialize_args (K := sample_sdk)))
  ∧ 2%nat = 2%nat
  ∧ sdk_ret (bench demo_exact) 0%nat = ESP_OK
  ∧ fst (spi_slave_init_bus (K := sample_sdk) (bench demo_exact)) !! 0%nat
    = Some (sys_call gpio_config
              [a_int (GPIO_INTR_DISABLE (sdk := sample_sdk));
               a_int (GPIO_MODE_OUTPUT (sdk := sample_sdk)); a_int (2 ^ PIN_RDY)])
  ∧ fst (spi_slave_init_bus (K := sample_sdk) (bench demo_exact)) !! 1%nat
    = Some (sys_bridge (ev_gpio_set_level PIN_RDY 1))
  ∧ ((∃ b', snd (spi_slave_init_bus (K := sample_sdk) (bench demo_exact)) = SRet tt b')
     ↔ sdk_ret (bench demo_exact) 1%nat = ESP_OK).
Proof.
  split; [reflexivity |].
  apply (rdy_is_high_before_spi_slave_initialize (K := sample_sdk) (bench demo_exact) 2
           (spi_slave_initialize_args (K := sample_sdk))).
  reflexivity.
Defined.

Lemma transfers_fit_max_transfer_sz_witness :
  wf demo_exact
  ∧ fst (spi_udp_forward_loop 1 demo_exact) !! 3%nat
    = Some (ev_spi_slave_transmit 40 (Some obj_payload))
  ∧ 0 <= 40 <= max_transfer_sz buscfg * 8 ∧ 40 mod 8 = 0 ∧ Some obj_payload ≠ None
  ∧ HDR_LEN <= max_transfer_sz buscfg.
Proof.
  split; [intros [| |]; reflexivity |]. split; [vm_compute; reflexivity |].
  apply (transfers_fit_max_transfer_sz 1 demo_exact 3 40 (Some obj_payload)).
  - intros [| |]; reflexivity.
  - vm_compute. reflexivity.
Defined.

Lemma static_credentials_fill_the_field_witness :
  fst (wifi_init_sta_simple (K := sample_sdk) (C := sample_credential) (bench demo_exact))
    !! 5%nat
  = Some (sys_call esp_wifi_set_config
            [a_int 0;
             a_str (list_byte_of_string "bench" ++ replicate 27 x00);
             a_str (list_byte_of_string "correct horse" ++ replicate 51 x00)])
  ∧ ∃ ssid password,
      [a_int 0; a_str (list_byte_of_string "bench" ++ replicate 27 x00);
       a_str (list_byte_of_string "correct horse" ++ replicate 51 x00)]
      = [a_int (WIFI_IF_STA (sdk := sample_sdk)); a_str ssid; a_str password]
      ∧ length ssid = sizeof_sta_ssid (sdk := sample_sdk)
      ∧ length password = sizeof_sta_password (sdk := sample_sdk)
      ∧ take (length (WIFI_SSID (credential := sample_credential))) ssid
        = take (sizeof_sta_ssid (sdk := sample_sdk))
            (WIFI_SSID (credential := sample_credential))
      ∧ drop (length (WIFI_SSID (credential := sample_credential))) ssid
        = replicate (sizeof_sta_ssid (sdk := sample_sdk)
                     - length (WIFI_SSID (credential := sample_credential))) x00
      ∧ take (length (WIFI_PASS (credential := sample_credential))) password
        = take (sizeof_sta_password (sdk := sample_sdk))
            (WIFI_PASS (credential := sample_credential))
      ∧ drop (length (WIFI_PASS (credential := sample_credential))) password
        = replicate (sizeof_sta_password (sdk := sample_sdk)
                     - length (WIFI_PASS (credential := sample_credential))) x00.
Proof.
  split; [vm_compute; reflexivity |].
  apply (static_credentials_fill_the_field (K := sample_sdk) (C := sample_credential)
           (bench demo_exact) 5).
  vm_compute. reflexivity.
Defined.

Lemma forwarding_waits_for_ip_witness :
  fst (app_main (K := sample_sdk) (C := sample_credential) 1 (bench demo_exact)) !! 26%nat
  = Some (sys_bridge (ev_gpio_set_level PIN_RDY 1))
  ∧ is_forwarding (sys_bridge (ev_gpio_set_level PIN_RDY 1)) = true
  ∧ ∃ j, (j < 26)%nat
         ∧ fst (app_main (K := sample_sdk) (C := sample_credential) 1 (bench demo_exact)) !! j
           = Some (sys_dispatch IP_EVENT (IP_EVENT_STA_GOT_IP (sdk := sample_sdk))).
Proof.
  split; [vm_compute; reflexivity |]. split; [reflexivity |].
  apply (forwarding_waits_for_ip (K := sample_sdk) (C := sample_credential) 1
           (bench demo_exact) 26 (sys_bridge (ev_gpio_set_level PIN_RDY 1))).
  - vm_compute. reflexivity.
  - reflexivity.
Defined.

Lemma datagrams_go_to_configured_target_witness :
  wf (bridge (bench demo_exact))
  ∧ fst (app_main (K := sample_sdk) (C := sample_credential) 1 (bench demo_exact)) !! 33%nat
    = Some (sys_sendto 0 15 (hdr_5 ++ payload_5)
              {| sin_family := 2; sin_port := 34835; sin_addr := 0x1401a8c0 |})
  ∧ 0 <= 0
  ∧ {| sin_family := 2; sin_port := 34835; sin_addr := 0x1401a8c0 |}
    = configured_dst (K := sample_sdk) (C := sample_credential) (bench demo_exact)
  ∧ 10 <= 15 <= 2058
  ∧ Z.of_nat (length (hdr_5 ++ payload_5)) = 15.
Proof.
  split; [intros [| |]; reflexivity |]. split; [vm_compute; reflexivity |].
  apply (datagrams_go_to_configured_target (K := sample_sdk) (C := sample_credential) 1
           (bench demo_exact) 33 0 15 (hdr_5 ++ payload_5)
           {| sin_family := 2; sin_port := 34835; sin_addr := 0x1401a8c0 |}).
  - intros [| |]; reflexivity.
  - vm_compute. reflexivity.
Defined.

Lemma app_main_reaches_loop_witness :
  ready_to_connect (K := sample_sdk) (bench demo_exact)
  ∧ ∃ pre b',
      app_main (K := sample_sdk) (C := sample_credential) 1 (bench demo_exact)
      = (pre ++ (on_board b' <$> fst (spi_udp_forward_loop 1 (bridge (bench demo_exact)))),
         snd (run_bridge (spi_udp_forward_loop 1) b'))
      ∧ bridge b' = bridge (bench demo_exact)
      ∧ existsb is_sendto pre = false.
Proof.
  assert (Hready : ready_to_connect (K := sample_sdk) (bench demo_exact)).
  { split; [intros i; reflexivity |]. split; [reflexivity |].
    apply list_elem_of_further, list_elem_of_here. }
  split; [exact Hready |].
  apply (app_main_reaches_loop (K := sample_sdk) (C := sample_credential) 1
           (bench demo_exact) Hready).
Defined.

Lemma wifi_init_base_registers_before_start_witness :
  wifi_init_base (K := sample_sdk) (bench demo_exact)
  = (fst (wifi_init_base (K := sample_sdk) (bench demo_exact)),
     SRet tt (landed (wifi_init_base (K := sample_sdk)) (bench demo_exact)))
  ∧ s_wifi_event_group (landed (wifi_init_base (K := sample_sdk)) (bench demo_exact)) = 0
  ∧ registered (landed (wifi_init_base (K := sample_sdk)) (bench demo_exact))
    = registered (bench demo_exact)
      ++ [(WIFI_EVENT, ESP_EVENT_ANY_ID (sdk := sample_sdk), h_wifi_event_handler);
          (IP_EVENT, IP_EVENT_STA_GOT_IP (sdk := sample_sdk), h_wifi_event_handler)]
  ∧ fst (wifi_init_base (K := sample_sdk) (bench demo_exact))
    = [sys_call xEventGroupCreate [];
       sys_call esp_netif_init [];
       sys_call esp_event_loop_create_default [];
       sys_call esp_netif_create_default_wifi_sta [];
       sys_call esp_event_handler_register
         [a_base WIFI_EVENT; a_int (ESP_EVENT_ANY_ID (sdk := sample_sdk));
          a_handler h_wifi_event_handler];
       sys_call esp_event_handler_register
         [a_base IP_EVENT; a_int (IP_EVENT_STA_GOT_IP (sdk := sample_sdk));
          a_handler h_wifi_event_handler];
       sys_call esp_wifi_init [];
       sys_call esp_wifi_set_mode [a_int (WIFI_MODE_STA (sdk := sample_sdk))];
       sys_call esp_wifi_start []].
Proof.
  split; [vm_compute; reflexivity |].
  apply (wifi_init_base_registers_before_start (K := sample_sdk) (bench demo_exact)
           (fst (wifi_init_base (K := sample_sdk) (bench demo_exact))) tt
           (landed (wifi_init_base (K := sample_sdk)) (bench demo_exact))).
  vm_compute. reflexivity.
Defined.

Lemma provisioning_runs_only_when_needed_witness :
  ble_provisioning_if_needed (K := sample_sdk) bench_unprovisioned
  = (fst (ble_provisioning_if_needed (K := sample_sdk) bench_unprovisioned),
     SRet tt (landed (ble_provisioning_if_needed (K := sample_sdk)) bench_unprovisioned))
  ∧ if provisioned bench_unprovisioned then
      fst (ble_provisioning_if_needed (K := sample_sdk) bench_unprovisioned)
      = [sys_call network_prov_mgr_is_wifi_provisioned [];
         sys_log LOGI "Already provisioned." []]
    else
      sys_call network_prov_mgr_start_provisioning
        [a_int (NETWORK_PROV_SECURITY_2 (sdk := sample_sdk));
         a_str (list_byte_of_string "abcd1234");
         a_str (service_name_text (exactly 6 (factory_mac bench_unprovisioned)))]
        ∈ fst (ble_provisioning_if_needed (K := sample_sdk) bench_unprovisioned)
      ∧ sys_call xEventGroupWaitBits [a_int WIFI_CONNECTED_BIT]
          ∈ fst (ble_provisioning_if_needed (K := sample_sdk) bench_unprovisioned)
      ∧ Z.land (s_wifi_event_group
                  (landed (ble_provisioning_if_needed (K := sample_sdk))
                     bench_unprovisioned)) WIFI_CONNECTED_BIT
        = WIFI_CONNECTED_BIT
      ∧ last (fst (ble_provisioning_if_needed (K := sample_sdk) bench_unprovisioned))
        = Some (sys_call network_prov_mgr_deinit []).
Proof.
  split; [vm_compute; reflexivity |].
  apply (provisioning_runs_only_when_needed (K := sample_sdk) bench_unprovisioned
           (fst (ble_provisioning_if_needed (K := sample_sdk) bench_unprovisioned)) tt
           (landed (ble_provisioning_if_needed (K := sample_sdk)) bench_unprovisioned)).
  vm_compute. reflexivity.
Defined.

Lemma short_header_forwards_padded_header_witness :
  wf demo_short_header
  ∧ bus demo_short_header = [SpiOk [x01; x02; x03]; SpiOk payload_5]
  ∧ (length [x01; x02; x03] <= 8)%nat
  ∧ loop_body demo_short_header =
      ([ev_gpio_set_level PIN_RDY 1; ev_spi_slave_transmit 80 (Some obj_hdr);
        ev_gpio_set_level PIN_RDY 1; ev_spi_slave_transmit 0 (Some obj_payload);
        ev_sendto 10 ([x01; x02; x03] ++ replicate (10 - length [x01; x02; x03]) x00)],
       Ret tt (after_body demo_short_header [x01; x02; x03] payload_5 [])).
Proof.
  split; [intros [| |]; reflexivity |]. split; [reflexivity |].
  split; [cbn; lia |].
  apply (short_header_forwards_padded_header demo_short_header [x01; x02; x03]
           payload_5 []).
  - intros [| |]; reflexivity.
  - reflexivity.
  - cbn. lia.
Defined.

Lemma short_payload_is_zero_filled_witness :
  wf demo_short_payload
  ∧ bus demo_short_payload = [SpiOk hdr_5; SpiOk payload_2]
  ∧ length hdr_5 = 10%nat ∧ declared_len hdr_5 <= PAYLOAD_MAX
  ∧ Z.of_nat (length payload_2) <= declared_len hdr_5
  ∧ loop_body demo_short_payload =
      ([ev_gpio_set_level PIN_RDY 1; ev_spi_slave_transmit 80 (Some obj_hdr);
        ev_gpio_set_level PIN_RDY 1;
        ev_spi_slave_transmit (declared_len hdr_5 * 8) (Some obj_payload);
        ev_sendto (10 + declared_len hdr_5)
          (hdr_5 ++ payload_2
           ++ replicate (Z.to_nat (declared_len hdr_5) - length payload_2) x00)],
       Ret tt (after_body demo_short_payload hdr_5 payload_2 [])).
Proof.
  split; [intros [| |]; reflexivity |]. split; [reflexivity |].
  split; [reflexivity |]. split; [vm_compute; discriminate |].
  split; [vm_compute; discriminate |].
  apply (short_payload_is_zero_filled demo_short_payload hdr_5 payload_2 []).
  - intros [| |]; reflexivity.
  - reflexivity.
  - reflexivity.
  - vm_compute. discriminate.
  - vm_compute. discriminate.
Defined.

Lemma sent_count_bounded_witness :
  wf demo_two
  ∧ (length (sent (fst (spi_udp_forward_loop 3 demo_two))) <= 3)%nat
  ∧ (2 * length (sent (fst (spi_udp_forward_loop 3 demo_two))) <= length (bus demo_two))%nat.
Proof.
  split; [intros [| |]; reflexivity |].
  apply (sent_count_bounded 3 demo_two). intros [| |]; reflexivity.
Defined.

Lemma abort_comes_from_driver_witness :
  wf demo_failing
  ∧ snd (spi_udp_forward_loop 1 demo_failing) = Halt (Aborted 258)
  ∧ ∃ e, SpiErr e ∈ bus demo_failing ∧ 258 = Z.pos e.
Proof.
  split; [intros [| |]; reflexivity |]. split; [vm_compute; reflexivity |].
  apply (abort_comes_from_driver 1 demo_failing 258).
  - intros [| |]; reflexivity.
  - vm_compute. reflexivity.
Defined.

Lemma loop_log_from_bus_witness :
  wf demo_two ∧ wf demo_clean ∧ bus demo_two = bus demo_clean
  ∧ fst (spi_udp_forward_loop 2 demo_two) = fst (spi_udp_forward_loop 2 demo_clean).
Proof.
  split; [intros [| |]; reflexivity |]. split; [intros [| |]; reflexivity |].
  split; [reflexivity |].
  apply (loop_log_from_bus 2 demo_two demo_clean).
  - intros [| |]; reflexivity.
  - intros [| |]; reflexivity.
  - reflexivity.
Defined.

Lemma loop_runs_while_fed_witness :
  wf demo_two
  ∧ length [SpiOk hdr_5; SpiOk payload_5; SpiOk hdr_2; SpiOk payload_2] = (2 * 2)%nat
  ∧ Forall (λ r, ∃ rx, r = SpiOk rx)
      [SpiOk hdr_5; SpiOk payload_5; SpiOk hdr_2; SpiOk payload_2]
  ∧ bus demo_two = [SpiOk hdr_5; SpiOk payload_5; SpiOk hdr_2; SpiOk payload_2]
  ∧ ∃ m', snd (spi_udp_forward_loop 2 demo_two) = Ret tt m' ∧ bus m' = []
          ∧ length (sent (fst (spi_udp_forward_loop 2 demo_two))) = 2%nat.
Proof.
  assert (Hok : Forall (λ r, ∃ rx, r = SpiOk rx)
                  [SpiOk hdr_5; SpiOk payload_5; SpiOk hdr_2; SpiOk payload_2])
    by (repeat constructor; eexists; reflexivity).
  split; [intros [| |]; reflexivity |]. split; [reflexivity |].
  split; [exact Hok |]. split; [reflexivity |].
  apply (loop_runs_while_fed 2 demo_two
           [SpiOk hdr_5; SpiOk payload_5; SpiOk hdr_2; SpiOk payload_2]).
  - intros [| |]; reflexivity.
  - reflexivity.
  - exact Hok.
  - reflexivity.
Defined.
